(** * Import pipeline of the Strapi import/export plugin

    A shallow embedding of the import service under
    [server/src/services/import] (importData, importOtherSlug, updateOrCreate
    and the relation resolver), of [parsers.js] next to it (parseInputData
    and the four format parsers) and of the option handling of the admin
    controller [import-data.js], followed by the properties of the
    specification that concern them.

    Objects are plain objects: their own properties, and behind them the
    members every object inherits from [Object.prototype].  The inherited
    members count where the code reads a property whose name the request
    chooses, [inputFormatToParser[format]] and [data[idField]]; the other
    reads name a fixed property or an attribute of the schema.  Turning a
    value into text, a number or a date raises on an object that owns a
    [toString] property; the conversions are modelled where the code applies
    them to data, log lines included. *)

From Stdlib Require Import ZArith List String Ascii Bool Lia.
From Stdlib Require Import DecimalString.
Import ListNotations.
Open Scope string_scope.

(** ** JavaScript values *)

(** A JavaScript number other than NaN: an integer (a record identifier, a
    count), or a number that is no integer, kept by its text ("1.5",
    "Infinity"). *)
Inductive number : Type :=
| Int (z : Z)
| Real (text : string).

Coercion Int : Z >-> number.
Bind Scope Z_scope with number.

Definition number_eqb (a b : number) : bool :=
  match a, b with
  | Int x, Int y => Z.eqb x y
  | Real x, Real y => String.eqb x y
  | _, _ => false
  end.

(** The values that travel through the pipeline.  [VUndef] is JavaScript's
    [undefined];
    [VInherited name] is the member [name] of [Object.prototype], the value a
    plain object answers for a property it does not own. *)
#[warnings="-register-all"]
Inductive value : Type :=
| VUndef
| VNull
| VBool (b : bool)
| VNum (n : number)
| VStr (s : string)
| VInherited (name : string)
| VArr (l : list value)
| VObj (o : list (string * value)).

(** A plain object: its own properties, in insertion order. *)
Definition obj : Type := list (string * value).

(** The own property [k] of [o]; [undefined] when [o] has none.  It is
    [o[k]] for a name that [Object.prototype] does not hold. *)
Fixpoint obj_get (o : obj) (k : string) : value :=
  match o with
  | [] => VUndef
  | (k', v) :: o' => if String.eqb k' k then v else obj_get o' k
  end.

(** [k in o] for own properties. *)
Fixpoint obj_has (o : obj) (k : string) : bool :=
  match o with
  | [] => false
  | (k', _) :: o' => if String.eqb k' k then true else obj_has o' k
  end.

(** [o[k] = v]: an existing property keeps its place, a new one goes last. *)
Fixpoint obj_set (o : obj) (k : string) (v : value) : obj :=
  match o with
  | [] => [(k, v)]
  | (k', v') :: o' =>
      if String.eqb k' k then (k', v) :: o' else (k', v') :: obj_set o' k v
  end.

(** [delete o[k]]. *)
Fixpoint obj_delete (o : obj) (k : string) : obj :=
  match o with
  | [] => []
  | (k', v') :: o' =>
      if String.eqb k' k then obj_delete o' k else (k', v') :: obj_delete o' k
  end.

(** JavaScript truthiness (ToBoolean). *)
Definition truthy (v : value) : bool :=
  match v with
  | VUndef | VNull => false
  | VBool b => b
  | VNum (Int z) => negb (Z.eqb z 0)
  | VNum (Real _) => true
  | VStr s => negb (String.eqb s "")
  | VInherited _ | VArr _ | VObj _ => true
  end.

(** [v == null]. *)
Definition nullish (v : value) : bool :=
  match v with
  | VUndef | VNull => true
  | _ => false
  end.

(** [v !== undefined]. *)
Definition defined (v : value) : bool :=
  match v with
  | VUndef => false
  | _ => true
  end.

(** [v === 'text']. *)
Definition is_str (v : value) (s : string) : bool :=
  match v with
  | VStr s' => String.eqb s' s
  | _ => false
  end.

(** [v?.k] for a value that came back from the store. *)
Definition prop (v : value) (k : string) : value :=
  match v with
  | VObj o => obj_get o k
  | _ => VUndef
  end.

(** [a || b]. *)
Definition js_or (a b : value) : value := if truthy a then a else b.

(** [typeof v === 'number']. *)
Definition is_number (v : value) : bool :=
  match v with
  | VNum _ => true
  | _ => false
  end.

(** Decimal text of an array index. *)
Definition index_key (i : nat) : string :=
  NilEmpty.string_of_uint (Nat.to_uint i).

Fixpoint indexed (i : nat) (l : list value) : obj :=
  match l with
  | [] => []
  | v :: l' => (index_key i, v) :: indexed (S i) l'
  end.

Fixpoint chars (s : string) : list value :=
  match s with
  | EmptyString => []
  | String c s' => VStr (String c EmptyString) :: chars s'
  end.

(** The own enumerable properties copied by an object spread [{...v}]. *)
Definition spread (v : value) : obj :=
  match v with
  | VObj o => o
  | VArr l => indexed 0 l
  | VStr s => indexed 0 (chars s)
  | _ => []
  end.

(** The property names of [Object.prototype]: eleven functions and the
    accessor [__proto__], all of them truthy. *)
Definition objectPrototypeNames : list string :=
  ["constructor"; "__defineGetter__"; "__defineSetter__"; "hasOwnProperty";
   "__lookupGetter__"; "__lookupSetter__"; "isPrototypeOf";
   "propertyIsEnumerable"; "toString"; "valueOf"; "__proto__";
   "toLocaleString"].

Definition inherited (k : string) : bool :=
  existsb (String.eqb k) objectPrototypeNames.

(** [o[k]] with the prototype behind the own properties. *)
Definition js_get (o : obj) (k : string) : value :=
  if obj_has o k then obj_get o k
  else if inherited k then VInherited k
  else VUndef.

(** Whether a template literal can turn [v] into text.  An object that owns
    a [toString] property which is no function (decoded data holds no
    function) has no primitive value, and [String(v)] raises a TypeError; an
    array joins the text of its entries. *)
Fixpoint stringifiable (v : value) : bool :=
  match v with
  | VObj o => negb (obj_has o "toString")
  | VArr l => forallb stringifiable l
  | _ => true
  end.

(** Message of the TypeError of a value without primitive value. *)
Definition primitiveErrorMsg : string :=
  "Cannot convert object to primitive value".

(** ** libs/arrays.js and libs/objects.js *)

(** Modelled from the spec: libs/arrays.js is not part of the sources at
    hand; section 4.3 has the input "coerced to a sequence", and the relation
    branch distinguishes "array vs scalar". *)
Definition isArraySafe (v : value) : bool :=
  match v with
  | VArr _ => true
  | _ => false
  end.

Definition toArray (v : value) : list value :=
  match v with
  | VArr l => l
  | _ => [v]
  end.

(** Modelled from the spec: libs/objects.js is not part of the sources at
    hand; section 4.3 speaks of an entry "that is a structured object", and
    section 4.4 of a "lookup filter" built from the identifying field. *)
Definition isObjectSafe (v : value) : bool :=
  match v with
  | VObj _ => true
  | _ => false
  end.

Definition ObjectBuilder_extend (acc ext : obj) : obj :=
  fold_left (fun a kv => obj_set a (fst kv) (snd kv)) ext acc.

(** ** Schema *)

Record Attribute : Type := {
  name : string;
  type : string;
  target : option string;
  component : option string;
  repeatable : bool;
  multiple : bool;
  allowedTypes : option (list string)
}.

Record Model : Type := {
  kind : string;
  draftAndPublish : bool;
  attributes : list Attribute
}.

Definition mem (s : string) (l : list string) : bool :=
  existsb (String.eqb s) l.

Definition relationTypes : list string :=
  ["component"; "dynamiczone"; "media"; "relation"].

(** ** Outcomes, store calls and the world *)

(** What a call produces: a value, a thrown error with its message, or the
    recursion bound of the embedding was reached. *)
Inductive outcome (A : Type) : Type :=
| Ok (a : A)
| Err (msg : string)
| OutOfFuel.
Arguments Ok {A} a.
Arguments Err {A} msg.
Arguments OutOfFuel {A}.

(** What the store (or the file collaborator) answers. *)
Inductive reply (A : Type) : Type :=
| Done (a : A)
| Fail (msg : string).
Arguments Done {A} a.
Arguments Fail {A} msg.

(** The calls issued to the store.  [depth] is the nesting level of the
    [updateOrCreate] call that writes: 0 for a record of the import loop. *)
Inductive StoreCall : Type :=
| CFindOne (slug : string) (query : obj)
| CFindMany (slug : string)
| CCreate (depth : nat) (slug : string) (data : obj)
| CUpdate (depth : nat) (slug : string) (id : value) (data : obj)
| CFile (datum : value) (allowed : list string).

Record User : Type := { user_id : value }.

(** The store of section 6, with the file collaborator. *)
Record Store : Type := {
  St : Type;
  db_findOne : string -> obj -> St -> reply value * St;
  db_findMany : string -> St -> reply (list value) * St;
  db_create : string -> obj -> St -> reply value * St;
  db_update : string -> value -> obj -> St -> reply value * St;
  findOrImportFile : value -> User -> list string -> St -> reply value * St
}.

(** The functions of the platform and of csvtojson that the parsers call, and
    the constant [CustomSlugs.MEDIA] of config/constants.js.  [toNumber] is
    [Number(v)], with [None] for NaN; [parseDate] is [new Date(v)] in ISO
    form, with [None] for an invalid date; [JSON_parse] answers [None] when
    [JSON.parse] raises. *)
Record Platform : Type := {
  getModel : string -> option Model;
  mediaSlug : string;
  JSON_parse : value -> option value;
  JSON_stringify : value -> value;
  csvtojson : value -> reply (list obj);
  parseDate : value -> option string;
  toNumber : value -> option number
}.

(** Nesting depth of a value; it bounds the recursion of [updateOrCreate]. *)
Fixpoint vdepth (v : value) : nat :=
  match v with
  | VArr l => S (fold_right (fun x acc => Nat.max (vdepth x) acc) 0%nat l)
  | VObj o =>
      S (fold_right
           (fun (kv : string * value) acc =>
              Nat.max (let (_, x) := kv in vdepth x) acc)
           0%nat o)
  | _ => 0%nat
  end.

Definition of_reply {A : Type} (r : reply A) : outcome A :=
  match r with
  | Done a => Ok a
  | Fail m => Err m
  end.

(** Message of the TypeError raised when a property of [undefined] is read:
    the model of an unknown slug, or an entry that is not an object. *)
Definition typeErrorMsg : string :=
  "Cannot read properties of undefined".

Section Engine.

Variable DB : Store.
Variable P : Platform.

(** The state of the store and the calls issued so far, newest first. *)
Record World : Type := {
  store : St DB;
  trace : list StoreCall
}.

Definition logged (c : StoreCall) (s : St DB) (w : World) : World :=
  {| store := s; trace := c :: trace w |}.

Definition call_findOne (slug : string) (query : obj) (w : World)
  : reply value * World :=
  let '(r, s) := db_findOne DB slug query (store w) in
  (r, logged (CFindOne slug query) s w).

Definition call_findMany (slug : string) (w : World)
  : reply (list value) * World :=
  let '(r, s) := db_findMany DB slug (store w) in
  (r, logged (CFindMany slug) s w).

Definition call_create (depth : nat) (slug : string) (data : obj) (w : World)
  : reply value * World :=
  let '(r, s) := db_create DB slug data (store w) in
  (r, logged (CCreate depth slug data) s w).

Definition call_update (depth : nat) (slug : string) (id : value) (data : obj)
  (w : World) : reply value * World :=
  let '(r, s) := db_update DB slug id data (store w) in
  (r, logged (CUpdate depth slug id data) s w).

Definition call_file (datum : value) (user : User) (allowed : list string)
  (w : World) : reply value * World :=
  let '(r, s) := findOrImportFile DB datum user allowed (store w) in
  (r, logged (CFile datum allowed) s w).

(** Modelled from the spec: utils/models.js is not part of the sources at
    hand; section 2 has the Schema Introspector return the attribute list of
    a model, here restricted to the types of [filterType]. *)
Definition getModelAttributes (slug : string) (filterType : list string)
  : list Attribute :=
  match getModel P slug with
  | None => []
  | Some m => filter (fun a => mem (type a) filterType) (attributes m)
  end.

(** [model?.options?.draftAndPublish === true]. *)
Definition hasDraftAndPublish (slug : string) : bool :=
  match getModel P slug with
  | Some m => draftAndPublish m
  | None => false
  end.

(** *** updateOrCreateCollectionType *)

(** The three template literals that print a value of the record or of the
    store are kept as the tests [stringifiable]: the literal is evaluated
    before anything else happens on its line. *)
Definition updateOrCreateCollectionType (depth : nat) (slug : string)
  (data : obj) (idField : string) (w : World) : obj * outcome value * World :=
  let whr :=
    if truthy (js_get data idField)
    then ObjectBuilder_extend [] [(idField, js_get data idField)]
    else [] in
  if negb (stringifiable (js_get data idField))
  then (data, Err primitiveErrorMsg, w)
  else
  let data := if String.eqb idField "id" then data else obj_delete data "id" in
  if negb (truthy (js_get whr idField)) then
    let '(r, w1) := call_create depth slug data w in
    (data, of_reply r, w1)
  else
    let '(r, w1) := call_findOne slug whr w in
    match r with
    | Fail m => (data, Err m, w1)
    | Done existingEntry =>
        if truthy existingEntry then
          if negb (stringifiable (prop existingEntry "id"))
          then (data, Err primitiveErrorMsg, w1)
          else
          let '(r2, w2) :=
            call_update depth slug (prop existingEntry "id") data w1 in
          (data, of_reply r2, w2)
        else
          let '(r2, w2) := call_create depth slug data w1 in
          (data, of_reply r2, w2)
    end.

(** *** updateOrCreateSingleType *)

Definition updateOrCreateSingleType (depth : nat) (slug : string)
  (data : obj) (w : World) : obj * outcome value * World :=
  let data := obj_delete data "id" in
  let '(r, w1) := call_findMany slug w in
  match r with
  | Fail m => (data, Err m, w1)
  | Done found =>
      let entry := hd VUndef found in
      if negb (truthy entry) then
        let '(r2, w2) := call_create depth slug data w1 in
        (data, of_reply r2, w2)
      else
        let '(r2, w2) := call_update depth slug (prop entry "id") data w1 in
        (data, of_reply r2, w2)
  end.

(** *** updateOrCreateRelation *)

(** The recursive call [updateOrCreate(user, slug, datum)] as the resolver sees
    it; it returns the datum as the call left it (the call mutates it), what
    the call produced, and the world. *)
Definition upsert : Type :=
  option string -> obj -> World -> obj * outcome value * World.

(** [entryIds?.[0] || null]. *)
Definition firstOrNull (entryIds : list value) : value :=
  js_or (hd VUndef entryIds) VNull.

(** The loop of the component and relation branches.  It returns the entries
    as the loop left them and the identifiers pushed on [entryIds]. *)
Fixpoint resolveEntries (uoc : upsert) (slug : option string)
  (relData : list value) (w : World)
  : list value * outcome (list value) * World :=
  match relData with
  | [] => ([], Ok [], w)
  | relDatum :: rest =>
      match relDatum with
      | VNum _ =>
          let '(rest', r, w') := resolveEntries uoc slug rest w in
          match r with
          | Ok entryIds => (relDatum :: rest', Ok (relDatum :: entryIds), w')
          | _ => (relDatum :: rest', r, w')
          end
      | VObj o =>
          let '(o', r, w1) := uoc slug o w in
          match r with
          | Ok entry =>
              let '(rest', r', w') := resolveEntries uoc slug rest w1 in
              match r' with
              | Ok entryIds =>
                  (VObj o' :: rest',
                   Ok (if truthy (prop entry "id")
                       then prop entry "id" :: entryIds else entryIds), w')
              | _ => (VObj o' :: rest', r', w')
              end
          | Err m => (VObj o' :: rest, Err m, w1)
          | OutOfFuel => (VObj o' :: rest, OutOfFuel, w1)
          end
      | _ =>
          let '(rest', r, w') := resolveEntries uoc slug rest w in
          (relDatum :: rest', r, w')
      end
  end.

(** The slug a dynamic-zone entry names in [__component]. *)
Definition slug_of (v : value) : option string :=
  match v with
  | VStr s => Some s
  | _ => None
  end.

(** The loop of the dynamic-zone branch. *)
Fixpoint resolveZone (uoc : upsert) (relData : list value) (w : World)
  : list value * outcome (list value) * World :=
  match relData with
  | [] => ([], Ok [], w)
  | componentDatum :: rest =>
      match componentDatum with
      | VObj o =>
          let '(o', r, w1) := uoc (slug_of (obj_get o "__component")) o w in
          match r with
          | Ok entry =>
              let component :=
                VObj (obj_set (spread entry) "__component"
                        (obj_get o' "__component")) in
              let '(rest', r', w') := resolveZone uoc rest w1 in
              match r' with
              | Ok components => (VObj o' :: rest', Ok (component :: components), w')
              | _ => (VObj o' :: rest', r', w')
              end
          | Err m => (VObj o' :: rest, Err m, w1)
          | OutOfFuel => (VObj o' :: rest, OutOfFuel, w1)
          end
      | _ => (componentDatum :: rest, Err typeErrorMsg, w)
      end
  end.

(** What [for (const x of relData || [])] iterates over; [None] when the
    value is not iterable. *)
Definition zone_entries (relData : value) : option (list value) :=
  match relData with
  | VArr l => Some l
  | VStr s => Some (chars s)
  | _ => if truthy relData then None else Some []
  end.

(** The loop of the media branch. *)
Fixpoint resolveMedia (user : User) (allowed : list string)
  (relData : list value) (w : World) : outcome (list value) * World :=
  match relData with
  | [] => (Ok [], w)
  | relDatum :: rest =>
      let '(r, w1) := call_file relDatum user allowed w in
      match r with
      | Fail m => (Err m, w1)
      | Done media =>
          let '(r', w') := resolveMedia user allowed rest w1 in
          match r' with
          | Ok entryIds =>
              (Ok (if truthy (prop media "id")
                   then prop media "id" :: entryIds else entryIds), w')
          | _ => (r', w')
          end
      end
  end.

(** The input of a branch once its loop went over [processed] and left
    [untouched] alone: same array, or same single value. *)
Definition reassemble (relData : value) (processed untouched : list value)
  : value :=
  match relData with
  | VArr _ => VArr (processed ++ untouched)
  | _ => hd relData processed
  end.

Definition outcome_map {A B : Type} (f : A -> B) (r : outcome A) : outcome B :=
  match r with
  | Ok a => Ok (f a)
  | Err m => Err m
  | OutOfFuel => OutOfFuel
  end.

Definition unsupportedRelation (t : string) : string :=
  "Could not update or create relation of type " ++ t ++ ".".

Definition updateOrCreateRelation (uoc : upsert) (user : User)
  (rel : Attribute) (relData : value) (w : World)
  : value * outcome value * World :=
  if nullish relData then (relData, Ok VNull, w)
  else if mem (name rel) ["createdBy"; "updatedBy"] then
    (relData, Ok (user_id user), w)
  else if String.eqb (type rel) "dynamiczone" then
    match zone_entries relData with
    | None => (relData, Err typeErrorMsg, w)
    | Some entries =>
        let '(entries', r, w') := resolveZone uoc entries w in
        (reassemble relData entries' [], outcome_map VArr r, w')
    end
  else if String.eqb (type rel) "component" then
    let all := toArray relData in
    let entries := if repeatable rel then all else firstn 1 all in
    let '(entries', r, w') := resolveEntries uoc (component rel) entries w in
    (reassemble relData entries' (skipn (List.length entries) all),
     outcome_map
       (fun entryIds =>
          if repeatable rel then VArr entryIds else firstOrNull entryIds) r,
     w')
  else if String.eqb (type rel) "media" then
    let all := toArray relData in
    let entries := if multiple rel then all else firstn 1 all in
    let allowed :=
      match allowedTypes rel with Some l => l | None => ["any"] end in
    let '(r, w') := resolveMedia user allowed entries w in
    (relData,
     outcome_map
       (fun entryIds =>
          if multiple rel then VArr entryIds else firstOrNull entryIds) r,
     w')
  else if String.eqb (type rel) "relation" then
    let isMultiple := isArraySafe relData in
    let '(entries', r, w') :=
      resolveEntries uoc (target rel) (toArray relData) w in
    (reassemble relData entries' [],
     outcome_map
       (fun entryIds =>
          if isMultiple then VArr entryIds else firstOrNull entryIds) r,
     w')
  else (relData, Err (unsupportedRelation (type rel)), w).

(** *** updateOrCreate *)

(** The loop over the relational attributes of the model:
    [data[attribute.name] = await updateOrCreateRelation(...)]. *)
Fixpoint resolveAttributes
  (resolve : Attribute -> value -> World -> value * outcome value * World)
  (attrs : list Attribute) (data : obj) (w : World)
  : obj * outcome unit * World :=
  match attrs with
  | [] => (data, Ok tt, w)
  | attribute :: rest =>
      let '(relData', r, w1) :=
        resolve attribute (obj_get data (name attribute)) w in
      match r with
      | Ok v => resolveAttributes resolve rest (obj_set data (name attribute) v) w1
      | Err m =>
          ((if obj_has data (name attribute)
            then obj_set data (name attribute) relData' else data), Err m, w1)
      | OutOfFuel =>
          ((if obj_has data (name attribute)
            then obj_set data (name attribute) relData' else data),
           OutOfFuel, w1)
      end
  end.

Fixpoint updateOrCreate (fuel depth : nat) (user : User) (slug : string)
  (data : obj) (idField : option string) (w : World)
  : obj * outcome value * World :=
  match fuel with
  | O => (data, OutOfFuel, w)
  | S fuel' =>
      let idField := match idField with Some f => f | None => "id" end in
      let uoc : upsert := fun s d w' =>
        match s with
        | Some s' => updateOrCreate fuel' (S depth) user s' d None w'
        | None => (d, Err typeErrorMsg, w')
        end in
      let relationAttributes := getModelAttributes slug relationTypes in
      let '(data1, r, w1) :=
        resolveAttributes (updateOrCreateRelation uoc user)
          relationAttributes data w in
      match r with
      | Ok _ =>
          match getModel P slug with
          | None => (data1, Err typeErrorMsg, w1)
          | Some model =>
              if String.eqb (kind model) "singleType"
              then updateOrCreateSingleType depth slug data1 w1
              else updateOrCreateCollectionType depth slug data1 idField w1
          end
      | Err m => (data1, Err m, w1)
      | OutOfFuel => (data1, OutOfFuel, w1)
      end
  end.

(** *** importOtherSlug and importMedia *)

(** An entry of the [processed] array. *)
Record Processed : Type := {
  success : bool;
  p_error : string;
  args : list value
}.

(** An entry of [failures]. *)
Record Failure : Type := {
  error : string;
  data : value
}.

Definition failuresOf (processed : list Processed) : list Failure :=
  map (fun f => {| error := p_error f; data := hd VUndef (args f) |})
    (filter (fun p => negb (success p)) processed).

(** What the first line of the [try] block prints for a record:
    [datum[idField] || datum.name || datum.id || 'unknown'], where a missing
    [idField] reads the property named "undefined". *)
Definition itemLabel (datum : obj) (idField : option string) : value :=
  js_or (js_get datum (match idField with Some f => f | None => "undefined" end))
    (js_or (obj_get datum "name") (js_or (obj_get datum "id") (VStr "unknown"))).

(** The body of the [try] block of [importOtherSlug] for one record.  The
    recursion of [updateOrCreate] follows the nesting of the record, so the
    depth of the record bounds it. *)
Definition importRecord (slug : string) (user : User)
  (idField : option string) (hasDP : bool) (datum : obj) (w : World)
  : obj * outcome value * World :=
  if negb (stringifiable (itemLabel datum idField))
  then (datum, Err primitiveErrorMsg, w)
  else
  let datum :=
    if negb hasDP && defined (obj_get datum "publishedAt")
    then obj_delete datum "publishedAt" else datum in
  updateOrCreate (vdepth (VObj datum)) 0 user slug datum idField w.

Fixpoint importLoop (slug : string) (user : User) (idField : option string)
  (hasDP : bool) (records : list obj) (w : World)
  : outcome (list Processed) * World :=
  match records with
  | [] => (Ok [], w)
  | datum :: rest =>
      let '(datum', r, w1) := importRecord slug user idField hasDP datum w in
      match r with
      | OutOfFuel => (OutOfFuel, w1)
      | Ok _ =>
          let '(r', w') := importLoop slug user idField hasDP rest w1 in
          (outcome_map
             (cons {| success := true; p_error := ""; args := [] |}) r', w')
      | Err m =>
          let '(r', w') := importLoop slug user idField hasDP rest w1 in
          (outcome_map
             (cons {| success := false; p_error := m;
                      args := [VObj datum'] |}) r', w')
      end
  end.

Definition importOtherSlug (records : list obj) (slug : string) (user : User)
  (idField : option string) (hasDP importAsDrafts : bool) (w : World)
  : outcome (list Failure) * World :=
  let '(r, w') := importLoop slug user idField hasDP records w in
  (outcome_map failuresOf r, w').

Fixpoint mediaLoop (user : User) (fileData : list value) (w : World)
  : list Processed * World :=
  match fileData with
  | [] => ([], w)
  | fileDatum :: rest =>
      let '(r, w1) := call_file fileDatum user ["any"] w in
      let res :=
        match r with
        | Done _ => {| success := true; p_error := ""; args := [] |}
        | Fail m => {| success := false; p_error := m; args := [fileDatum] |}
        end in
      let '(processed, w') := mediaLoop user rest w1 in
      (res :: processed, w')
  end.

Definition importMedia (fileData : list value) (user : User) (w : World)
  : outcome (list Failure) * World :=
  let '(processed, w') := mediaLoop user fileData w in
  (Ok (failuresOf processed), w').

(** *** parsers.js *)

Definition relationNames (slug : string) : list string :=
  map name (getModelAttributes slug relationTypes).
Definition dateTimeFields (slug : string) : list string :=
  map name (getModelAttributes slug ["datetime"; "date"; "time"]).
Definition booleanFields (slug : string) : list string :=
  map name (getModelAttributes slug ["boolean"]).
Definition numberFields (slug : string) : list string :=
  map name (getModelAttributes slug ["integer"; "biginteger"; "float"; "decimal"]).

Definition csvRelation (datum : obj) (name : string) : obj :=
  let c := obj_get datum name in
  if truthy c && negb (is_str c "") && negb (is_str c "null")
     && negb (is_str c "undefined")
  then match JSON_parse P c with
       | Some v => obj_set datum name v
       | None => obj_set datum name VNull
       end
  else obj_set datum name VNull.

Definition csvDate (datum : obj) (name : string) : obj :=
  let c := obj_get datum name in
  if truthy c && negb (is_str c "null") && negb (is_str c "")
  then match parseDate P c with
       | Some iso => obj_set datum name (VStr iso)
       | None => datum
       end
  else if is_str c "null" || is_str c "" then obj_set datum name VNull
  else datum.

Definition is_bool (v : value) (b : bool) : bool :=
  match v with
  | VBool b' => Bool.eqb b' b
  | _ => false
  end.

Definition csvBoolean (datum : obj) (name : string) : obj :=
  let c := obj_get datum name in
  if defined c then
    if is_str c "true" || is_str c "1" || is_bool c true
    then obj_set datum name (VBool true)
    else if is_str c "false" || is_str c "0" || is_bool c false
    then obj_set datum name (VBool false)
    else if is_str c "null" || is_str c "" then obj_set datum name VNull
    else datum
  else datum.

Definition csvNumber (datum : obj) (name : string) : obj :=
  let c := obj_get datum name in
  if defined c && negb (is_str c "") && negb (is_str c "null")
  then match toNumber P c with
       | Some n => obj_set datum name (VNum n)
       | None => obj_set datum name VNull
       end
  else if is_str c "null" || is_str c "" then obj_set datum name VNull
  else datum.

(** [Number(datum[name])] raises on a cell without primitive value. *)
Definition numberRaises (datum : obj) (name : string) : bool :=
  let c := obj_get datum name in
  defined c && negb (is_str c "") && negb (is_str c "null")
  && negb (stringifiable c).

(** Whether the loop over the number fields raises: at some field, on the
    row as the loop left it so far. *)
Fixpoint numberLoopRaises (names : list string) (datum : obj) : bool :=
  match names with
  | [] => false
  | name :: rest =>
      numberRaises datum name || numberLoopRaises rest (csvNumber datum name)
  end.

(** Whether the function mapped over the rows raises on a row; the number
    loop is the one place where it can, the other conversions are caught. *)
Definition csvRowRaises (slug : string) (datum : obj) : bool :=
  let datum := fold_left csvRelation (relationNames slug) datum in
  let datum := fold_left csvDate (dateTimeFields slug) datum in
  let datum := fold_left csvBoolean (booleanFields slug) datum in
  numberLoopRaises (numberFields slug) datum.

(** The function mapped over the rows by [parseCsv], on a row on which it
    does not raise. *)
Definition parseCsvRow (slug : string) (importAsDrafts : bool) (datum : obj)
  : obj :=
  let datum := fold_left csvRelation (relationNames slug) datum in
  let datum := fold_left csvDate (dateTimeFields slug) datum in
  let datum := fold_left csvBoolean (booleanFields slug) datum in
  let datum := fold_left csvNumber (numberFields slug) datum in
  if hasDraftAndPublish slug && importAsDrafts
  then obj_set datum "publishedAt" VNull
  else if negb (hasDraftAndPublish slug) && defined (obj_get datum "publishedAt")
  then obj_delete datum "publishedAt"
  else datum.

Definition dflt (o : option bool) : bool :=
  match o with
  | Some b => b
  | None => true
  end.

Definition parseCsv (dataRaw : value) (slug : string)
  (importAsDrafts : option bool) : outcome value :=
  let importAsDrafts := dflt importAsDrafts in
  match csvtojson P dataRaw with
  | Fail m => Err m
  | Done rows =>
      if existsb (csvRowRaises slug) rows then Err primitiveErrorMsg
      else
        Ok (VArr (map (fun d => VObj (parseCsvRow slug importAsDrafts d)) rows))
  end.

Definition syntaxErrorMsg : string := "Unexpected token in JSON".

(** [const { publishedAt, ...rest } = item] *)
Definition restWithoutPublishedAt (item : value) : outcome value :=
  if nullish item then Err typeErrorMsg
  else Ok (VObj (obj_delete (spread item) "publishedAt")).

Fixpoint mapOutcome (f : value -> outcome value) (l : list value)
  : outcome (list value) :=
  match l with
  | [] => Ok []
  | x :: l' =>
      match f x with
      | Ok y => outcome_map (cons y) (mapOutcome f l')
      | Err m => Err m
      | OutOfFuel => OutOfFuel
      end
  end.

Definition parseJson (dataRaw : value) (slug : string)
  (importAsDrafts : option bool) : outcome value :=
  let importAsDrafts := dflt importAsDrafts in
  match JSON_parse P dataRaw with
  | None => Err syntaxErrorMsg
  | Some data =>
      if hasDraftAndPublish slug && importAsDrafts then
        match data with
        | VArr l =>
            Ok (VArr (map (fun item =>
                             VObj (obj_set (spread item) "publishedAt" VNull)) l))
        | VObj o => Ok (VObj (obj_set o "publishedAt" VNull))
        | VNull => Err typeErrorMsg
        | _ => Ok data
        end
      else if negb (hasDraftAndPublish slug) then
        match data with
        | VArr l => outcome_map VArr (mapOutcome restWithoutPublishedAt l)
        | VObj o =>
            Ok (if defined (obj_get o "publishedAt")
                then VObj (obj_delete o "publishedAt") else data)
        | VNull => Err typeErrorMsg
        | _ => Ok data
        end
      else Ok data
  end.

Definition parseJso (dataRaw : value) : outcome value :=
  if negb (isObjectSafe dataRaw) && negb (isArraySafe dataRaw)
  then Err "To import JSO, data must be an array or an object"
  else Ok dataRaw.

(** The function mapped over the rows by [parsePostgresJson].  [new Date]
    and the log line that prints the row's name raise on a value without
    primitive value; the [catch] of the row raises again. *)
Definition transformPostgres (hasDP importAsDrafts : bool) (item : value)
  : outcome value :=
  if nullish item then Err typeErrorMsg
  else
    let transformed :=
      [("name", prop item "name");
       ("configuration",
        match prop item "configuration" with
        | VStr c => VStr c
        | c => JSON_stringify P c
        end);
       ("version", js_or (prop item "version") (VStr "main"))] in
    let dated : outcome obj :=
      if hasDP then
        if importAsDrafts then Ok (obj_set transformed "publishedAt" VNull)
        else if defined (prop item "published_at") then
          match prop item "published_at" with
          | VNull => Ok (obj_set transformed "publishedAt" VNull)
          | d =>
              if negb (stringifiable d) then Err primitiveErrorMsg
              else match parseDate P d with
                   | Some iso =>
                       Ok (obj_set transformed "publishedAt" (VStr iso))
                   | None => Ok transformed
                   end
          end
        else Ok transformed
      else Ok transformed in
    match dated with
    | Ok o =>
        if negb (stringifiable (prop item "name")) then Err primitiveErrorMsg
        else Ok (VObj o)
    | Err m => Err m
    | OutOfFuel => OutOfFuel
    end.

Definition parsePostgresJson (dataRaw : value) (slug : string)
  (importAsDrafts : option bool) : outcome value :=
  let importAsDrafts := dflt importAsDrafts in
  let wrap (r : outcome value) : outcome value :=
    match r with
    | Err m => Err ("Failed to parse PostgreSQL JSON: " ++ m)
    | _ => r
    end in
  wrap
    match JSON_parse P dataRaw with
    | None => Err syntaxErrorMsg
    | Some data =>
        let rows := if isArraySafe data then toArray data else [data] in
        outcome_map VArr
          (mapOutcome
             (transformPostgres (hasDraftAndPublish slug) importAsDrafts) rows)
    end.

(** What the table answers: one of its four parsers, or a member it
    inherits from [Object.prototype]. *)
Inductive Parser : Type :=
| PCsv | PJso | PJson | PPostgres
| PInherited (name : string).

(** [inputFormatToParser[format]]; the table is a plain object, so a name it
    does not declare is looked up in [Object.prototype]. *)
Definition inputFormatToParser (format : string) : option Parser :=
  if String.eqb format "csv" then Some PCsv
  else if String.eqb format "jso" then Some PJso
  else if String.eqb format "json" then Some PJson
  else if String.eqb format "postgres" then Some PPostgres
  else if inherited format then Some (PInherited format)
  else None.

(** [Object(v)]: an object or array is returned as it is, a primitive is
    wrapped.  A wrapper is kept by its own enumerable properties: the
    characters of a string, nothing for a number or a boolean. *)
Definition toObject (v : value) : value :=
  match v with
  | VObj _ | VArr _ | VInherited _ => v
  | _ => VObj (spread v)
  end.

Definition notCallableMsg : string := "parser is not a function".
Definition nullThisMsg : string :=
  "Cannot convert undefined or null to object".

(** [parser(dataRaw, options)] for an inherited member.  The call passes no
    receiver and the module is strict, so [this] is [undefined]:
    [constructor] is [Object], which ignores it; [toString] answers the tag of
    [undefined]; [isPrototypeOf] answers [false] for a primitive argument
    before it looks at the receiver; the other functions raise on the
    receiver, and [__proto__] is no function. *)
Definition callInherited (name : string) (dataRaw : value) : outcome value :=
  if String.eqb name "constructor" then Ok (toObject dataRaw)
  else if String.eqb name "toString" then Ok (VStr "[object Undefined]")
  else if String.eqb name "isPrototypeOf" then
    match dataRaw with
    | VObj _ | VArr _ | VInherited _ => Err nullThisMsg
    | _ => Ok (VBool false)
    end
  else if String.eqb name "__proto__" then Err notCallableMsg
  else Err nullThisMsg.

Definition InputFormats : list string := ["csv"; "jso"; "json"; "postgres"].

Definition unsupportedFormat (format : string) : string :=
  "Data input format " ++ format ++ " is not supported.".

Definition parseInputData (format : string) (dataRaw : value) (slug : string)
  (importAsDrafts : option bool) : outcome value :=
  let importAsDrafts := dflt importAsDrafts in
  match inputFormatToParser format with
  | None => Err (unsupportedFormat format)
  | Some PCsv => parseCsv dataRaw slug (Some importAsDrafts)
  | Some PJso => parseJso dataRaw
  | Some PJson => parseJson dataRaw slug (Some importAsDrafts)
  | Some PPostgres => parsePostgresJson dataRaw slug (Some importAsDrafts)
  | Some (PInherited name) => callInherited name dataRaw
  end.

(** *** importData *)

(** The records of the import loop; [None] when an entry is not an object,
    which the declared input type [Array<Object>] excludes. *)
Fixpoint records_of (l : list value) : option (list obj) :=
  match l with
  | [] => Some []
  | VObj o :: l' => option_map (cons o) (records_of l')
  | _ => None
  end.

Definition importData (dataRaw : value) (slug format : string) (user : User)
  (idField : option string) (importAsDrafts : option bool) (w : World)
  : option (outcome (list Failure) * World) :=
  let importAsDrafts := dflt importAsDrafts in
  let hasDP := hasDraftAndPublish slug in
  let parsed :=
    if String.eqb format "jso" then Ok dataRaw
    else
      let shouldApplyDraftMode := if hasDP then importAsDrafts else false in
      parseInputData format dataRaw slug (Some shouldApplyDraftMode) in
  match parsed with
  | Err m => Some (Err m, w)
  | OutOfFuel => Some (OutOfFuel, w)
  | Ok data =>
      let data := toArray data in
      if String.eqb slug (mediaSlug P) then Some (importMedia data user w)
      else
        match records_of data with
        | Some records =>
            Some (importOtherSlug records slug user idField hasDP
                    importAsDrafts w)
        | None => None
        end
  end.

(** *** The admin controller, import-data.js *)

Record Body : Type := {
  b_slug : string;
  b_data : value;
  b_format : string;
  b_fileType : option string;
  b_idField : option string;
  b_importAsDrafts : option bool
}.

(** The service entry for the versioned envelope; its source is not at hand
    and no property below depends on what it does. *)
Variable importDataV2 :
  value -> string -> User -> option string -> bool -> World ->
  option (outcome (list Failure) * World).

Definition is_some_str (o : option string) (s : string) : bool :=
  match o with
  | Some s' => String.eqb s' s
  | None => false
  end.

Definition is_num (v : value) (n : Z) : bool :=
  match v with
  | VNum n' => number_eqb n' n
  | _ => false
  end.

(** The log lines on the parsed content: the keys of the first item, the
    names of the first and of the second; [None] when they print. *)
Definition sampleLog (fileContent : value) : option string :=
  match fileContent with
  | VArr (first :: rest) =>
      if nullish first then Some nullThisMsg
      else if negb (stringifiable (prop first "name"))
      then Some primitiveErrorMsg
      else
        match rest with
        | second :: _ =>
            if nullish second then Some typeErrorMsg
            else if negb (stringifiable (prop second "name"))
            then Some primitiveErrorMsg
            else None
        | [] => None
        end
  | _ => None
  end.

(** The controller once [hasPermissions] has let the request through. *)
Definition controller (user : User) (body : Body) (w : World)
  : option (outcome (list Failure) * World) :=
  let importAsDrafts := dflt (b_importAsDrafts body) in
  let actualFormat :=
    if is_some_str (b_fileType body) "postgres" then "postgres"
    else if is_some_str (b_fileType body) "csv" then "csv"
    else if is_some_str (b_fileType body) "strapi"
            && String.eqb (b_format body) "json" then "json"
    else b_format body in
  match parseInputData actualFormat (b_data body) (b_slug body)
          (Some importAsDrafts) with
  | Err m => Some (Err m, w)
  | OutOfFuel => Some (OutOfFuel, w)
  | Ok fileContent =>
      match sampleLog fileContent with
      | Some m => Some (Err m, w)
      | None =>
          if is_num (prop fileContent "version") 2 then
            importDataV2 fileContent (b_slug body) user (b_idField body)
              importAsDrafts w
          else if String.eqb actualFormat "postgres" then
            importData fileContent (b_slug body) "jso" user (b_idField body)
              (Some importAsDrafts) w
          else
            importData (b_data body) (b_slug body) actualFormat user
              (b_idField body) (Some importAsDrafts) w
      end
  end.

End Engine.

Arguments trace {DB} w.
Arguments store {DB} w.
Arguments logged {DB}.
Arguments call_findOne {DB}.
Arguments call_findMany {DB}.
Arguments call_create {DB}.
Arguments call_update {DB}.
Arguments call_file {DB}.
Arguments updateOrCreateCollectionType {DB}.
Arguments updateOrCreateSingleType {DB}.
Arguments resolveEntries {DB}.
Arguments resolveZone {DB}.
Arguments resolveMedia {DB}.
Arguments updateOrCreateRelation {DB}.
Arguments resolveAttributes {DB}.
Arguments updateOrCreate {DB}.
Arguments importRecord {DB}.
Arguments importLoop {DB}.
Arguments importOtherSlug {DB}.
Arguments mediaLoop {DB}.
Arguments importMedia {DB}.
Arguments importData {DB}.
Arguments controller {DB}.

(** ** A reference store and schema

    A small in-memory store and a schema with a draft/publish collection
    ("article"), a plain collection ("author"), a single type ("home") and a
    component ("seo"); the concrete runs below use them. *)
Module Sample.

Definition scalar_eqb (a b : value) : bool :=
  match a, b with
  | VNull, VNull => true
  | VBool x, VBool y => Bool.eqb x y
  | VNum x, VNum y => number_eqb x y
  | VStr x, VStr y => String.eqb x y
  | _, _ => false
  end.

(** The rows of every model, oldest first, and the next identifier. *)
Record Mem : Type := {
  rows : list (string * obj);
  next : Z
}.

Definition matches (slug : string) (query : obj) (row : string * obj) : bool :=
  String.eqb (fst row) slug
  && forallb (fun kv => scalar_eqb (obj_get (snd row) (fst kv)) (snd kv)) query.

Definition findOne (slug : string) (query : obj) (m : Mem)
  : reply value * Mem :=
  match find (matches slug query) (rows m) with
  | Some row => (Done (VObj (snd row)), m)
  | None => (Done VNull, m)
  end.

Definition findMany (slug : string) (m : Mem) : reply (list value) * Mem :=
  (Done (map (fun row => VObj (snd row))
           (filter (fun row => String.eqb (fst row) slug) (rows m))), m).

(** A record without a name violates a constraint of the store. *)
Definition create (slug : string) (d : obj) (m : Mem) : reply value * Mem :=
  if truthy (obj_get d "name") then
    let row := obj_set d "id" (VNum (next m)) in
    (Done (VObj row),
     {| rows := rows m ++ [(slug, row)]; next := next m + 1 |})
  else (Fail "name must be defined", m).

Definition merge (old new : obj) : obj :=
  fold_left (fun a kv => obj_set a (fst kv) (snd kv)) new old.

Definition update (slug : string) (id : value) (d : obj) (m : Mem)
  : reply value * Mem :=
  match find (matches slug [("id", id)]) (rows m) with
  | Some row =>
      let row' := merge (snd row) d in
      (Done (VObj row'),
       {| rows := map (fun r => if matches slug [("id", id)] r
                                then (slug, row') else r) (rows m);
          next := next m |})
  | None => (Done VNull, m)
  end.

Definition importFile (datum : value) (u : User) (allowed : list string)
  (m : Mem) : reply value * Mem :=
  (Done (VObj [("id", VNum 900)]), m).

Definition mem_store : Store := {|
  St := Mem;
  db_findOne := findOne;
  db_findMany := findMany;
  db_create := create;
  db_update := update;
  findOrImportFile := importFile
|}.

Definition attr (n t : string) (tgt : option string) (rep : bool) : Attribute :=
  {| name := n; type := t; target := tgt; component := tgt;
     repeatable := rep; multiple := rep; allowedTypes := None |}.

Definition article : Model := {|
  kind := "collectionType";
  draftAndPublish := true;
  attributes :=
    [attr "name" "string" None false;
     attr "author" "relation" (Some "author") false;
     attr "editors" "relation" (Some "author") true;
     attr "related" "relation" (Some "article") false;
     attr "createdBy" "relation" (Some "admin") false;
     attr "seo" "component" (Some "seo") false;
     attr "views" "integer" None false]
|}.

Definition author : Model := {|
  kind := "collectionType";
  draftAndPublish := false;
  attributes := [attr "name" "string" None false;
                 attr "friend" "relation" (Some "author") false]
|}.

Definition home : Model := {|
  kind := "singleType";
  draftAndPublish := false;
  attributes := [attr "name" "string" None false]
|}.

Definition seo : Model := {|
  kind := "collectionType";
  draftAndPublish := false;
  attributes := [attr "name" "string" None false]
|}.

Definition models (slug : string) : option Model :=
  if String.eqb slug "article" then Some article
  else if String.eqb slug "author" then Some author
  else if String.eqb slug "home" then Some home
  else if String.eqb slug "seo" then Some seo
  else None.

(** The JSON texts the runs below decode. *)
Definition json_nested : value :=
  VArr [VObj [("name", VStr "a");
              ("related", VObj [("name", VStr "n");
                                ("publishedAt", VStr "2020-01-01")])]].

Definition json_friend : value :=
  VArr [VObj [("name", VStr "a");
              ("friend", VObj [("name", VStr "n");
                               ("publishedAt", VStr "2020-01-01")])]].

Definition decode (v : value) : option value :=
  if is_str v "[1,2]" then Some (VArr [VNum 1; VNum 2])
  else if is_str v "nested" then Some json_nested
  else if is_str v "friend" then Some json_friend
  else None.

Definition platform : Platform := {|
  getModel := models;
  mediaSlug := "media";
  JSON_parse := decode;
  JSON_stringify := fun v => v;
  csvtojson := fun _ => Done [[("name", VStr "a"); ("author", VStr "{oops")]];
  parseDate := fun _ => None;
  toNumber := fun v =>
    match v with VNum n => Some n | VNull => Some (Int 0) | _ => None end
|}.

Definition empty : World mem_store := {|
  store := ({| rows := []; next := 1 |} : St mem_store);
  trace := []
|}.

Definition admin : User := {| user_id := VNum 7 |}.

(** A store that already holds one author. *)
Definition seeded : World mem_store := {|
  store := ({| rows := [("author", [("name", VStr "n"); ("id", VNum 1)])];
               next := 2 |} : St mem_store);
  trace := []
|}.

(** The nested upsert of a record of the import loop. *)
Definition nested : upsert mem_store :=
  fun s d w =>
    match s with
    | Some s' => updateOrCreate platform 4 1 admin s' d None w
    | None => (d, Err typeErrorMsg, w)
    end.

(** No versioned envelope reaches the runs below. *)
Definition noV2 (fileContent : value) (slug : string) (u : User)
  (idField : option string) (importAsDrafts : bool) (w : World mem_store)
  : option (outcome (list Failure) * World mem_store) := None.

Definition published : value :=
  VArr [VObj [("name", VStr "a"); ("publishedAt", VStr "2020-01-01")]].

(** Three authors; the second one has no name and the store rejects it. *)
Definition three : list obj :=
  [[("name", VStr "a")];
   [("title", VStr "b"); ("publishedAt", VStr "2020-01-01")];
   [("name", VStr "c")]].

Definition createdBy : Attribute := attr "createdBy" "relation" (Some "admin") false.
Definition editors : Attribute := attr "editors" "relation" (Some "author") true.

End Sample.

(** ** What the specification says, in its own words *)

(** The number of entities a sequence of store calls creates. *)
Fixpoint count_creates (calls : list StoreCall) : nat :=
  match calls with
  | [] => 0
  | CCreate _ _ _ :: rest => S (count_creates rest)
  | _ :: rest => count_creates rest
  end.

(** The identifier an upserted entry contributes, if it has one. *)
Definition id_of (entry : value) : list value :=
  if truthy (prop entry "id") then [prop entry "id"] else [].

(** Section 4.3, relation and component: "entries that are bare numbers are
    kept; structured-object entries recurse into upsert"; anything else
    contributes nothing.  [Resolved uoc slug l w ids w'] reads: resolving the
    entries [l] from the world [w] yields the identifiers [ids] and leaves the
    world [w']. *)
Inductive Resolved {DB : Store} (uoc : upsert DB) (slug : option string)
  : list value -> World DB -> list value -> World DB -> Prop :=
| Resolved_nil : forall w, Resolved uoc slug [] w [] w
| Resolved_num : forall n rest w ids w',
    Resolved uoc slug rest w ids w' ->
    Resolved uoc slug (VNum n :: rest) w (VNum n :: ids) w'
| Resolved_obj : forall o o' entry rest w w1 ids w',
    uoc slug o w = (o', Ok entry, w1) ->
    Resolved uoc slug rest w1 ids w' ->
    Resolved uoc slug (VObj o :: rest) w (id_of entry ++ ids) w'
| Resolved_skip : forall x rest w ids w',
    is_number x = false -> isObjectSafe x = false ->
    Resolved uoc slug rest w ids w' ->
    Resolved uoc slug (x :: rest) w ids w'.

(** The shape the relation branch gives its result: the input's. *)
Definition shaped (relData : value) (ids : list value) : value :=
  if isArraySafe relData then VArr ids else firstOrNull ids.

(** The two audit-actor fields. *)
Definition auditFields : list string := ["createdBy"; "updatedBy"].


(** [extends Q w w']: the world [w'] has the calls of [w] and, before them,
    new calls that all satisfy [Q]. *)
Definition extends {DB : Store} (Q : StoreCall -> Prop) (w w' : World DB)
  : Prop :=
  exists delta, trace w' = (delta ++ trace w)%list /\ Forall Q delta.

(** A predicate on calls that only constrains the writes. *)
Definition reads_free (Q : StoreCall -> Prop) : Prop :=
  (forall slug q, Q (CFindOne slug q)) /\
  (forall slug, Q (CFindMany slug)) /\
  (forall d a, Q (CFile d a)).

(** What a nested upsert adds satisfies [Q]. *)
Definition upsert_extends {DB : Store} (Q : StoreCall -> Prop)
  (uoc : upsert DB) : Prop :=
  forall s o w d r w', uoc s o w = (d, r, w') -> extends Q w w'.

(** The writes of a call are at its nesting level or below it. *)
Definition deeper (depth : nat) (c : StoreCall) : Prop :=
  match c with
  | CCreate d _ _ | CUpdate d _ _ _ => (depth <= d)%nat
  | _ => True
  end.

(** Every record of the import loop is written with data that satisfy [R];
    the writes of nested upserts are left unconstrained. *)
Definition top_writes (R : obj -> Prop) (c : StoreCall) : Prop :=
  match c with
  | CCreate O _ d | CUpdate O _ _ d => R d
  | _ => True
  end.

(** The attribute names of a model are the keys of an object: distinct. *)
Definition wf_schema (P : Platform) : Prop :=
  forall slug m, getModel P slug = Some m -> NoDup (map name (attributes m)).

Definition finishes {A : Type} (r : outcome A) : Prop := r <> OutOfFuel.

(** [uoc] finishes on every object of depth at most [n]. *)
Definition upsert_finishes {DB : Store} (uoc : upsert DB) (n : nat) : Prop :=
  forall s o w, (vdepth (VObj o) <= n)%nat -> finishes (snd (fst (uoc s o w))).

(** Section 4.5 in its own words: every record is attempted, in order, each
    from the world its predecessor left, whether that one failed or not.
    [attempts] lists, per record, the record as the attempt left it and what
    the attempt produced. *)
Fixpoint attempts {DB : Store} (P : Platform) (slug : string) (user : User)
  (idField : option string) (hasDP : bool) (records : list obj)
  (w : World DB) : list (obj * outcome value) * World DB :=
  match records with
  | [] => ([], w)
  | datum :: rest =>
      let '(datum', r, w1) := importRecord P slug user idField hasDP datum w in
      let '(rs, w') := attempts P slug user idField hasDP rest w1 in
      ((datum', r) :: rs, w')
  end.

(** One failure entry [{error, data}] per attempt that raised, none for the
    others. *)
Definition failureEntries (rs : list (obj * outcome value)) : list Failure :=
  flat_map
    (fun dr =>
       match snd dr with
       | Err m => [{| error := m; data := VObj (fst dr) |}]
       | _ => []
       end) rs.




(** The record was decoded from JSON or from text at this field: it does
    not carry the key with the value [undefined]. *)
Definition json_field (k : string) (o : obj) : bool :=
  negb (obj_has o k) || defined (obj_get o k).

(** The publish-state field is absent. *)
Definition unpublishable (d : obj) : Prop := obj_has d "publishedAt" = false.

(** The publish-state field is null: a draft. *)
Definition draft (d : obj) : Prop := obj_get d "publishedAt" = VNull.

Definition draft_value (v : value) : Prop :=
  match v with
  | VObj o => draft o
  | _ => True
  end.

(** ** The model-attributes endpoint, get-model-attributes.js *)

(** Modelled from the spec: utils/models.js is not part of the sources at
    hand; called without a type filter, the Schema Introspector of section 2
    returns the whole attribute list of the model. *)
Definition allAttributes (P : Platform) (slug : string) : list Attribute :=
  match getModel P slug with
  | None => []
  | Some m => attributes m
  end.

Definition filterType (a : Attribute) : bool :=
  negb (mem (type a) ["relation"; "component"; "dynamiczone"]).

Definition filterName (a : Attribute) : bool :=
  negb (mem (name a) ["createdAt"; "updatedAt"; "publishedAt"; "locale"]).

Definition filterAttribute (a : Attribute) : bool :=
  forallb (fun f => f a) [filterType; filterName].

(** The body of the response. *)
Record AttributesData : Type := {
  attribute_names : list string;
  data_idField : value
}.

(** [configured slug] is [model?.pluginOptions?.['strapi-import-export']?.idField]. *)
Definition getModelAttributesEndpoint (P : Platform)
  (configured : string -> value) (slug : string) : AttributesData :=
  let attributeNames := map name (filter filterAttribute (allAttributes P slug)) in
  let attributeNames := "id" :: attributeNames in
  let idField :=
    if truthy (configured slug) then configured slug else VStr "id" in
  {| attribute_names := attributeNames; data_idField := idField |}.

(** ** Predicates of the further properties *)


(** A create or an update. *)
Definition is_write (c : StoreCall) : bool :=
  match c with
  | CCreate _ _ _ | CUpdate _ _ _ _ => true
  | _ => false
  end.



(** Two records agree outside the relational attributes of the model, the
    [id] and the publish-state field. *)
Definition same_scalars (P : Platform) (slug : string) (d d' : obj) : Prop :=
  forall k,
    ~ In k (relationNames P slug) ->
    k <> "id" -> k <> "publishedAt" ->
    obj_get d' k = obj_get d k.

(** The keys of an object, in order. *)
Definition keys (o : obj) : list string := map fst o.

(** The calls to the file collaborator for the data [l], newest first. *)
Definition file_calls (allowed : list string) (l : list value)
  : list StoreCall :=
  rev (map (fun d => CFile d allowed) l).

(** The tag of a resolved dynamic-zone entry. *)
Definition tagged_as (entry component : value) : Prop :=
  exists o co,
    entry = VObj o /\ component = VObj co /\
    obj_get co "__component" = obj_get o "__component".


(** What the loops of [parseCsv] make of one cell, by the type of its
    attribute. *)
Definition booleanCell (c : value) : value :=
  if is_str c "true" || is_str c "1" || is_bool c true then VBool true
  else if is_str c "false" || is_str c "0" || is_bool c false then VBool false
  else if is_str c "null" || is_str c "" then VNull
  else c.

Definition numberCell (P : Platform) (c : value) : value :=
  if defined c && negb (is_str c "") && negb (is_str c "null")
  then match toNumber P c with
       | Some k => VNum k
       | None => VNull
       end
  else if is_str c "null" || is_str c "" then VNull
  else c.

Definition dateCell (P : Platform) (c : value) : value :=
  if truthy c && negb (is_str c "null") && negb (is_str c "")
  then match parseDate P c with
       | Some iso => VStr iso
       | None => c
       end
  else if is_str c "null" || is_str c "" then VNull
  else c.

Definition relationCell (P : Platform) (c : value) : value :=
  if truthy c && negb (is_str c "") && negb (is_str c "null")
     && negb (is_str c "undefined")
  then match JSON_parse P c with
       | Some v => v
       | None => VNull
       end
  else VNull.

(** A parsed item that carries the fields of its source item, the
    publish-state field apart. *)
Definition same_fields_but_publish (item item' : value) : Prop :=
  exists o',
    item' = VObj o' /\
    forall k, k <> "publishedAt" -> obj_get o' k = obj_get (spread item) k.

(** A record the foreign-dump parser delivers for the row [item]. *)
Definition postgres_record (P : Platform) (hasDP : bool) (item y : value)
  : Prop :=
  exists o,
    y = VObj o /\
    (keys o = ["name"; "configuration"; "version"] \/
     keys o = ["name"; "configuration"; "version"; "publishedAt"]) /\
    obj_get o "name" = prop item "name" /\
    truthy (obj_get o "version") = true /\
    (forall c, prop item "configuration" = VStr c ->
               obj_get o "configuration" = VStr c) /\
    obj_has o "id" = false /\
    (hasDP = false -> obj_has o "publishedAt" = false).

(** ** The import editor of the admin panel *)

(** The identifying field the editor preselects once the model-attributes
    endpoint answered; [current] is the field selected before. *)
Definition editorIdField (current : value) (resp : AttributesData) : value :=
  let attributes := attribute_names resp in
  let configuredIdField := data_idField resp in
  if truthy configuredIdField then configuredIdField
  else if mem "id" attributes then VStr "id"
  else match attributes with
       | a :: _ => VStr a
       | [] => current
       end.

(** ** A second schema for the runs of the further properties *)
Module Sample2.

Definition event : Model := {|
  kind := "collectionType";
  draftAndPublish := true;
  attributes :=
    [Sample.attr "name" "string" None false;
     Sample.attr "active" "boolean" None false;
     Sample.attr "starts" "datetime" None false;
     Sample.attr "seats" "integer" None false;
     Sample.attr "cover" "media" None false;
     Sample.attr "blocks" "dynamiczone" None true;
     Sample.attr "part" "component" (Some "part") false;
     Sample.attr "tags" "relation" (Some "part") true;
     Sample.attr "rating" "rating" None false]
|}.

Definition part : Model := {|
  kind := "collectionType";
  draftAndPublish := false;
  attributes := [Sample.attr "name" "string" None false]
|}.

Definition homepage : Model := {|
  kind := "singleType";
  draftAndPublish := false;
  attributes := [Sample.attr "name" "string" None false]
|}.

Definition models (slug : string) : option Model :=
  if String.eqb slug "event" then Some event
  else if String.eqb slug "part" then Some part
  else if String.eqb slug "homepage" then Some homepage
  else None.

Definition rows : value :=
  VArr [VObj [("id", VNum 5); ("name", VStr "a");
              ("configuration", VStr "{}")];
        VObj [("name", VStr "b"); ("version", VStr "v2")]].

Definition items : value :=
  VArr [VObj [("name", VStr "a"); ("publishedAt", VStr "2020-01-01")];
        VNum 3].

Definition decode (v : value) : option value :=
  if is_str v "[1,2]" then Some (VArr [VNum 1; VNum 2])
  else if is_str v "rows" then Some rows
  else if is_str v "items" then Some items
  else None.

Definition platform : Platform := {|
  getModel := models;
  mediaSlug := "media";
  JSON_parse := decode;
  JSON_stringify := fun v => VStr "null";
  csvtojson := fun _ => Done [[("name", VStr "a"); ("active", VStr "1")]];
  parseDate := fun v =>
    if is_str v "2020-01-01" then Some "2020-01-01T00:00:00.000Z" else None;
  toNumber := fun v =>
    if is_str v "42" then Some (Int 42)
    else if is_str v "1.5" then Some (Real "1.5")
    else None
|}.

Definition cover : Attribute := Sample.attr "cover" "media" None false.
Definition blocks : Attribute := Sample.attr "blocks" "dynamiczone" None true.
Definition part_attr : Attribute :=
  Sample.attr "part" "component" (Some "part") false.
Definition rating : Attribute := Sample.attr "rating" "rating" None false.

(** The nested upsert of a record of the import loop. *)
Definition nested : upsert Sample.mem_store :=
  fun s d w =>
    match s with
    | Some s' => updateOrCreate platform 4 1 Sample.admin s' d None w
    | None => (d, Err typeErrorMsg, w)
    end.

(** A dynamic zone of two parts. *)
Definition zone : list value :=
  [VObj [("__component", VStr "part"); ("name", VStr "x")];
   VObj [("__component", VStr "part"); ("name", VStr "y")]].

(** A row of a delimited-text file for the event model. *)
Definition row : obj :=
  [("name", VStr "a"); ("active", VStr "1"); ("starts", VStr "2020-01-01");
   ("seats", VStr "42"); ("tags", VStr "[1,2]"); ("note", VStr "null")].

(** A row whose number cell is no integer. *)
Definition half_row : obj := [("name", VStr "a"); ("seats", VStr "1.5")].

(** A store that holds the home page. *)
Definition with_home : World Sample.mem_store := {|
  store := ({| Sample.rows := [("homepage", [("name", VStr "old"); ("id", VNum 1)])];
               Sample.next := 2 |} : St Sample.mem_store);
  trace := []
|}.

(** A store that holds one entry of the component model. *)
Definition with_page : World Sample.mem_store := {|
  store := ({| Sample.rows := [("seo", [("name", VStr "old"); ("id", VNum 1)])];
               Sample.next := 2 |} : St Sample.mem_store);
  trace := []
|}.

(** A record whose field "constructor" is empty. *)
Definition unnamed : obj := [("constructor", VStr ""); ("name", VStr "x")].

End Sample2.

(** ** Properties *)

Section ObjectFacts.

Lemma obj_get_set_same (o : obj) (k : string) (v : value) :
  obj_get (obj_set o k v) k = v.
Proof.
  induction o as [|[k' v'] o IH]; simpl.
  - now rewrite String.eqb_refl.
  - destruct (String.eqb k' k) eqn:E; simpl; rewrite E; auto.
Qed.

Lemma obj_get_set_other (o : obj) (k k' : string) (v : value) :
  k <> k' -> obj_get (obj_set o k v) k' = obj_get o k'.
Proof.
  intros Hne. induction o as [|[k0 v0] o IH]; simpl.
  - destruct (String.eqb_spec k k'); congruence.
  - destruct (String.eqb_spec k0 k); simpl.
    + subst. destruct (String.eqb_spec k k'); congruence.
    + destruct (String.eqb_spec k0 k'); auto.
Qed.

Lemma obj_has_set_other (o : obj) (k k' : string) (v : value) :
  k <> k' -> obj_has (obj_set o k v) k' = obj_has o k'.
Proof.
  intros Hne. induction o as [|[k0 v0] o IH]; simpl.
  - destruct (String.eqb_spec k k'); congruence.
  - destruct (String.eqb_spec k0 k); simpl.
    + subst. destruct (String.eqb_spec k k'); congruence.
    + destruct (String.eqb_spec k0 k'); auto.
Qed.

Lemma obj_has_delete_same (o : obj) (k : string) :
  obj_has (obj_delete o k) k = false.
Proof.
  induction o as [|[k' v'] o IH]; simpl; auto.
  destruct (String.eqb k' k) eqn:E; simpl; try rewrite E; auto.
Qed.

Lemma obj_get_delete_other (o : obj) (k k' : string) :
  k <> k' -> obj_get (obj_delete o k) k' = obj_get o k'.
Proof.
  intros Hne. induction o as [|[k0 v0] o IH]; simpl; auto.
  destruct (String.eqb_spec k0 k); simpl.
  - subst. destruct (String.eqb_spec k k'); congruence.
  - destruct (String.eqb_spec k0 k'); auto.
Qed.

Lemma obj_has_delete_other (o : obj) (k k' : string) :
  k <> k' -> obj_has (obj_delete o k) k' = obj_has o k'.
Proof.
  intros Hne. induction o as [|[k0 v0] o IH]; simpl; auto.
  destruct (String.eqb_spec k0 k); simpl.
  - subst. destruct (String.eqb_spec k k'); congruence.
  - destruct (String.eqb_spec k0 k'); auto.
Qed.

Lemma obj_get_absent (o : obj) (k : string) :
  obj_has o k = false -> obj_get o k = VUndef.
Proof.
  induction o as [|[k' v'] o IH]; simpl; auto.
  destruct (String.eqb k' k); [discriminate|auto].
Qed.

(** A name that [Object.prototype] does not hold is read from the own
    properties alone. *)
Lemma js_get_own (o : obj) (k : string) :
  inherited k = false -> js_get o k = obj_get o k.
Proof.
  intros Hk. unfold js_get. rewrite Hk.
  destruct (obj_has o k) eqn:Hh; [reflexivity|].
  symmetry. now apply obj_get_absent.
Qed.

Lemma js_get_first (k : string) (v : value) (o : obj) :
  js_get ((k, v) :: o) k = v.
Proof.
  unfold js_get. cbn [obj_has obj_get]. now rewrite String.eqb_refl.
Qed.

(** The falsy values are primitives. *)
Lemma falsy_stringifiable (v : value) :
  truthy v = false -> stringifiable v = true.
Proof.
  destruct v; cbn; congruence.
Qed.

End ObjectFacts.

Section UpsertFacts.

Variable DB : Store.

(** The record comes back as it was written, less an incoming [id] when the
    identifying field is another one; it comes back untouched when the value
    of the identifying field cannot be printed. *)
Lemma collection_data :
  forall (depth : nat) (slug : string) (data : obj) (idField : string)
         (w : World DB) (data' : obj) (r : outcome value) (w' : World DB),
    updateOrCreateCollectionType depth slug data idField w = (data', r, w') ->
    data' =
      (if stringifiable (js_get data idField)
       then (if String.eqb idField "id" then data else obj_delete data "id")
       else data).
Proof.
  intros depth slug data idField w data' r w' Hrun.
  unfold updateOrCreateCollectionType in Hrun.
  destruct (stringifiable (js_get data idField)); cbn [negb] in Hrun;
    [|inversion Hrun; reflexivity].
  repeat match type of Hrun with
         | context [call_create ?a ?b ?c ?d] =>
             destruct (call_create a b c d)
         | context [call_update ?a ?b ?c ?d ?e] =>
             destruct (call_update a b c d e)
         | context [call_findOne ?a ?b ?c] =>
             let r := fresh "r" in destruct (call_findOne a b c) as [r ?];
             try destruct r
         | context [if ?b then _ else _] => destruct b
         end; inversion Hrun; reflexivity.
Qed.


(** Upsert into a collection by an identifying field that is no member of
    [Object.prototype].  Let [v] be the record's value for the field and
    [written] the record once an incoming [id] was stripped (when the
    identifying field is not [id]).  If [v] is non-empty, the store is asked
    for the entity whose identifying field is [v]; when it answers with an
    entity, that entity is updated by its own [id] and nothing is created;
    when it finds none, exactly one entity is created.  If [v] is empty or
    missing, exactly one entity is created and the store is not searched. *)
Lemma upsert_collection_ordinary_field :
  forall (depth : nat) (slug : string) (data : obj) (idField : string)
         (w : World DB) (data' : obj) (r : outcome value) (w' : World DB),
    inherited idField = false ->
    stringifiable (obj_get data idField) = true ->
    updateOrCreateCollectionType depth slug data idField w = (data', r, w') ->
    let v := obj_get data idField in
    let written :=
      if String.eqb idField "id" then data else obj_delete data "id" in
    data' = written /\
    (truthy v = false ->
       trace w' = CCreate depth slug written :: trace w /\
       count_creates (trace w') = S (count_creates (trace w)) /\
       r = of_reply (fst (db_create DB slug written (store w))) /\
       store w' = snd (db_create DB slug written (store w))) /\
    (truthy v = true ->
       forall (found : value) (s1 : St DB),
         db_findOne DB slug [(idField, v)] (store w) = (Done found, s1) ->
         (truthy found = true ->
            stringifiable (prop found "id") = true ->
            trace w' =
              CUpdate depth slug (prop found "id") written
              :: CFindOne slug [(idField, v)] :: trace w /\
            count_creates (trace w') = count_creates (trace w) /\
            r = of_reply (fst (db_update DB slug (prop found "id") written s1)) /\
            store w' = snd (db_update DB slug (prop found "id") written s1)) /\
         (truthy found = false ->
            trace w' =
              CCreate depth slug written
              :: CFindOne slug [(idField, v)] :: trace w /\
            count_creates (trace w') = S (count_creates (trace w)) /\
            r = of_reply (fst (db_create DB slug written s1)) /\
            store w' = snd (db_create DB slug written s1))).
Proof.
  intros depth slug data idField w data' r w' Hown Hs Hrun v written.
  unfold updateOrCreateCollectionType in Hrun.
  rewrite (js_get_own data idField Hown) in Hrun.
  fold v in Hrun, Hs. rewrite Hs in Hrun. cbn [negb] in Hrun.
  fold written in Hrun.
  destruct (truthy v) eqn:Hv.
  - (* a value is supplied: the filter is {idField: v} *)
    cbn [ObjectBuilder_extend fold_left fst snd obj_set] in Hrun.
    rewrite js_get_first, Hv in Hrun. cbn [negb] in Hrun.
    unfold call_findOne in Hrun.
    destruct (db_findOne DB slug [(idField, v)] (store w)) as [rf sf] eqn:Hf.
    destruct rf as [found|m].
    + destruct (truthy found) eqn:Hfound.
      * destruct (stringifiable (prop found "id")) eqn:Hid; cbn [negb] in Hrun.
        -- unfold call_update in Hrun. cbn [store logged] in Hrun.
           destruct (db_update DB slug (prop found "id") written sf)
             as [ru su] eqn:Hu.
           inversion Hrun; subst; clear Hrun.
           split; [reflexivity|]. split; [discriminate|].
           intros _ found' s1 Heq. inversion Heq; subst; clear Heq.
           split; [|congruence]. intros _ _.
           rewrite Hu. cbn. auto.
        -- inversion Hrun; subst; clear Hrun.
           split; [reflexivity|]. split; [discriminate|].
           intros _ found' s1 Heq. inversion Heq; subst; clear Heq.
           split; [|congruence]. intros _ Hid'. congruence.
      * unfold call_create in Hrun. cbn [store logged] in Hrun.
        destruct (db_create DB slug written sf) as [rc sc] eqn:Hc.
        inversion Hrun; subst; clear Hrun.
        split; [reflexivity|]. split; [discriminate|].
        intros _ found' s1 Heq. inversion Heq; subst; clear Heq.
        split; [congruence|]. intros _.
        rewrite Hc. cbn. auto.
    + inversion Hrun; subst; clear Hrun.
      split; [reflexivity|]. split; [discriminate|].
      intros _ found' s1 Heq. discriminate.
  - unfold js_get in Hrun. cbn [obj_has] in Hrun. rewrite Hown in Hrun.
    cbn [truthy negb] in Hrun.
    unfold call_create in Hrun.
    destruct (db_create DB slug written (store w)) as [rc sc] eqn:Hc.
    inversion Hrun; subst; clear Hrun.
    split; [reflexivity|]. split; [|discriminate].
    intros _. cbn. auto.
Qed.

(** The identifying field is read with [data[idField]], own property or
    not.  When its name is a member of [Object.prototype] and the record
    supplies no non-empty value for it, the store is searched all the same:
    by the inherited member when the record has no such field, by the empty
    filter when the record's value is empty. *)
Lemma collection_inherited_field :
  forall (depth : nat) (slug : string) (data : obj) (idField : string)
         (w : World DB),
    inherited idField = true ->
    truthy (obj_get data idField) = false ->
    let query :=
      if obj_has data idField then [] else [(idField, VInherited idField)] in
    let written :=
      if String.eqb idField "id" then data else obj_delete data "id" in
    updateOrCreateCollectionType depth slug data idField w
    = (let '(r, w1) := call_findOne slug query w in
       match r with
       | Fail m => (written, Err m, w1)
       | Done existingEntry =>
           if truthy existingEntry then
             if negb (stringifiable (prop existingEntry "id"))
             then (written, Err primitiveErrorMsg, w1)
             else
               let '(r2, w2) :=
                 call_update depth slug (prop existingEntry "id") written w1 in
               (written, of_reply r2, w2)
           else
             let '(r2, w2) := call_create depth slug written w1 in
             (written, of_reply r2, w2)
       end).
Proof.
  intros depth slug data idField w Hin Hv query written.
  unfold updateOrCreateCollectionType. cbv zeta.
  fold written. unfold js_get. subst query.
  destruct (obj_has data idField) eqn:Hhas.
  - rewrite Hv, (falsy_stringifiable _ Hv). cbn [negb obj_has].
    rewrite Hin. reflexivity.
  - rewrite Hin. cbn [truthy stringifiable negb].
    cbn [ObjectBuilder_extend fold_left fst snd obj_set obj_has obj_get].
    rewrite String.eqb_refl. reflexivity.
Qed.

End UpsertFacts.

Section ResolverFacts.

Variable DB : Store.
Variable uoc : upsert DB.

Lemma not_entry_cases (x : value) :
  is_number x = false -> isObjectSafe x = false ->
  forall (slug : option string) (rest : list value) (w : World DB),
    resolveEntries uoc slug (x :: rest) w =
    (let '(rest', r, w') := resolveEntries uoc slug rest w in
     (x :: rest', r, w')).
Proof.
  intros Hn Ho slug rest w.
  destruct x; try discriminate; reflexivity.
Qed.

Lemma resolveEntries_sound (slug : option string) :
  forall (l : list value) (w : World DB) es ids w',
    resolveEntries uoc slug l w = (es, Ok ids, w') ->
    Resolved uoc slug l w ids w'.
Proof.
  induction l as [|x l IH]; intros w es ids w' H.
  - cbn in H. inversion H; subst. constructor.
  - destruct x.
    1-3, 5-7:
      (rewrite not_entry_cases in H by reflexivity;
       destruct (resolveEntries uoc slug l w) as [[es0 r0] w0] eqn:E;
       inversion H; subst;
       apply Resolved_skip; try reflexivity; eapply IH; eassumption).
    + cbn [resolveEntries] in H.
      destruct (resolveEntries uoc slug l w) as [[es0 r0] w0] eqn:E.
      destruct r0; inversion H; subst.
      apply Resolved_num. eapply IH; eassumption.
    + cbn [resolveEntries] in H.
      destruct (uoc slug o w) as [[o' r1] w1] eqn:Eu.
      destruct r1 as [entry|m|]; try (inversion H; fail).
      destruct (resolveEntries uoc slug l w1) as [[es0 r0] w0] eqn:E.
      destruct r0; inversion H; subst.
      change (if truthy (prop entry "id") then prop entry "id" :: a else a)
        with (if truthy (prop entry "id") then [prop entry "id"] ++ a else [] ++ a)%list.
      replace (if truthy (prop entry "id")
               then ([prop entry "id"] ++ a)%list else ([] ++ a)%list)
        with (id_of entry ++ a)%list
        by (unfold id_of; destruct (truthy (prop entry "id")); reflexivity).
      eapply Resolved_obj; [eassumption|]. eapply IH; eassumption.
Qed.

Lemma resolveEntries_complete (slug : option string) :
  forall (l : list value) (w : World DB) ids w',
    Resolved uoc slug l w ids w' ->
    exists es, resolveEntries uoc slug l w = (es, Ok ids, w').
Proof.
  intros l w ids w' H. induction H.
  - exists []. reflexivity.
  - destruct IHResolved as [es E]. exists (VNum n :: es).
    cbn [resolveEntries]. rewrite E. reflexivity.
  - destruct IHResolved as [es E]. exists (VObj o' :: es).
    cbn [resolveEntries]. rewrite H, E. unfold id_of.
    destruct (truthy (prop entry "id")); reflexivity.
  - destruct IHResolved as [es E]. exists (x :: es).
    rewrite not_entry_cases by assumption. rewrite E. reflexivity.
Qed.


End ResolverFacts.

Section ResolverClaims.

Variable DB : Store.
Variable uoc : upsert DB.

Lemma shaped_cases (relData : value) (ids : list value) :
  (isArraySafe relData = true -> shaped relData ids = VArr ids) /\
  (isArraySafe relData = false ->
   shaped relData ids = VNull \/ In (shaped relData ids) ids).
Proof.
  unfold shaped. split; intros H; rewrite H; [reflexivity|].
  unfold firstOrNull, js_or. destruct ids as [|i ids]; cbn; auto.
  destruct (truthy i); auto.
Qed.

(** C5, as amended.  For a relation-type attribute that is not one of the two
    audit-actor fields, the result has the shape of the input, whatever
    cardinality the schema declares: an array input yields the array of the
    resolved identifiers (numbers kept, objects upserted into the target
    model and replaced by their identifiers), any other input yields the
    first resolved identifier, or null.  The resolver produces this result
    exactly when every nested upsert succeeds. *)
Theorem relation_result_mirrors_input :
  forall (user : User) (rel : Attribute) (relData : value) (w : World DB),
    type rel = "relation" ->
    mem (name rel) auditFields = false ->
    (forall ids w',
        Resolved uoc (target rel) (toArray relData) w ids w' ->
        exists left,
          updateOrCreateRelation uoc user rel relData w
          = (left, Ok (shaped relData ids), w')) /\
    (forall left v w',
        updateOrCreateRelation uoc user rel relData w = (left, Ok v, w') ->
        exists ids,
          Resolved uoc (target rel) (toArray relData) w ids w' /\
          v = shaped relData ids /\
          (isArraySafe relData = true -> v = VArr ids) /\
          (isArraySafe relData = false -> v = VNull \/ In v ids)).
Proof.
  intros user rel relData w Hty Haudit.
  unfold updateOrCreateRelation, auditFields in *.
  rewrite Haudit, Hty. cbn [String.eqb Ascii.eqb Bool.eqb].
  destruct (nullish relData) eqn:Hnull.
  - (* null or undefined: a single entry that is skipped *)
    assert (HA : toArray relData = [relData] /\ shaped relData [] = VNull
                 /\ is_number relData = false /\ isObjectSafe relData = false
                 /\ isArraySafe relData = false)
      by (destruct relData; try discriminate; cbn; auto).
    destruct HA as (Harr & Hsh & Hn & Ho & Hnarr). rewrite Harr. split.
    + intros ids w' HR. exists relData.
      inversion HR; subst; try discriminate.
      match goal with H : Resolved _ _ [] _ _ _ |- _ => inversion H; subst end.
      rewrite Hsh. reflexivity.
    + intros left v w' H. inversion H; subst. exists []. repeat split.
      * apply Resolved_skip; auto. constructor.
      * now rewrite Hsh.
      * congruence.
      * auto.
  - split.
    + intros ids w' HR.
      destruct (resolveEntries_complete DB uoc _ _ _ _ _ HR) as [es E].
      rewrite E. eexists. reflexivity.
    + intros left v w' H.
      destruct (resolveEntries uoc (target rel) (toArray relData) w)
        as [[es r] w1] eqn:E.
      destruct r as [ids|m|]; cbn [outcome_map] in H; inversion H; subst.
      exists ids. split; [eapply resolveEntries_sound; eassumption|].
      split; [reflexivity|]. apply shaped_cases.
Qed.

(** C6, as amended.  For an attribute named after one of the two audit-actor
    fields, the resolver returns the acting user's identifier whatever
    non-null value the record supplies, and null when the record supplies
    null or nothing; it issues no store call and leaves the input alone. *)
Theorem audit_fields_take_acting_user :
  forall (user : User) (rel : Attribute) (relData : value) (w : World DB),
    mem (name rel) auditFields = true ->
    updateOrCreateRelation uoc user rel relData w
    = (relData, Ok (if nullish relData then VNull else user_id user), w).
Proof.
  intros user rel relData w Haudit.
  unfold updateOrCreateRelation, auditFields in *.
  rewrite Haudit. destruct (nullish relData); reflexivity.
Qed.


End ResolverClaims.

Section ParserFacts.

Variable P : Platform.

Lemma unknown_format_has_no_parser (format : string) :
  ~ In format InputFormats -> inherited format = false ->
  inputFormatToParser format = None.
Proof.
  intros H Hin. unfold inputFormatToParser, InputFormats in *.
  destruct (String.eqb_spec format "csv"); [subst; cbn in H; tauto|].
  destruct (String.eqb_spec format "jso"); [subst; cbn in H; tauto|].
  destruct (String.eqb_spec format "json"); [subst; cbn in H; tauto|].
  destruct (String.eqb_spec format "postgres"); [subst; cbn in H; tauto|].
  rewrite Hin. reflexivity.
Qed.

(** The table holds a parser for each of the three decoding formats. *)
Lemma decoding_format_parser (format : string) :
  In format ["csv"; "json"; "postgres"] ->
  format <> "jso" /\
  (inputFormatToParser format = Some PCsv
   \/ inputFormatToParser format = Some PJson
   \/ inputFormatToParser format = Some PPostgres).
Proof.
  intros [<-|[<-|[<-|[]]]]; (split; [discriminate|]); cbn; auto.
Qed.



Lemma csvRelation_other (datum : obj) (n n' : string) :
  n <> n' -> obj_get (csvRelation P datum n) n' = obj_get datum n'.
Proof.
  intros Hne. unfold csvRelation.
  destruct (truthy (obj_get datum n) && negb (is_str (obj_get datum n) "")
            && negb (is_str (obj_get datum n) "null")
            && negb (is_str (obj_get datum n) "undefined"));
    [destruct (JSON_parse P (obj_get datum n))|];
    now apply obj_get_set_other.
Qed.





Lemma csvNumber_keeps_other (datum : obj) (n n' : string) :
  n <> n' -> obj_get (csvNumber P datum n) n' = obj_get datum n'.
Proof.
  intros Hne. unfold csvNumber.
  repeat match goal with
         | |- context [if ?b then _ else _] => destruct b
         | |- context [match ?x with Some _ => _ | None => _ end] => destruct x
         end; try reflexivity; now apply obj_get_set_other.
Qed.

End ParserFacts.

Section ParserClaims.

Variable DB : Store.
Variable P : Platform.
Variable importDataV2 :
  value -> string -> User -> option string -> bool -> World DB ->
  option (outcome (list Failure) * World DB).

(** A format name that is neither declared by the table nor a member of
    [Object.prototype] makes [parseInputData] fail with the error that names
    the requested format; [importData] and the controller fail with the same
    error before any record is processed, and the world, store and calls
    alike, is as it was. *)
Lemma undeclared_format_is_refused :
  forall (format : string) (dataRaw : value) (slug : string) (user : User)
         (idField : option string) (importAsDrafts : option bool)
         (w : World DB),
    ~ In format InputFormats ->
    inherited format = false ->
    parseInputData P format dataRaw slug importAsDrafts
    = Err ("Data input format " ++ format ++ " is not supported.") /\
    importData P dataRaw slug format user idField importAsDrafts w
    = Some (Err ("Data input format " ++ format ++ " is not supported."), w) /\
    controller P importDataV2 user
      {| b_slug := slug; b_data := dataRaw; b_format := format;
         b_fileType := None; b_idField := idField;
         b_importAsDrafts := importAsDrafts |} w
    = Some (Err ("Data input format " ++ format ++ " is not supported."), w).
Proof.
  intros format dataRaw slug user idField importAsDrafts w Hfmt Hin.
  pose proof (unknown_format_has_no_parser format Hfmt Hin) as Hnone.
  assert (Hjso : String.eqb format "jso" = false).
  { destruct (String.eqb_spec format "jso"); [|reflexivity].
    subst. exfalso. apply Hfmt. cbn. tauto. }
  assert (Hp : forall d, parseInputData P format dataRaw slug d
                         = Err (unsupportedFormat format))
    by (intros d; unfold parseInputData; rewrite Hnone; reflexivity).
  repeat split.
  - apply Hp.
  - unfold importData. rewrite Hjso, Hp. reflexivity.
  - unfold controller. cbn [b_fileType is_some_str b_format b_data b_slug].
    rewrite Hp. reflexivity.
Qed.

(** C8.  The format name "constructor" is not one of the recognised formats,
    yet [parseInputData] does not fail on it: the table answers with the
    function [Object] it inherits, which hands an array or an object back as
    it came.  [importData] then processes the data exactly as it does for
    the pre-decoded format, store calls included. *)
Theorem inherited_format_name_is_accepted :
  forall (dataRaw : value) (slug : string) (user : User)
         (idField : option string) (importAsDrafts : option bool)
         (w : World DB),
    isObjectSafe dataRaw || isArraySafe dataRaw = true ->
    ~ In "constructor" InputFormats /\
    parseInputData P "constructor" dataRaw slug importAsDrafts = Ok dataRaw /\
    importData P dataRaw slug "constructor" user idField importAsDrafts w
    = importData P dataRaw slug "jso" user idField importAsDrafts w.
Proof.
  intros dataRaw slug user idField importAsDrafts w Hraw.
  assert (Hobj : toObject dataRaw = dataRaw)
    by (destruct dataRaw; try discriminate; reflexivity).
  assert (Hp : forall d, parseInputData P "constructor" dataRaw slug d
                         = Ok dataRaw).
  { intros d. unfold parseInputData. cbn. now rewrite Hobj. }
  split; [|split].
  - cbn. intros [H|[H|[H|[H|[]]]]]; discriminate.
  - apply Hp.
  - unfold importData. rewrite Hp. reflexivity.
Qed.

End ParserClaims.

(** ** The calls a run adds to the trace *)

Section TraceFacts.

Variable DB : Store.
Variable P : Platform.

Lemma extends_refl (Q : StoreCall -> Prop) (w : World DB) : extends Q w w.
Proof. exists []. split; [reflexivity|constructor]. Qed.

Lemma extends_trans (Q : StoreCall -> Prop) (w1 w2 w3 : World DB) :
  extends Q w1 w2 -> extends Q w2 w3 -> extends Q w1 w3.
Proof.
  intros [d1 [E1 F1]] [d2 [E2 F2]]. exists (d2 ++ d1)%list. split.
  - rewrite E2, E1. apply app_assoc.
  - apply Forall_app. split; assumption.
Qed.

Lemma extends_mono (Q Q' : StoreCall -> Prop) (w w' : World DB) :
  (forall c, Q c -> Q' c) -> extends Q w w' -> extends Q' w w'.
Proof.
  intros HQ [d [E F]]. exists d. split; [assumption|].
  eapply Forall_impl; eassumption.
Qed.

Lemma extends_logged (Q : StoreCall -> Prop) (c : StoreCall) (s : St DB)
  (w : World DB) : Q c -> extends Q w (logged c s w).
Proof.
  intros Hc. exists [c]. split; [reflexivity|]. repeat constructor. assumption.
Qed.

Lemma call_create_extends Q depth slug d (w : World DB) r w' :
  call_create depth slug d w = (r, w') ->
  Q (CCreate depth slug d) -> extends Q w w'.
Proof.
  unfold call_create. destruct (db_create DB slug d (store w)).
  intros H; inversion H; subst. apply extends_logged.
Qed.

Lemma call_update_extends Q depth slug id d (w : World DB) r w' :
  call_update depth slug id d w = (r, w') ->
  Q (CUpdate depth slug id d) -> extends Q w w'.
Proof.
  unfold call_update. destruct (db_update DB slug id d (store w)).
  intros H; inversion H; subst. apply extends_logged.
Qed.

Lemma call_findOne_extends Q slug q (w : World DB) r w' :
  call_findOne slug q w = (r, w') -> Q (CFindOne slug q) -> extends Q w w'.
Proof.
  unfold call_findOne. destruct (db_findOne DB slug q (store w)).
  intros H; inversion H; subst. apply extends_logged.
Qed.

Lemma call_findMany_extends Q slug (w : World DB) r w' :
  call_findMany slug w = (r, w') -> Q (CFindMany slug) -> extends Q w w'.
Proof.
  unfold call_findMany. destruct (db_findMany DB slug (store w)).
  intros H; inversion H; subst. apply extends_logged.
Qed.

Lemma call_file_extends Q datum user allowed (w : World DB) r w' :
  call_file datum user allowed w = (r, w') ->
  Q (CFile datum allowed) -> extends Q w w'.
Proof.
  unfold call_file. destruct (findOrImportFile DB datum user allowed (store w)).
  intros H; inversion H; subst. apply extends_logged.
Qed.

(** The write of [updateOrCreateCollectionType] carries the record, less an
    incoming [id] when the identifying field is another. *)
Lemma collection_extends Q depth slug (d : obj) idField (w : World DB) d' r w' :
  reads_free Q ->
  updateOrCreateCollectionType depth slug d idField w = (d', r, w') ->
  (forall id, Q (CUpdate depth slug id d')) ->
  Q (CCreate depth slug d') ->
  extends Q w w'.
Proof.
  intros (Hone & _ & _) Hrun Hup Hcr.
  unfold updateOrCreateCollectionType in Hrun.
  set (written := if String.eqb idField "id" then d else obj_delete d "id") in *.
  destruct (negb (stringifiable (js_get d idField)));
    [inversion Hrun; subst; apply extends_refl|].
  destruct (negb (truthy (js_get _ idField))).
  - destruct (call_create depth slug written w) as [rc wc] eqn:Ec.
    inversion Hrun; subst. eapply call_create_extends; eauto.
  - destruct (call_findOne slug _ w) as [rf wf] eqn:Ef.
    assert (H1 : extends Q w wf) by (eapply call_findOne_extends; eauto).
    destruct rf as [found|m].
    + destruct (truthy found).
      * destruct (negb (stringifiable (prop found "id")));
          [inversion Hrun; subst; assumption|].
        destruct (call_update depth slug (prop found "id") written wf)
          as [ru wu] eqn:Eu.
        inversion Hrun; subst. eapply extends_trans; [eassumption|].
        eapply call_update_extends; eauto.
      * destruct (call_create depth slug written wf) as [rc wc] eqn:Ec.
        inversion Hrun; subst. eapply extends_trans; [eassumption|].
        eapply call_create_extends; eauto.
    + inversion Hrun; subst. assumption.
Qed.

Lemma single_extends Q depth slug (d : obj) (w : World DB) d' r w' :
  reads_free Q ->
  updateOrCreateSingleType depth slug d w = (d', r, w') ->
  (forall id, Q (CUpdate depth slug id d')) ->
  Q (CCreate depth slug d') ->
  extends Q w w'.
Proof.
  intros (_ & Hmany & _) Hrun Hup Hcr.
  unfold updateOrCreateSingleType in Hrun.
  destruct (call_findMany slug w) as [rf wf] eqn:Ef.
  assert (H1 : extends Q w wf) by (eapply call_findMany_extends; eauto).
  destruct rf as [found|m].
  - destruct (negb (truthy (hd VUndef found))).
    + destruct (call_create depth slug (obj_delete d "id") wf)
        as [rc wc] eqn:Ec.
      inversion Hrun; subst. eapply extends_trans; [eassumption|].
      eapply call_create_extends; eauto.
    + destruct (call_update depth slug _ (obj_delete d "id") wf)
        as [ru wu] eqn:Eu.
      inversion Hrun; subst. eapply extends_trans; [eassumption|].
      eapply call_update_extends; eauto.
  - inversion Hrun; subst. assumption.
Qed.

End TraceFacts.

Section LoopTraces.

Variable DB : Store.
Variable P : Platform.
Variable Q : StoreCall -> Prop.
Hypothesis Q_reads : reads_free Q.

Lemma resolveEntries_extends (uoc : upsert DB) (slug : option string) :
  upsert_extends Q uoc ->
  forall l w es r w',
    resolveEntries uoc slug l w = (es, r, w') -> extends Q w w'.
Proof.
  intros Hu. induction l as [|x l IH]; intros w es r w' H.
  - cbn in H. inversion H; subst. apply extends_refl.
  - destruct x.
    1-3, 5-7:
      (rewrite not_entry_cases in H by reflexivity;
       destruct (resolveEntries uoc slug l w) as [[es0 r0] w0] eqn:E;
       inversion H; subst; eapply IH; eassumption).
    + cbn [resolveEntries] in H.
      destruct (resolveEntries uoc slug l w) as [[es0 r0] w0] eqn:E.
      assert (extends Q w w0) by (eapply IH; eassumption).
      destruct r0; inversion H; subst; assumption.
    + cbn [resolveEntries] in H.
      destruct (uoc slug o w) as [[o' r1] w1] eqn:Eu.
      assert (H1 : extends Q w w1) by (eapply Hu; eassumption).
      destruct r1 as [entry|m|]; try (inversion H; subst; assumption).
      destruct (resolveEntries uoc slug l w1) as [[es0 r0] w0] eqn:E.
      assert (extends Q w1 w0) by (eapply IH; eassumption).
      destruct r0; inversion H; subst; eapply extends_trans; eassumption.
Qed.

Lemma resolveZone_extends (uoc : upsert DB) :
  upsert_extends Q uoc ->
  forall l w es r w',
    resolveZone uoc l w = (es, r, w') -> extends Q w w'.
Proof.
  intros Hu. induction l as [|x l IH]; intros w es r w' H.
  - cbn in H. inversion H; subst. apply extends_refl.
  - destruct x; cbn [resolveZone] in H;
      try (inversion H; subst; apply extends_refl).
    destruct (uoc (slug_of (obj_get o "__component")) o w)
      as [[o' r1] w1] eqn:Eu.
    assert (H1 : extends Q w w1) by (eapply Hu; eassumption).
    destruct r1 as [entry|m|]; try (inversion H; subst; assumption).
    destruct (resolveZone uoc l w1) as [[es0 r0] w0] eqn:E.
    assert (extends Q w1 w0) by (eapply IH; eassumption).
    destruct r0; inversion H; subst; eapply extends_trans; eassumption.
Qed.

Lemma resolveMedia_extends (user : User) (allowed : list string) :
  forall l (w : World DB) r w',
    resolveMedia user allowed l w = (r, w') -> extends Q w w'.
Proof.
  destruct Q_reads as (_ & _ & Hfile).
  induction l as [|x l IH]; intros w r w' H.
  - cbn in H. inversion H; subst. apply extends_refl.
  - cbn [resolveMedia] in H.
    destruct (call_file x user allowed w) as [rf w1] eqn:Ef.
    assert (H1 : extends Q w w1) by (eapply call_file_extends; eauto).
    destruct rf as [media|m]; [|inversion H; subst; assumption].
    destruct (resolveMedia user allowed l w1) as [r0 w0] eqn:E.
    assert (extends Q w1 w0) by (eapply IH; eassumption).
    destruct r0; inversion H; subst; eapply extends_trans; eassumption.
Qed.

Lemma updateOrCreateRelation_extends (uoc : upsert DB) (user : User)
  (rel : Attribute) (relData : value) (w : World DB) left r w' :
  upsert_extends Q uoc ->
  updateOrCreateRelation uoc user rel relData w = (left, r, w') ->
  extends Q w w'.
Proof.
  intros Hu H. unfold updateOrCreateRelation in H.
  destruct (nullish relData); [inversion H; subst; apply extends_refl|].
  destruct (mem (name rel) ["createdBy"; "updatedBy"]);
    [inversion H; subst; apply extends_refl|].
  destruct (String.eqb (type rel) "dynamiczone").
  { destruct (zone_entries relData) as [entries|];
      [|inversion H; subst; apply extends_refl].
    destruct (resolveZone uoc entries w) as [[es r0] w0] eqn:E.
    inversion H; subst. eapply resolveZone_extends; eassumption. }
  destruct (String.eqb (type rel) "component").
  { destruct (resolveEntries uoc (component rel) _ w) as [[es r0] w0] eqn:E.
    inversion H; subst. eapply resolveEntries_extends; eassumption. }
  destruct (String.eqb (type rel) "media").
  { destruct (resolveMedia user _ _ w) as [r0 w0] eqn:E.
    inversion H; subst. eapply resolveMedia_extends; eassumption. }
  destruct (String.eqb (type rel) "relation").
  { destruct (resolveEntries uoc (target rel) _ w) as [[es r0] w0] eqn:E.
    inversion H; subst. eapply resolveEntries_extends; eassumption. }
  inversion H; subst. apply extends_refl.
Qed.

Lemma resolveAttributes_extends
  (resolve : Attribute -> value -> World DB -> value * outcome value * World DB) :
  (forall a v w x r w', resolve a v w = (x, r, w') -> extends Q w w') ->
  forall attrs d w d' r w',
    resolveAttributes resolve attrs d w = (d', r, w') -> extends Q w w'.
Proof.
  intros Hres. induction attrs as [|a attrs IH]; intros d w d' r w' H.
  - cbn in H. inversion H; subst. apply extends_refl.
  - cbn [resolveAttributes] in H.
    destruct (resolve a (obj_get d (name a)) w) as [[x r1] w1] eqn:E.
    assert (H1 : extends Q w w1) by (eapply Hres; eassumption).
    destruct r1 as [v|m|]; try (inversion H; subst; assumption).
    eapply extends_trans; [eassumption|]. eapply IH; eassumption.
Qed.

End LoopTraces.

Section UpsertTraces.

Variable DB : Store.
Variable P : Platform.

Lemma deeper_reads_free (depth : nat) : reads_free (deeper depth).
Proof. repeat split. Qed.

Lemma top_writes_reads_free (R : obj -> Prop) : reads_free (top_writes R).
Proof. repeat split. Qed.

Lemma deeper_top_writes (R : obj -> Prop) (depth : nat) (c : StoreCall) :
  deeper (S depth) c -> top_writes R c.
Proof. destruct c as [| |d ? ?|d ? ? ?|]; cbn; auto; destruct d; auto; lia. Qed.

Lemma single_data depth slug (d : obj) (w : World DB) d' r w' :
  updateOrCreateSingleType depth slug d w = (d', r, w') ->
  d' = obj_delete d "id".
Proof.
  unfold updateOrCreateSingleType. intros H.
  repeat match type of H with
         | context [call_create ?a ?b ?c ?d] =>
             destruct (call_create a b c d)
         | context [call_update ?a ?b ?c ?d ?e] =>
             destruct (call_update a b c d e)
         | context [call_findMany ?a ?b] =>
             let r := fresh "r" in destruct (call_findMany a b) as [r ?];
             try destruct r
         | context [if ?b then _ else _] => destruct b
         end; inversion H; reflexivity.
Qed.

Lemma updateOrCreate_deeper :
  forall (fuel depth : nat) user slug (d : obj) idField (w : World DB) d' r w',
    updateOrCreate P fuel depth user slug d idField w = (d', r, w') ->
    extends (deeper depth) w w'.
Proof.
  induction fuel as [|fuel IH]; intros depth user slug d idField w d' r w' H.
  - cbn in H. inversion H; subst. apply extends_refl.
  - cbn [updateOrCreate] in H.
    match type of H with
    | context [resolveAttributes ?res ?attrs d w] =>
        destruct (resolveAttributes res attrs d w) as [[d1 r1] w1] eqn:E
    end.
    assert (H1 : extends (deeper depth) w w1).
    { eapply (resolveAttributes_extends DB (deeper depth)); [|exact E].
      intros a v w0 x r0 w0' Hr.
      eapply (updateOrCreateRelation_extends DB (deeper depth));
        [apply deeper_reads_free| |exact Hr].
      intros s o w2 d2 r2 w2' Hu. destruct s as [s|].
      - apply IH in Hu. eapply extends_mono; [|exact Hu].
        intros c. destruct c; cbn; auto; lia.
      - inversion Hu; subst. apply extends_refl. }
    destruct r1 as [u|m|]; try (inversion H; subst; assumption).
    destruct (getModel P slug) as [model|];
      [|inversion H; subst; assumption].
    eapply extends_trans; [exact H1|].
    destruct (String.eqb (kind model) "singleType").
    + eapply single_extends; [apply deeper_reads_free|exact H| |];
        cbn; intros; lia.
    + eapply collection_extends; [apply deeper_reads_free|exact H| |];
        cbn; intros; lia.
Qed.

Lemma resolveAttributes_invariant (R : obj -> Prop)
  (resolve : Attribute -> value -> World DB -> value * outcome value * World DB)
  (attrs : list Attribute) :
  (forall a d w x res w',
      In a attrs ->
      resolve a (obj_get d (name a)) w = (x, Ok res, w') ->
      R d -> R (obj_set d (name a) res)) ->
  forall d w d' u w',
    resolveAttributes resolve attrs d w = (d', Ok u, w') -> R d -> R d'.
Proof.
  induction attrs as [|a attrs IH]; intros Hstep d w d' u w' H HR.
  - cbn in H. inversion H; subst. assumption.
  - cbn [resolveAttributes] in H.
    destruct (resolve a (obj_get d (name a)) w) as [[x r1] w1] eqn:E.
    destruct r1 as [v|m|]; try discriminate.
    eapply IH; [|exact H|].
    + intros a' d0 w0 x0 res w0' Hin. apply Hstep. now right.
    + eapply Hstep; [now left|exact E|assumption].
Qed.

(** The write of a record of the import loop carries data that satisfy [R]
    when the record does, resolving a relational field keeps [R], and so does
    stripping an incoming [id]. *)
Lemma updateOrCreate_top (R : obj -> Prop) :
  forall (fuel : nat) user slug (d : obj) idField (w : World DB) d' r w',
    (forall o, R o -> R (obj_delete o "id")) ->
    (forall (uoc : upsert DB) a o w0 x res w0',
        In a (getModelAttributes P slug relationTypes) ->
        updateOrCreateRelation uoc user a (obj_get o (name a)) w0
        = (x, Ok res, w0') ->
        R o -> R (obj_set o (name a) res)) ->
    R d ->
    updateOrCreate P fuel 0 user slug d idField w = (d', r, w') ->
    extends (top_writes R) w w'.
Proof.
  intros fuel user slug d idField w d' r w' Hdel Hstep HR H.
  destruct fuel as [|fuel].
  - cbn in H. inversion H; subst. apply extends_refl.
  - cbn [updateOrCreate] in H.
    match type of H with
    | context [resolveAttributes ?res ?attrs d w] =>
        destruct (resolveAttributes res attrs d w) as [[d1 r1] w1] eqn:E
    end.
    assert (H1 : extends (top_writes R) w w1).
    { eapply (resolveAttributes_extends DB (top_writes R)); [|exact E].
      intros a v w0 x r0 w0' Hr.
      eapply (updateOrCreateRelation_extends DB (top_writes R));
        [apply top_writes_reads_free| |exact Hr].
      intros s o w2 d2 r2 w2' Hu. destruct s as [s|].
      - apply updateOrCreate_deeper in Hu. eapply extends_mono; [|exact Hu].
        apply deeper_top_writes.
      - inversion Hu; subst. apply extends_refl. }
    destruct r1 as [u|m|]; try (inversion H; subst; assumption).
    assert (HR1 : R d1).
    { eapply resolveAttributes_invariant; [|exact E|exact HR].
      intros a o w0 x res w0' Hin. apply Hstep. assumption. }
    destruct (getModel P slug) as [model|];
      [|inversion H; subst; assumption].
    eapply extends_trans; [exact H1|].
    destruct (String.eqb (kind model) "singleType").
    + pose proof (single_data _ _ _ _ _ _ _ H) as ->.
      eapply single_extends; [apply top_writes_reads_free|exact H| |];
        cbn; intros; auto.
    + pose proof (collection_data _ _ _ _ _ _ _ _ _ H) as Hd.
      assert (HRd : R d')
        by (rewrite Hd; destruct (stringifiable _);
            [destruct (String.eqb _ "id")|]; auto).
      eapply collection_extends; [apply top_writes_reads_free|exact H| |];
        cbn; intros; auto.
Qed.

End UpsertTraces.

(** ** The recursion bound is never reached *)

Section FuelFacts.

Variable DB : Store.
Variable P : Platform.

Lemma vdepth_entry (x : value) (l : list value) :
  In x l -> (S (vdepth x) <= vdepth (VArr l))%nat.
Proof.
  intros Hin. cbn [vdepth]. apply le_n_S.
  induction l as [|y l IH]; [destruct Hin|].
  cbn [fold_right]. destruct Hin as [->|Hin]; [lia|].
  specialize (IH Hin). lia.
Qed.

Lemma vdepth_field (o : obj) (k : string) :
  (S (vdepth (obj_get o k)) <= vdepth (VObj o))%nat.
Proof.
  cbn [vdepth]. apply le_n_S.
  induction o as [|[k' v] o IH]; cbn [obj_get fold_right]; [cbn; lia|].
  destruct (String.eqb k' k); lia.
Qed.

Lemma NoDup_names_filter (f : Attribute -> bool) (l : list Attribute) :
  NoDup (map name l) -> NoDup (map name (filter f l)).
Proof.
  induction l as [|a l IH]; cbn; intros H; [constructor|].
  inversion H as [|? ? Hnin Hnd]; subst.
  destruct (f a); cbn; auto. constructor; auto.
  intros Hin. apply Hnin.
  apply in_map_iff in Hin. destruct Hin as [b [Hb Hin]].
  apply filter_In in Hin. apply in_map_iff. exists b. tauto.
Qed.

Lemma of_reply_finishes {A : Type} (r : reply A) : finishes (of_reply r).
Proof. destruct r; discriminate. Qed.

Lemma collection_finishes depth slug (d : obj) idField (w : World DB) :
  finishes (snd (fst (updateOrCreateCollectionType depth slug d idField w))).
Proof.
  unfold updateOrCreateCollectionType.
  repeat match goal with
         | |- context [call_create ?a ?b ?c ?d] =>
             let r := fresh "r" in destruct (call_create a b c d) as [r ?]
         | |- context [call_update ?a ?b ?c ?d ?e] =>
             let r := fresh "r" in destruct (call_update a b c d e) as [r ?]
         | |- context [call_findOne ?a ?b ?c] =>
             let r := fresh "r" in destruct (call_findOne a b c) as [r ?];
             try destruct r
         | |- context [if ?b then _ else _] => destruct b
         end; cbn; try apply of_reply_finishes; discriminate.
Qed.

Lemma single_finishes depth slug (d : obj) (w : World DB) :
  finishes (snd (fst (updateOrCreateSingleType depth slug d w))).
Proof.
  unfold updateOrCreateSingleType.
  repeat match goal with
         | |- context [call_create ?a ?b ?c ?d] =>
             let r := fresh "r" in destruct (call_create a b c d) as [r ?]
         | |- context [call_update ?a ?b ?c ?d ?e] =>
             let r := fresh "r" in destruct (call_update a b c d e) as [r ?]
         | |- context [call_findMany ?a ?b] =>
             let r := fresh "r" in destruct (call_findMany a b) as [r ?];
             try destruct r
         | |- context [if ?b then _ else _] => destruct b
         end; cbn; try apply of_reply_finishes; discriminate.
Qed.

Lemma resolveEntries_finishes (uoc : upsert DB) (n : nat)
  (slug : option string) :
  upsert_finishes uoc n ->
  forall l w,
    (forall x, In x l -> (vdepth x <= n)%nat) ->
    finishes (snd (fst (resolveEntries uoc slug l w))).
Proof.
  intros Hu. unfold finishes in *.
  induction l as [|x l IH]; intros w Hl; [discriminate|].
  assert (Hl' : forall y, In y l -> (vdepth y <= n)%nat)
    by (intros y Hy; apply Hl; now right).
  destruct x.
  1-3, 5-7:
    (rewrite not_entry_cases by reflexivity;
     specialize (IH w Hl');
     destruct (resolveEntries uoc slug l w) as [[es r] w0]; exact IH).
  - cbn [resolveEntries]. specialize (IH w Hl').
    destruct (resolveEntries uoc slug l w) as [[es r] w0].
    destruct r; cbn in *; auto; discriminate.
  - cbn [resolveEntries].
    pose proof (Hu slug o w (Hl _ (or_introl eq_refl))) as Ho.
    destruct (uoc slug o w) as [[o' r1] w1]. cbn in Ho.
    destruct r1 as [entry|m|];
      [|cbn; discriminate|exfalso; apply Ho; reflexivity].
    specialize (IH w1 Hl').
    destruct (resolveEntries uoc slug l w1) as [[es r] w0].
    destruct r; cbn in *; auto; discriminate.
Qed.

Lemma resolveZone_finishes (uoc : upsert DB) (n : nat) :
  upsert_finishes uoc n ->
  forall l w,
    (forall x, In x l -> (vdepth x <= n)%nat) ->
    finishes (snd (fst (resolveZone uoc l w))).
Proof.
  intros Hu. unfold finishes in *.
  induction l as [|x l IH]; intros w Hl; [discriminate|].
  assert (Hl' : forall y, In y l -> (vdepth y <= n)%nat)
    by (intros y Hy; apply Hl; now right).
  destruct x; cbn [resolveZone]; try discriminate.
  pose proof (Hu (slug_of (obj_get o "__component")) o w
                (Hl _ (or_introl eq_refl))) as Ho.
  destruct (uoc (slug_of (obj_get o "__component")) o w) as [[o' r1] w1].
  cbn in Ho.
  destruct r1 as [entry|m|];
    [|cbn; discriminate|exfalso; apply Ho; reflexivity].
  specialize (IH w1 Hl').
  destruct (resolveZone uoc l w1) as [[es r] w0].
  destruct r; cbn in *; auto; discriminate.
Qed.

Lemma resolveMedia_finishes (user : User) (allowed : list string) :
  forall l (w : World DB), finishes (fst (resolveMedia user allowed l w)).
Proof.
  unfold finishes. induction l as [|x l IH]; intros w; [discriminate|].
  cbn [resolveMedia].
  destruct (call_file x user allowed w) as [r w1].
  destruct r as [media|m]; [|discriminate].
  specialize (IH w1). destruct (resolveMedia user allowed l w1) as [r0 w0].
  destruct r0; cbn in *; auto; discriminate.
Qed.

Lemma outcome_map_finishes {A B : Type} (f : A -> B) (r : outcome A) :
  finishes r -> finishes (outcome_map f r).
Proof. unfold finishes. destruct r; cbn; auto; discriminate. Qed.

Lemma toArray_depth (relData : value) (n : nat) :
  (vdepth relData <= n)%nat ->
  forall x, In x (toArray relData) -> (vdepth x <= n)%nat.
Proof.
  intros Hd x Hin. destruct relData; cbn in Hin;
    try (destruct Hin as [<-|[]]; assumption).
  pose proof (vdepth_entry x l Hin). lia.
Qed.

Lemma zone_entries_depth (relData : value) (n : nat) (entries : list value) :
  (vdepth relData <= n)%nat ->
  zone_entries relData = Some entries ->
  forall x, In x entries -> (vdepth x <= n)%nat.
Proof.
  intros Hd Hz x Hin. destruct relData; cbn in Hz;
    try (destruct (truthy _) in Hz; try discriminate);
    try (inversion Hz; subst; destruct Hin; fail).
  - destruct b; inversion Hz; subst; destruct Hin.
  - destruct n0 as [z|t]; [destruct (negb (z =? 0)%Z)|];
      inversion Hz; subst; destruct Hin.
  - inversion Hz; subst. clear - Hin.
    induction s as [|c s IH]; cbn in Hin; [destruct Hin|].
    destruct Hin as [<-|Hin]; [cbn; lia|auto].
  - inversion Hz; subst. pose proof (vdepth_entry x entries Hin). lia.
Qed.

Lemma firstn_one_in {A : Type} (x : A) (l : list A) :
  In x (firstn 1 l) -> In x l.
Proof. destruct l; cbn; [auto|]. intros [->|[]]. now left. Qed.

Lemma updateOrCreateRelation_finishes (uoc : upsert DB) (n : nat)
  (user : User) (rel : Attribute) (relData : value) (w : World DB) :
  upsert_finishes uoc n ->
  (vdepth relData <= n)%nat ->
  finishes (snd (fst (updateOrCreateRelation uoc user rel relData w))).
Proof.
  intros Hu Hd. unfold updateOrCreateRelation.
  destruct (nullish relData); [discriminate|].
  destruct (mem (name rel) ["createdBy"; "updatedBy"]); [discriminate|].
  destruct (String.eqb (type rel) "dynamiczone").
  { destruct (zone_entries relData) as [entries|] eqn:Hz; [|discriminate].
    pose proof (resolveZone_finishes uoc n Hu entries w
                  (zone_entries_depth _ _ _ Hd Hz)) as H.
    destruct (resolveZone uoc entries w) as [[es r] w0].
    cbn in *. now apply outcome_map_finishes. }
  destruct (String.eqb (type rel) "component").
  { match goal with
    | |- context [resolveEntries uoc ?s ?l w] =>
        assert (H : finishes (snd (fst (resolveEntries uoc s l w))));
        [|destruct (resolveEntries uoc s l w) as [[es r] w0];
          cbn in *; now apply outcome_map_finishes]
    end.
    apply (resolveEntries_finishes uoc n); [assumption|].
    intros x Hin. apply (toArray_depth relData n Hd).
    destruct (repeatable rel); [assumption|now apply firstn_one_in]. }
  destruct (String.eqb (type rel) "media").
  { match goal with
    | |- context [resolveMedia ?u ?a ?l w] =>
        pose proof (resolveMedia_finishes u a l w) as H;
        destruct (resolveMedia u a l w) as [r w0]
    end.
    cbn in *. now apply outcome_map_finishes. }
  destruct (String.eqb (type rel) "relation"); [|discriminate].
  pose proof (resolveEntries_finishes uoc n (target rel) Hu (toArray relData) w
                (toArray_depth relData n Hd)) as H.
  destruct (resolveEntries uoc (target rel) (toArray relData) w)
    as [[es r] w0].
  cbn in *. now apply outcome_map_finishes.
Qed.

Lemma resolveAttributes_finishes
  (resolve : Attribute -> value -> World DB -> value * outcome value * World DB)
  (n : nat) :
  (forall a v w, (vdepth v <= n)%nat -> finishes (snd (fst (resolve a v w)))) ->
  forall attrs d w,
    NoDup (map name attrs) ->
    (forall a, In a attrs -> (vdepth (obj_get d (name a)) <= n)%nat) ->
    finishes (snd (fst (resolveAttributes resolve attrs d w))).
Proof.
  intros Hres. induction attrs as [|a attrs IH]; intros d w Hnd Hd;
    [discriminate|].
  cbn [resolveAttributes].
  pose proof (Hres a (obj_get d (name a)) w (Hd a (or_introl eq_refl))) as Ha.
  destruct (resolve a (obj_get d (name a)) w) as [[x r] w1]. cbn in Ha.
  destruct r as [v|m|]; [|discriminate|exfalso; apply Ha; reflexivity].
  inversion Hnd as [|? ? Hnin Hnd']; subst.
  apply IH; [assumption|].
  intros a' Hin. rewrite obj_get_set_other; [apply Hd; now right|].
  intros Heq. apply Hnin. rewrite Heq. now apply in_map.
Qed.

(** Fuel that covers the depth of the record is enough. *)
Lemma updateOrCreate_finishes :
  wf_schema P ->
  forall (fuel depth : nat) user slug (d : obj) idField (w : World DB),
    (vdepth (VObj d) <= fuel)%nat ->
    finishes (snd (fst (updateOrCreate P fuel depth user slug d idField w))).
Proof.
  intros Hwf. induction fuel as [|fuel IH];
    intros depth user slug d idField w Hd.
  - cbn in Hd. lia.
  - cbn [updateOrCreate].
    match goal with
    | |- context [resolveAttributes ?res ?attrs d w] =>
        assert (H : finishes (snd (fst (resolveAttributes res attrs d w))));
        [|destruct (resolveAttributes res attrs d w) as [[d1 r1] w1]]
    end.
    { apply (resolveAttributes_finishes _ fuel).
      - intros a v w0 Hv. apply (updateOrCreateRelation_finishes _ fuel);
          [|assumption].
        intros s o w1 Ho. destruct s as [s|]; [apply IH; assumption|].
        discriminate.
      - unfold getModelAttributes.
        destruct (getModel P slug) as [m|] eqn:Hm; [|constructor].
        apply NoDup_names_filter. eapply Hwf; eassumption.
      - intros a _. pose proof (vdepth_field d (name a)). lia. }
    cbn in H.
    destruct r1 as [u|m|]; [|discriminate|exfalso; apply H; reflexivity].
    destruct (getModel P slug) as [model|]; [|discriminate].
    destruct (String.eqb (kind model) "singleType");
      [apply single_finishes|apply collection_finishes].
Qed.

End FuelFacts.

(** ** The import loop *)

Section ImportFacts.

Variable DB : Store.
Variable P : Platform.

Lemma importRecord_finishes :
  wf_schema P ->
  forall slug user idField hasDP datum (w : World DB),
    finishes (snd (fst (importRecord P slug user idField hasDP datum w))).
Proof.
  intros Hwf slug user idField hasDP datum w. unfold importRecord.
  destruct (negb (stringifiable (itemLabel datum idField)));
    [discriminate|].
  apply updateOrCreate_finishes; [assumption|lia].
Qed.



Lemma importLoop_attempts :
  wf_schema P ->
  forall slug user idField hasDP records (w : World DB),
    exists processed,
      importLoop P slug user idField hasDP records w
      = (Ok processed, snd (attempts P slug user idField hasDP records w)) /\
      failuresOf processed
      = failureEntries (fst (attempts P slug user idField hasDP records w)).
Proof.
  intros Hwf slug user idField hasDP.
  induction records as [|d records IH]; intros w.
  - exists []. split; reflexivity.
  - cbn [importLoop attempts].
    pose proof (importRecord_finishes Hwf slug user idField hasDP d w) as Hfin.
    destruct (importRecord P slug user idField hasDP d w) as [[d' r] w1].
    cbn in Hfin. destruct (IH w1) as [processed [E F]].
    destruct (attempts P slug user idField hasDP records w1) as [rs w'].
    cbn [fst snd] in *.
    destruct r as [v|m|]; [| |exfalso; apply Hfin; reflexivity];
      rewrite E; cbn [outcome_map]; eexists; (split; [reflexivity|]);
      unfold failuresOf, failureEntries in *; cbn; now rewrite F.
Qed.



Lemma resolveAttributes_frame
  (resolve : Attribute -> value -> World DB -> value * outcome value * World DB) :
  forall attrs d w d' r w',
    resolveAttributes resolve attrs d w = (d', r, w') ->
    forall k, ~ In k (map name attrs) -> obj_get d' k = obj_get d k.
Proof.
  induction attrs as [|a attrs IH]; intros d w d' r w' H k Hk.
  - cbn in H. inversion H; subst. reflexivity.
  - cbn [resolveAttributes] in H.
    assert (Hne : name a <> k) by (intros Heq; apply Hk; now left).
    assert (Hk' : ~ In k (map name attrs))
      by (intros Hin; apply Hk; now right).
    destruct (resolve a (obj_get d (name a)) w) as [[x r1] w1].
    destruct r1 as [v|m|].
    + rewrite (IH _ _ _ _ _ H k Hk'). now apply obj_get_set_other.
    + inversion H; subst. destruct (obj_has d (name a)); [|reflexivity].
      now apply obj_get_set_other.
    + inversion H; subst. destruct (obj_has d (name a)); [|reflexivity].
      now apply obj_get_set_other.
Qed.

Lemma updateOrCreate_frame :
  forall (fuel depth : nat) user slug (d : obj) idField (w : World DB) d' r w',
    updateOrCreate P fuel depth user slug d idField w = (d', r, w') ->
    forall k, ~ In k (relationNames P slug) -> k <> "id" ->
              obj_get d' k = obj_get d k.
Proof.
  intros fuel depth user slug d idField w d' r w' H k Hk Hid.
  destruct fuel as [|fuel]; [cbn in H; inversion H; subst; reflexivity|].
  cbn [updateOrCreate] in H.
  match type of H with
  | context [resolveAttributes ?res ?attrs d w] =>
      destruct (resolveAttributes res attrs d w) as [[d1 r1] w1] eqn:E
  end.
  pose proof (resolveAttributes_frame _ _ _ _ _ _ _ E k Hk) as H1.
  destruct r1 as [u|m|]; try (inversion H; subst; exact H1).
  destruct (getModel P slug) as [model|]; [|inversion H; subst; exact H1].
  destruct (String.eqb (kind model) "singleType").
  - rewrite (single_data _ _ _ _ _ _ _ _ H).
    rewrite obj_get_delete_other; [exact H1|congruence].
  - rewrite (collection_data _ _ _ _ _ _ _ _ _ H).
    destruct (stringifiable _); [|exact H1].
    destruct (String.eqb _ "id"); [exact H1|].
    rewrite obj_get_delete_other; [exact H1|congruence].
Qed.

Lemma importRecord_frame slug user idField hasDP (datum : obj)
  (w : World DB) d' r w' :
  importRecord P slug user idField hasDP datum w = (d', r, w') ->
  same_scalars P slug datum d'.
Proof.
  intros H k Hk Hid Hpub. unfold importRecord in H.
  destruct (negb (stringifiable (itemLabel datum idField)));
    [inversion H; subst; reflexivity|].
  rewrite (updateOrCreate_frame _ _ _ _ _ _ _ _ _ _ H k Hk Hid).
  destruct (negb hasDP && defined (obj_get datum "publishedAt"));
    [|reflexivity].
  apply obj_get_delete_other. congruence.
Qed.

(** C1.  Upsert into a collection-kind model (here one without relational
    attributes) by an identifying field whose name is a member of
    [Object.prototype], such as "constructor": a record that supplies no
    non-empty value for the field is not simply created.  The upsert
    searches the store, by the inherited member when the record has no such
    field and by the empty filter when the record's value is empty.  When
    the search fails, the upsert fails and nothing is written; when the store
    answers with an entity, that entity is updated by its own [id] and no
    entity is created. *)
Theorem inherited_identifying_field_updates :
  forall (fuel depth : nat) (user : User) (slug : string) (model : Model)
         (data : obj) (idField : string) (w : World DB),
    getModel P slug = Some model ->
    kind model <> "singleType" ->
    getModelAttributes P slug relationTypes = [] ->
    inherited idField = true ->
    truthy (obj_get data idField) = false ->
    let query :=
      if obj_has data idField then [] else [(idField, VInherited idField)] in
    let written :=
      if String.eqb idField "id" then data else obj_delete data "id" in
    forall (data' : obj) (r : outcome value) (w' : World DB),
      updateOrCreate P (S fuel) depth user slug data (Some idField) w
      = (data', r, w') ->
      (forall (m : string) (s1 : St DB),
          db_findOne DB slug query (store w) = (Fail m, s1) ->
          r = Err m /\
          trace w' = CFindOne slug query :: trace w /\
          count_creates (trace w') = count_creates (trace w) /\
          store w' = s1) /\
      (forall (found : value) (s1 : St DB),
          db_findOne DB slug query (store w) = (Done found, s1) ->
          truthy found = true ->
          stringifiable (prop found "id") = true ->
          trace w' =
            CUpdate depth slug (prop found "id") written
            :: CFindOne slug query :: trace w /\
          count_creates (trace w') = count_creates (trace w) /\
          r = of_reply (fst (db_update DB slug (prop found "id") written s1)) /\
          store w' = snd (db_update DB slug (prop found "id") written s1)).
Proof.
  intros fuel depth user slug model data idField w Hm Hkind Hattrs
         Hin Hv query written data' r w' Hrun.
  cbn [updateOrCreate] in Hrun. rewrite Hattrs in Hrun.
  cbn [resolveAttributes] in Hrun. rewrite Hm in Hrun.
  destruct (String.eqb_spec (kind model) "singleType") as [Heq|_];
    [contradiction|].
  rewrite (collection_inherited_field DB depth slug data idField w Hin Hv)
    in Hrun.
  fold query in Hrun. fold written in Hrun.
  unfold call_findOne in Hrun. split.
  - intros m s1 Hf. rewrite Hf in Hrun.
    inversion Hrun; subst; clear Hrun. cbn. auto.
  - intros found s1 Hf Hfound Hid. rewrite Hf, Hfound, Hid in Hrun.
    cbn [negb] in Hrun. unfold call_update in Hrun.
    cbn [store logged] in Hrun.
    destruct (db_update DB slug (prop found "id") written s1) as [ru su].
    inversion Hrun; subst; clear Hrun. cbn. auto.
Qed.



Lemma attempts_frame slug user idField hasDP :
  forall records (w : World DB),
    Forall2 (fun datum dr => same_scalars P slug datum (fst dr))
      records (fst (attempts P slug user idField hasDP records w)).
Proof.
  induction records as [|d records IH]; intros w;
    cbn [attempts]; [constructor|].
  destruct (importRecord P slug user idField hasDP d w)
    as [[d' r] w1] eqn:E.
  specialize (IH w1).
  destruct (attempts P slug user idField hasDP records w1) as [rs w'].
  cbn [fst] in *. constructor; [|exact IH].
  cbn. eapply importRecord_frame; exact E.
Qed.


(** *** What the loop writes *)

Lemma importLoop_extends (Q : StoreCall -> Prop) slug user idField hasDP :
  forall records (w : World DB) r w',
    (forall d (w0 : World DB) d' r0 w0',
        In d records ->
        importRecord P slug user idField hasDP d w0 = (d', r0, w0') ->
        extends Q w0 w0') ->
    importLoop P slug user idField hasDP records w = (r, w') ->
    extends Q w w'.
Proof.
  induction records as [|d records IH]; intros w r w' Hrec H.
  - cbn in H. inversion H; subst. apply extends_refl.
  - cbn [importLoop] in H.
    destruct (importRecord P slug user idField hasDP d w) as [[d' r1] w1] eqn:E.
    assert (H1 : extends Q w w1) by (eapply Hrec; [now left|exact E]).
    assert (IH' : forall r w', importLoop P slug user idField hasDP records w1
                               = (r, w') -> extends Q w1 w').
    { intros r0 w0. apply IH. intros d0 w2 d2 r2 w2' Hin.
      apply Hrec. now right. }
    destruct r1 as [v|m|]; [| |inversion H; subst; assumption];
      destruct (importLoop P slug user idField hasDP records w1)
        as [r2 w2] eqn:E2;
      inversion H; subst; (eapply extends_trans; [exact H1|]);
      eapply IH'; reflexivity.
Qed.

Lemma mediaLoop_extends (Q : StoreCall -> Prop) (user : User) :
  reads_free Q ->
  forall l (w : World DB) processed w',
    mediaLoop user l w = (processed, w') -> extends Q w w'.
Proof.
  intros (_ & _ & Hfile). induction l as [|x l IH]; intros w processed w' H.
  - cbn in H. inversion H; subst. apply extends_refl.
  - cbn [mediaLoop] in H.
    destruct (call_file x user ["any"] w) as [r w1] eqn:E.
    assert (H1 : extends Q w w1) by (eapply call_file_extends; eauto).
    destruct (mediaLoop user l w1) as [processed0 w0] eqn:E0.
    inversion H; subst. eapply extends_trans; [exact H1|].
    eapply IH; exact E0.
Qed.

End ImportFacts.

(** ** The publish-state field *)

Section PublishState.

Variable DB : Store.
Variable P : Platform.

Lemma importRecord_unpublishable slug user idField (datum : obj)
  (w : World DB) d' r w' :
  ~ In "publishedAt" (relationNames P slug) ->
  json_field "publishedAt" datum = true ->
  importRecord P slug user idField false datum w = (d', r, w') ->
  extends (top_writes unpublishable) w w'.
Proof.
  intros Hrel Hjson H. unfold importRecord in H. cbn [negb andb] in H.
  destruct (negb (stringifiable (itemLabel datum idField)));
    [inversion H; subst; apply extends_refl|].
  eapply updateOrCreate_top; [| | |exact H].
  - intros o Ho. unfold unpublishable in *.
    rewrite obj_has_delete_other; [assumption|discriminate].
  - intros uoc a o w0 x res w0' Hin _ Ho. unfold unpublishable in *.
    rewrite obj_has_set_other; [assumption|].
    intros Heq. apply Hrel. rewrite <- Heq. unfold relationNames.
    now apply in_map.
  - unfold unpublishable, json_field in *.
    destruct (defined (obj_get datum "publishedAt")).
    + apply obj_has_delete_same.
    + rewrite orb_false_r in Hjson. now apply negb_true_iff in Hjson.
Qed.

Lemma importRecord_draft slug user idField (datum : obj) (w : World DB)
  d' r w' :
  draft datum ->
  importRecord P slug user idField true datum w = (d', r, w') ->
  extends (top_writes draft) w w'.
Proof.
  intros Hd H. unfold importRecord in H. cbn [negb andb] in H.
  destruct (negb (stringifiable (itemLabel datum idField)));
    [inversion H; subst; apply extends_refl|].
  eapply updateOrCreate_top; [| |exact Hd|exact H].
  - intros o Ho. unfold draft in *.
    rewrite obj_get_delete_other; [assumption|discriminate].
  - intros uoc a o w0 x res w0' _ Hr Ho. unfold draft in *.
    destruct (String.eqb_spec (name a) "publishedAt") as [Heq|Hne].
    + rewrite Heq in *. rewrite Ho in Hr.
      unfold updateOrCreateRelation in Hr. cbn [nullish] in Hr.
      inversion Hr; subst. apply obj_get_set_same.
    + rewrite obj_get_set_other; assumption.
Qed.

Lemma records_of_Forall (R : obj -> Prop) :
  forall (l : list value) (records : list obj),
    Forall (fun v => match v with VObj o => R o | _ => True end) l ->
    records_of l = Some records -> Forall R records.
Proof.
  induction l as [|v l IH]; intros records HF H; cbn in H.
  - inversion H; subst. constructor.
  - destruct v; try discriminate.
    destruct (records_of l) as [rs|] eqn:E; [|discriminate].
    cbn in H. inversion H; subst. inversion HF; subst.
    constructor; auto.
Qed.

Lemma mapOutcome_Forall (f : value -> outcome value) (R : value -> Prop) :
  (forall x y, f x = Ok y -> R y) ->
  forall l ys, mapOutcome f l = Ok ys -> Forall R ys.
Proof.
  intros Hf. induction l as [|x l IH]; intros ys H; cbn in H.
  - inversion H; subst. constructor.
  - destruct (f x) as [y|m|] eqn:E; try discriminate.
    destruct (mapOutcome f l) as [ys0|m|]; try discriminate.
    cbn in H. inversion H; subst. constructor; eauto.
Qed.

Lemma parser_of_jso (format : string) :
  inputFormatToParser format = Some PJso -> format = "jso".
Proof.
  unfold inputFormatToParser.
  destruct (String.eqb_spec format "csv"); [discriminate|].
  destruct (String.eqb_spec format "jso"); [auto|].
  destruct (String.eqb_spec format "json"); [discriminate|].
  destruct (String.eqb_spec format "postgres"); [discriminate|].
  destruct (inherited format); discriminate.
Qed.

(** With draft mode on and a model that supports draft/publish, the csv,
    json and postgres parsers deliver drafts only. *)
Lemma parsers_deliver_drafts (format : string) (dataRaw : value)
  (slug : string) (data : value) :
  hasDraftAndPublish P slug = true ->
  In format ["csv"; "json"; "postgres"] ->
  parseInputData P format dataRaw slug (Some true) = Ok data ->
  Forall draft_value (toArray data).
Proof.
  intros Hdp Hfmt H. unfold parseInputData in H. cbn [dflt] in H.
  destruct (decoding_format_parser format Hfmt) as [_ [Hp|[Hp|Hp]]];
    rewrite Hp in H.
  - (* csv *)
    unfold parseCsv in H. destruct (csvtojson P dataRaw) as [rows|m];
      [|discriminate].
    destruct (existsb (csvRowRaises P slug) rows); [discriminate|].
    inversion H; subst. cbn [toArray]. apply Forall_forall.
    intros v Hin. apply in_map_iff in Hin. destruct Hin as [d [<- _]].
    cbn. unfold draft, parseCsvRow. rewrite Hdp. cbn [andb dflt].
    apply obj_get_set_same.
  - (* json *)
    unfold parseJson in H. destruct (JSON_parse P dataRaw) as [d0|];
      [|discriminate].
    rewrite Hdp in H. cbn [andb dflt] in H.
    destruct d0; inversion H; subst; cbn [toArray];
      try (repeat constructor; fail).
    + apply Forall_forall. intros v Hin. apply in_map_iff in Hin.
      destruct Hin as [d [<- _]]. cbn. apply obj_get_set_same.
    + repeat constructor. cbn. apply obj_get_set_same.
  - (* postgres *)
    unfold parsePostgresJson in H.
    destruct (JSON_parse P dataRaw) as [d0|]; [|discriminate].
    rewrite Hdp in H. cbn [dflt] in H.
    match type of H with
    | context [mapOutcome ?f ?l] =>
        destruct (mapOutcome f l) as [ys|m|] eqn:E
    end; cbn in H; try discriminate.
    inversion H; subst. cbn [toArray].
    eapply mapOutcome_Forall; [|exact E].
    intros x y Hxy. unfold transformPostgres in Hxy.
    destruct (nullish x); [discriminate|]. cbn iota in Hxy.
    destruct (negb (stringifiable (prop x "name"))); [discriminate|].
    inversion Hxy; subst. reflexivity.
Qed.

End PublishState.

Section PublishClaims.

Variable DB : Store.
Variable P : Platform.
Variable importDataV2 :
  value -> string -> User -> option string -> bool -> World DB ->
  option (outcome (list Failure) * World DB).

Lemma importData_drafts :
  forall (dataRaw : value) (slug format : string) (user : User)
         (idField : option string) (importAsDrafts : option bool)
         (w : World DB) r w',
    hasDraftAndPublish P slug = true ->
    In format ["csv"; "json"; "postgres"] ->
    dflt importAsDrafts = true ->
    importData P dataRaw slug format user idField importAsDrafts w
    = Some (r, w') ->
    extends (top_writes draft) w w'.
Proof.
  intros dataRaw slug format user idField importAsDrafts w r w'
         Hdp Hfmt Hdrafts H.
  unfold importData in H. rewrite Hdp, Hdrafts in H.
  destruct (String.eqb_spec format "jso") as [Heq|_];
    [exfalso; now apply (proj1 (decoding_format_parser format Hfmt))|].
  destruct (parseInputData P format dataRaw slug (Some true))
    as [data|m|] eqn:Hparse;
    try (inversion H; subst; apply extends_refl).
  destruct (String.eqb slug (mediaSlug P)).
  - unfold importMedia in H.
    destruct (mediaLoop user (toArray data) w) as [processed w0] eqn:E.
    inversion H; subst.
    eapply mediaLoop_extends; [apply top_writes_reads_free|exact E].
  - destruct (records_of (toArray data)) as [records|] eqn:Hrec;
      [|discriminate].
    assert (HF : Forall draft records).
    { eapply records_of_Forall; [|exact Hrec].
      eapply parsers_deliver_drafts; eassumption. }
    unfold importOtherSlug in H.
    destruct (importLoop P slug user idField true records w)
      as [r0 w0] eqn:E.
    inversion H; subst.
    eapply importLoop_extends; [|exact E].
    intros d w1 d' r1 w1' Hin Hrun.
    eapply importRecord_draft; [|exact Hrun].
    rewrite Forall_forall in HF. now apply HF.
Qed.

(** C3, as amended.  For a model that supports draft/publish and an import
    requested as drafts, in the csv, json or postgres format, every record of
    the input (the records of the import loop, not the ones nested in their
    relational fields) reaches the store, through create or through update,
    with its publish-state field equal to null, whatever the source record
    carried. *)
Theorem drafts_are_written_unpublished :
  forall (dataRaw : value) (slug format : string) (user : User)
         (idField : option string) (w : World DB) r w',
    hasDraftAndPublish P slug = true ->
    In format ["csv"; "json"; "postgres"] ->
    importData P dataRaw slug format user idField (Some true) w
    = Some (r, w') ->
    extends (top_writes draft) w w'.
Proof.
  intros dataRaw slug format user idField w r w' Hdp Hfmt H.
  exact (importData_drafts dataRaw slug format user idField (Some true)
           w r w' Hdp Hfmt eq_refl H).
Qed.

(** C4, as amended.  For a model without draft/publish support, every record
    of the import loop, whichever parser delivered it, reaches the store,
    through create or through update, without the publish-state field, even
    when the source record had it.  (The records are decoded data, and the
    publish-state field is no relational attribute of the model.) *)
Theorem publish_state_absent_without_draft_support :
  forall (records : list obj) (slug : string) (user : User)
         (idField : option string) (importAsDrafts : bool)
         (w : World DB) r w',
    hasDraftAndPublish P slug = false ->
    ~ In "publishedAt" (relationNames P slug) ->
    Forall (fun datum => json_field "publishedAt" datum = true) records ->
    importOtherSlug P records slug user idField (hasDraftAndPublish P slug)
      importAsDrafts w = (r, w') ->
    extends (top_writes unpublishable) w w'.
Proof.
  intros records slug user idField importAsDrafts w r w' Hdp Hrel HF H.
  rewrite Hdp in H. unfold importOtherSlug in H.
  destruct (importLoop P slug user idField false records w) as [r0 w0] eqn:E.
  inversion H; subst.
  eapply importLoop_extends; [|exact E].
  intros d w1 d' r1 w1' Hin Hrun.
  eapply importRecord_unpublishable; [exact Hrel| |exact Hrun].
  rewrite Forall_forall in HF. now apply HF.
Qed.

End PublishClaims.

(** ** Further properties of the upsert engine *)

Section SingleTypeFacts.

Variable DB : Store.

(** X1.  Upsert into a single-type model never sends an incoming [id]; it
    asks the store for the entities of the model; when the first one exists
    it is updated by its own [id] and nothing is created, otherwise exactly
    one entity is created; when the search fails, nothing is written. *)
Theorem upsert_single_type :
  forall (depth : nat) (slug : string) (data : obj) (w : World DB)
         (data' : obj) (r : outcome value) (w' : World DB),
    updateOrCreateSingleType depth slug data w = (data', r, w') ->
    data' = obj_delete data "id" /\
    obj_has data' "id" = false /\
    (forall m s1,
        db_findMany DB slug (store w) = (Fail m, s1) ->
        r = Err m /\ trace w' = CFindMany slug :: trace w /\ store w' = s1) /\
    (forall found s1,
        db_findMany DB slug (store w) = (Done found, s1) ->
        (truthy (hd VUndef found) = true ->
           trace w' =
             CUpdate depth slug (prop (hd VUndef found) "id") data'
             :: CFindMany slug :: trace w /\
           count_creates (trace w') = count_creates (trace w) /\
           r = of_reply
                 (fst (db_update DB slug (prop (hd VUndef found) "id") data' s1)) /\
           store w'
           = snd (db_update DB slug (prop (hd VUndef found) "id") data' s1)) /\
        (truthy (hd VUndef found) = false ->
           trace w' = CCreate depth slug data' :: CFindMany slug :: trace w /\
           count_creates (trace w') = S (count_creates (trace w)) /\
           r = of_reply (fst (db_create DB slug data' s1)) /\
           store w' = snd (db_create DB slug data' s1))).
Proof.
  intros depth slug data w data' r w' Hrun.
  pose proof (single_data DB _ _ _ _ _ _ _ Hrun) as Hd.
  split; [exact Hd|]. split; [rewrite Hd; apply obj_has_delete_same|].
  unfold updateOrCreateSingleType, call_findMany in Hrun.
  destruct (db_findMany DB slug (store w)) as [rf sf] eqn:Hf.
  destruct rf as [found|m].
  - split; [intros m s1 Heq; discriminate|].
    intros found' s1 Heq. inversion Heq; subst found' s1; clear Heq.
    destruct (truthy (hd VUndef found)) eqn:Ht; cbn [negb] in Hrun.
    + unfold call_update in Hrun. cbn [store logged] in Hrun.
      destruct (db_update DB slug (prop (hd VUndef found) "id")
                  (obj_delete data "id") sf) as [ru su] eqn:Hu.
      inversion Hrun; subst; clear Hrun.
      split; [|discriminate]. intros _. rewrite Hu. cbn. auto.
    + unfold call_create in Hrun. cbn [store logged] in Hrun.
      destruct (db_create DB slug (obj_delete data "id") sf)
        as [rc sc] eqn:Hc.
      inversion Hrun; subst; clear Hrun.
      split; [discriminate|]. intros _. rewrite Hc. cbn. auto.
  - inversion Hrun; subst; clear Hrun. split.
    + intros m' s1 Heq. inversion Heq; subst. cbn. auto.
    + intros found s1 Heq. discriminate.
Qed.


End SingleTypeFacts.

Section ResolverMore.

Variable DB : Store.
Variable uoc : upsert DB.

Lemma id_of_length (entry : value) : (List.length (id_of entry) <= 1)%nat.
Proof. unfold id_of. destruct (truthy (prop entry "id")); cbn; lia. Qed.

Lemma Resolved_length (slug : option string) (l : list value) (w : World DB)
  (ids : list value) (w' : World DB) :
  Resolved uoc slug l w ids w' -> (List.length ids <= List.length l)%nat.
Proof.
  intros H. induction H; cbn [List.length]; try lia.
  rewrite length_app. pose proof (id_of_length entry). lia.
Qed.

(** X3.  For a component attribute that is no audit field and an input that
    is not null, the resolver succeeds exactly when the upsert of every
    object entry succeeds; a repeatable component yields the array of the
    resolved identifiers, any other the first resolved identifier of its
    first entry, or null; there are never more identifiers than entries. *)
Theorem component_result_follows_repeatable :
  forall (user : User) (rel : Attribute) (relData : value) (w : World DB),
    type rel = "component" ->
    mem (name rel) auditFields = false ->
    nullish relData = false ->
    let entries :=
      if repeatable rel then toArray relData else firstn 1 (toArray relData) in
    let shape := fun ids =>
      if repeatable rel then VArr ids else firstOrNull ids in
    (forall ids w',
        Resolved uoc (component rel) entries w ids w' ->
        exists left,
          updateOrCreateRelation uoc user rel relData w
          = (left, Ok (shape ids), w')) /\
    (forall left v w',
        updateOrCreateRelation uoc user rel relData w = (left, Ok v, w') ->
        exists ids,
          Resolved uoc (component rel) entries w ids w' /\
          v = shape ids /\
          (List.length ids <= List.length entries)%nat).
Proof.
  intros user rel relData w Hty Haudit Hnull entries shape.
  unfold updateOrCreateRelation, auditFields in *.
  rewrite Hnull, Haudit, Hty. cbn [String.eqb Ascii.eqb Bool.eqb].
  fold entries. split.
  - intros ids w' HR.
    destruct (resolveEntries_complete DB uoc _ _ _ _ _ HR) as [es E].
    rewrite E. eexists. reflexivity.
  - intros left v w' H.
    destruct (resolveEntries uoc (component rel) entries w)
      as [[es r] w1] eqn:E.
    destruct r as [ids|m|]; cbn [outcome_map] in H; inversion H; subst.
    exists ids.
    assert (HR : Resolved uoc (component rel) entries w ids w')
      by (eapply resolveEntries_sound; eassumption).
    split; [exact HR|]. split; [reflexivity|].
    eapply Resolved_length; exact HR.
Qed.

(** X4.  A component that is not repeatable and a media attribute that is
    not multiple look at the first entry of an array only: what they return
    and what they ask of the store is what they do for that entry alone. *)
Theorem single_valued_attribute_uses_first_entry :
  forall (user : User) (rel : Attribute) (x : value) (rest : list value)
         (w : World DB),
    (type rel = "component" /\ repeatable rel = false) \/
    (type rel = "media" /\ multiple rel = false) ->
    snd (fst (updateOrCreateRelation uoc user rel (VArr (x :: rest)) w))
    = snd (fst (updateOrCreateRelation uoc user rel (VArr [x]) w)) /\
    snd (updateOrCreateRelation uoc user rel (VArr (x :: rest)) w)
    = snd (updateOrCreateRelation uoc user rel (VArr [x]) w).
Proof.
  intros user rel x rest w Hty.
  unfold updateOrCreateRelation. cbn [nullish toArray].
  destruct (mem (name rel) ["createdBy"; "updatedBy"]); [auto|].
  destruct Hty as [[Hty Hone]|[Hty Hone]]; rewrite Hty, Hone;
    cbn [String.eqb Ascii.eqb Bool.eqb firstn].
  - destruct (resolveEntries uoc (component rel) [x] w) as [[es r] w1].
    cbn. auto.
  - match goal with
    | |- context [resolveMedia ?u ?a [x] w] =>
        destruct (resolveMedia u a [x] w) as [r w1]
    end.
    cbn. auto.
Qed.

Lemma resolveEntries_numbers (slug : option string) (ns : list number)
  (w : World DB) :
  resolveEntries uoc slug (map VNum ns) w
  = (map VNum ns, Ok (map VNum ns), w).
Proof.
  induction ns as [|n ns IH]; cbn [map resolveEntries]; [reflexivity|].
  rewrite IH. reflexivity.
Qed.

(** X5.  Bare references need no store: for a relation attribute that is no
    audit field, an array of numbers resolves to itself and a single number
    to itself, except that the number 0 alone resolves to null; the world is
    untouched. *)
Theorem bare_references_resolve_without_store :
  forall (user : User) (rel : Attribute) (w : World DB),
    type rel = "relation" ->
    mem (name rel) auditFields = false ->
    (forall ns,
        updateOrCreateRelation uoc user rel (VArr (map VNum ns)) w
        = (VArr (map VNum ns), Ok (VArr (map VNum ns)), w)) /\
    (forall n,
        updateOrCreateRelation uoc user rel (VNum n) w
        = (VNum n, Ok (if number_eqb n 0 then VNull else VNum n), w)).
Proof.
  intros user rel w Hty Haudit.
  unfold updateOrCreateRelation, auditFields in *. split.
  - intros ns. cbn [nullish toArray isArraySafe].
    rewrite Haudit, Hty. cbn [String.eqb Ascii.eqb Bool.eqb].
    rewrite resolveEntries_numbers. cbn. now rewrite app_nil_r.
  - intros n. cbn [nullish toArray isArraySafe].
    rewrite Haudit, Hty. cbn [String.eqb Ascii.eqb Bool.eqb].
    cbn. unfold firstOrNull, js_or. cbn.
    destruct n as [z|t]; cbn; [destruct (Z.eqb z 0)|]; reflexivity.
Qed.

(** X6.  An attribute whose type is none of component, dynamiczone, media
    and relation makes the resolver fail with the error that names the type,
    without a store call; null input and the audit fields are answered
    before the type is looked at.  [updateOrCreate] hands the resolver
    attributes of the four types only. *)
Theorem unsupported_relation_type_is_named :
  forall (P : Platform) (user : User) (rel : Attribute) (relData : value)
         (w : World DB),
    mem (type rel) relationTypes = false ->
    updateOrCreateRelation uoc user rel relData w
    = (relData,
       (if nullish relData then Ok VNull
        else if mem (name rel) auditFields then Ok (user_id user)
        else Err ("Could not update or create relation of type "
                  ++ type rel ++ ".")),
       w) /\
    (forall slug a,
        In a (getModelAttributes P slug relationTypes) ->
        mem (type a) relationTypes = true).
Proof.
  intros P user rel relData w Hty. split.
  - unfold updateOrCreateRelation, auditFields.
    destruct (nullish relData); [reflexivity|].
    destruct (mem (name rel) ["createdBy"; "updatedBy"]); [reflexivity|].
    unfold mem, relationTypes in Hty. cbn [existsb] in Hty.
    rewrite !orb_false_iff in Hty. destruct Hty as (Hc & Hz & Hm & Hr & _).
    rewrite Hz, Hc, Hm, Hr. reflexivity.
  - intros slug a Hin. unfold getModelAttributes in Hin.
    destruct (getModel P slug); [|destruct Hin].
    apply filter_In in Hin. tauto.
Qed.

End ResolverMore.

Section MediaAndZones.

Variable DB : Store.
Variable uoc : upsert DB.

Lemma file_calls_cons (allowed : list string) (x : value) (l : list value) :
  file_calls allowed (x :: l)
  = (file_calls allowed l ++ [CFile x allowed])%list.
Proof. reflexivity. Qed.



Lemma resolveZone_tags :
  forall (l : list value) (w : World DB) es comps w',
    resolveZone uoc l w = (es, Ok comps, w') ->
    Forall2 tagged_as es comps /\
    List.length es = List.length l /\
    Forall (fun x => isObjectSafe x = true) l.
Proof.
  induction l as [|x l IH]; intros w es comps w' H.
  - cbn in H. inversion H; subst. repeat split; constructor.
  - destruct x; cbn [resolveZone] in H; try discriminate.
    destruct (uoc (slug_of (obj_get o "__component")) o w)
      as [[o' r1] w1] eqn:Eu.
    destruct r1 as [entry|m|]; try discriminate.
    destruct (resolveZone uoc l w1) as [[es0 r0] w0] eqn:E.
    destruct r0 as [comps0|m|]; try discriminate.
    inversion H; subst; clear H.
    destruct (IH _ _ _ _ E) as (HF & Hlen & Hobj).
    repeat split.
    + constructor; [|exact HF].
      exists o', (obj_set (spread entry) "__component"
                    (obj_get o' "__component")).
      repeat split. apply obj_get_set_same.
    + cbn. now rewrite Hlen.
    + constructor; [reflexivity|exact Hobj].
Qed.

(** X8.  A dynamic zone given as an array resolves, when it resolves, to an
    array with one component per entry, in the order of the entries, each
    carrying the [__component] tag of its entry; it resolves only when every
    entry is an object. *)
Theorem dynamic_zone_keeps_order_and_tags :
  forall (user : User) (rel : Attribute) (l : list value) (w : World DB)
         left v w',
    type rel = "dynamiczone" ->
    mem (name rel) auditFields = false ->
    updateOrCreateRelation uoc user rel (VArr l) w = (left, Ok v, w') ->
    exists es comps,
      left = VArr es /\ v = VArr comps /\
      List.length comps = List.length l /\
      Forall2 tagged_as es comps /\
      Forall (fun x => isObjectSafe x = true) l.
Proof.
  intros user rel l w left v w' Hty Haudit H.
  unfold updateOrCreateRelation, auditFields in *.
  cbn [nullish zone_entries] in H. rewrite Haudit, Hty in H.
  cbn [String.eqb Ascii.eqb Bool.eqb] in H.
  destruct (resolveZone uoc l w) as [[es r] w0] eqn:E.
  destruct r as [comps|m|]; cbn [outcome_map] in H; inversion H; subst.
  destruct (resolveZone_tags _ _ _ _ _ E) as (HF & Hlen & Hobj).
  exists es, comps. cbn [reassemble]. rewrite app_nil_r.
  repeat split; try assumption.
  rewrite <- Hlen. symmetry. eapply Forall2_length. exact HF.
Qed.

Lemma mediaLoop_trace (user : User) :
  forall (l : list value) (w : World DB) processed w',
    mediaLoop user l w = (processed, w') ->
    trace w' = (file_calls ["any"] l ++ trace w)%list /\
    List.length processed = List.length l /\
    Forall (fun f => In (data f) l) (failuresOf processed).
Proof.
  induction l as [|x l IH]; intros w processed w' H.
  - cbn in H. inversion H; subst. repeat split. constructor.
  - cbn [mediaLoop] in H. unfold call_file in H.
    destruct (findOrImportFile DB x user ["any"] (store w)) as [rf sf].
    destruct (mediaLoop user l (logged (CFile x ["any"]) sf w))
      as [processed0 w0] eqn:E.
    destruct (IH _ _ _ E) as (Ht & Hlen & HF).
    inversion H; subst; clear H. repeat split.
    + rewrite file_calls_cons, <- app_assoc. exact Ht.
    + cbn. now rewrite Hlen.
    + assert (HF' : Forall (fun f => In (data f) (x :: l))
                      (failuresOf processed0)).
      { eapply Forall_impl; [|exact HF]. intros f Hf. now right. }
      destruct rf as [media|m]; unfold failuresOf; cbn; [exact HF'|].
      constructor; [now left|exact HF'].
Qed.

Lemma importMedia_run (user : User) (fileData : list value) (w : World DB) :
  exists failures w',
    importMedia fileData user w = (Ok failures, w') /\
    trace w' = (file_calls ["any"] fileData ++ trace w)%list.
Proof.
  unfold importMedia.
  destruct (mediaLoop user fileData w) as [processed w'] eqn:E.
  destruct (mediaLoop_trace user _ _ _ _ E) as (Ht & _ & _).
  exists (failuresOf processed), w'. split; [reflexivity|exact Ht].
Qed.

(** X9.  The media import never fails as a whole and never touches the
    entity store: it asks the file collaborator once per datum, in order,
    with every file type allowed, and reports as failures only data of the
    input, at most one per datum. *)
Theorem importMedia_isolates_files :
  forall (fileData : list value) (user : User) (w : World DB),
    exists failures w',
      importMedia fileData user w = (Ok failures, w') /\
      trace w' = (file_calls ["any"] fileData ++ trace w)%list /\
      (List.length failures <= List.length fileData)%nat /\
      Forall (fun f => In (data f) fileData) failures.
Proof.
  intros fileData user w. unfold importMedia.
  destruct (mediaLoop user fileData w) as [processed w'] eqn:E.
  destruct (mediaLoop_trace user _ _ _ _ E) as (Ht & Hlen & HF).
  exists (failuresOf processed), w'. repeat split; try assumption.
  unfold failuresOf. rewrite length_map, <- Hlen. apply filter_length_le.
Qed.

End MediaAndZones.

(** ** Further properties of the import loop *)

Section LoopMore.

Variable DB : Store.
Variable P : Platform.

(** X10.  An attempt changes a record only at the relational attributes of
    the model, at [id] and at the publish-state field: on every other field
    the record every attempt leaves, and so the data of every failure
    entry, reads as the source record did. *)
Theorem attempts_keep_scalar_fields :
  forall (records : list obj) (slug : string) (user : User)
         (idField : option string) (hasDP : bool) (w : World DB),
    Forall2 (fun datum dr => same_scalars P slug datum (fst dr))
      records (fst (attempts P slug user idField hasDP records w)).
Proof.
  intros records slug user idField hasDP w. apply attempts_frame.
Qed.

(** X11.  For a model that supports draft/publish the import loop leaves
    the publish-state alone: a record is written, through create or through
    update, with the publish-state field it came with.  (The publish-state
    field is no relational attribute of the model.) *)
Theorem publish_state_is_kept_with_draft_support :
  forall (slug : string) (user : User) (idField : option string)
         (datum : obj) (w : World DB) d' r w',
    ~ In "publishedAt" (relationNames P slug) ->
    importRecord P slug user idField true datum w = (d', r, w') ->
    obj_get d' "publishedAt" = obj_get datum "publishedAt" /\
    extends
      (top_writes
         (fun d => obj_get d "publishedAt" = obj_get datum "publishedAt"))
      w w'.
Proof.
  intros slug user idField datum w d' r w' Hrel H. split.
  - unfold importRecord in H. cbn [negb andb] in H.
    destruct (negb (stringifiable (itemLabel datum idField)));
      [inversion H; subst; reflexivity|].
    eapply updateOrCreate_frame; [exact H|exact Hrel|discriminate].
  - unfold importRecord in H. cbn [negb andb] in H.
    destruct (negb (stringifiable (itemLabel datum idField)));
      [inversion H; subst; apply extends_refl|].
    eapply updateOrCreate_top; [| | |exact H].
    + intros o Ho. rewrite obj_get_delete_other; [exact Ho|discriminate].
    + intros uoc a o w0 x res w0' Hin _ Ho.
      rewrite obj_get_set_other; [exact Ho|].
      intros Heq. apply Hrel. rewrite <- Heq. unfold relationNames.
      now apply in_map.
    + reflexivity.
Qed.

(** X12.  An import into a slug that names no model writes nothing: every
    record is reported as a failure, with the record as data (less its
    publish-state field; untouched when the loop could not even print its
    label), and the world is as it was. *)
Theorem unknown_model_fails_every_record :
  forall (records : list obj) (slug : string) (user : User)
         (idField : option string) (importAsDrafts : bool) (w : World DB),
    getModel P slug = None ->
    exists failures,
      importOtherSlug P records slug user idField
        (hasDraftAndPublish P slug) importAsDrafts w = (Ok failures, w) /\
      map data failures
      = map (fun datum =>
               VObj (if stringifiable (itemLabel datum idField)
                        && defined (obj_get datum "publishedAt")
                     then obj_delete datum "publishedAt" else datum))
          records.
Proof.
  intros records slug user idField importAsDrafts w Hm.
  unfold importOtherSlug, hasDraftAndPublish. rewrite Hm.
  assert (Hrec : forall datum,
             exists m,
               importRecord P slug user idField false datum w
               = (if stringifiable (itemLabel datum idField)
                     && defined (obj_get datum "publishedAt")
                  then obj_delete datum "publishedAt" else datum,
                  Err m, w)).
  { intros datum. unfold importRecord. cbn [negb andb].
    destruct (stringifiable (itemLabel datum idField)); cbn [negb andb];
      [|eexists; reflexivity].
    set (d := if defined (obj_get datum "publishedAt")
              then obj_delete datum "publishedAt" else datum).
    cbn [vdepth updateOrCreate]. unfold getModelAttributes. rewrite Hm.
    eexists. reflexivity. }
  induction records as [|d records IH].
  - exists []. split; reflexivity.
  - destruct IH as [failures [E F]]. cbn [importLoop].
    destruct (Hrec d) as [m0 ->].
    destruct (importLoop P slug user idField false records w)
      as [r0 w0] eqn:El.
    destruct r0 as [processed|m|]; cbn [outcome_map] in E;
      inversion E; subst.
    eexists. split; [reflexivity|].
    unfold failuresOf in *. cbn. now rewrite F.
Qed.

End LoopMore.

(** ** Further properties of importData and of the controller *)

Section EntryMore.

Variable DB : Store.
Variable P : Platform.
Variable importDataV2 :
  value -> string -> User -> option string -> bool -> World DB ->
  option (outcome (list Failure) * World DB).



(** X14.  For a model without draft/publish support the draft option of the
    caller has no effect at all: omitted, true or false, [importData] does
    the same. *)
Theorem draft_option_ignored_without_draft_support :
  forall (dataRaw : value) (slug format : string) (user : User)
         (idField : option string) (d1 d2 : option bool) (w : World DB),
    hasDraftAndPublish P slug = false ->
    importData P dataRaw slug format user idField d1 w
    = importData P dataRaw slug format user idField d2 w.
Proof.
  intros dataRaw slug format user idField d1 d2 w Hdp.
  unfold importData, importOtherSlug. rewrite Hdp. reflexivity.
Qed.

End EntryMore.

(** ** Further properties of the parsers *)

Section CsvMore.

Variable P : Platform.

Lemma NoDup_map_inj {A B : Type} (f : A -> B) (l : list A) (a b : A) :
  NoDup (map f l) -> In a l -> In b l -> f a = f b -> a = b.
Proof.
  induction l as [|x l IH]; intros Hnd Ha Hb Hf; [destruct Ha|].
  cbn in Hnd. inversion Hnd as [|? ? Hnin Hnd']; subst.
  destruct Ha as [->|Ha], Hb as [->|Hb]; auto.
  - exfalso. apply Hnin. rewrite Hf. now apply in_map.
  - exfalso. apply Hnin. rewrite <- Hf. now apply in_map.
Qed.

(** An attribute has one type: under distinct names, the names of two
    disjoint type classes are disjoint. *)
Lemma type_classes_disjoint (slug : string) (l1 l2 : list string) (n : string) :
  wf_schema P ->
  (forall t, mem t l1 = true -> mem t l2 = false) ->
  In n (map name (getModelAttributes P slug l1)) ->
  ~ In n (map name (getModelAttributes P slug l2)).
Proof.
  intros Hwf Hdis H1 H2. unfold getModelAttributes in *.
  destruct (getModel P slug) as [m|] eqn:Hm; [|destruct H1].
  apply in_map_iff in H1. destruct H1 as [a [Ha H1]].
  apply in_map_iff in H2. destruct H2 as [b [Hb H2]].
  apply filter_In in H1. apply filter_In in H2.
  destruct H1 as [Hai Hat], H2 as [Hbi Hbt].
  assert (a = b).
  { eapply (NoDup_map_inj name); [eapply Hwf; exact Hm| | |]; congruence. }
  subst b. rewrite (Hdis _ Hat) in Hbt. discriminate.
Qed.

Lemma class_names_NoDup (slug : string) (l : list string) :
  wf_schema P -> NoDup (map name (getModelAttributes P slug l)).
Proof.
  intros Hwf. unfold getModelAttributes.
  destruct (getModel P slug) as [m|] eqn:Hm; [|constructor].
  apply NoDup_names_filter. eapply Hwf; exact Hm.
Qed.

Lemma fold_left_other (f : obj -> string -> obj) (n : string) :
  (forall d n', n' <> n -> obj_get (f d n') n = obj_get d n) ->
  forall names d,
    ~ In n names -> obj_get (fold_left f names d) n = obj_get d n.
Proof.
  intros Hf. induction names as [|n0 names IH]; intros d Hnin;
    cbn [fold_left]; [reflexivity|].
  rewrite IH by (intros H; apply Hnin; now right).
  apply Hf. intros ->. apply Hnin. now left.
Qed.

Lemma fold_left_cell (f : obj -> string -> obj) (n : string)
  (cell : value -> value) :
  (forall d, obj_get (f d n) n = cell (obj_get d n)) ->
  (forall d n', n' <> n -> obj_get (f d n') n = obj_get d n) ->
  forall names d,
    NoDup names -> In n names ->
    obj_get (fold_left f names d) n = cell (obj_get d n).
Proof.
  intros Hsame Hother. induction names as [|n0 names IH];
    intros d Hnd Hin; [destruct Hin|].
  inversion Hnd as [|? ? Hnin Hnd']; subst. cbn [fold_left].
  destruct (String.eqb_spec n0 n) as [->|Hne].
  - rewrite fold_left_other by assumption. apply Hsame.
  - destruct Hin as [Heq|Hin]; [contradiction|].
    rewrite IH by assumption. f_equal. now apply Hother.
Qed.

Lemma csvDate_other (datum : obj) (n n' : string) :
  n' <> n -> obj_get (csvDate P datum n') n = obj_get datum n.
Proof.
  intros Hne. unfold csvDate.
  repeat match goal with
         | |- context [if ?b then _ else _] => destruct b
         | |- context [match ?x with Some _ => _ | None => _ end] => destruct x
         end; try reflexivity; now apply obj_get_set_other.
Qed.

Lemma csvBoolean_other (datum : obj) (n n' : string) :
  n' <> n -> obj_get (csvBoolean datum n') n = obj_get datum n.
Proof.
  intros Hne. unfold csvBoolean.
  repeat match goal with
         | |- context [if ?b then _ else _] => destruct b
         end; try reflexivity; now apply obj_get_set_other.
Qed.

Lemma csvRelation_other' (datum : obj) (n n' : string) :
  n' <> n -> obj_get (csvRelation P datum n') n = obj_get datum n.
Proof. intros H. now apply csvRelation_other. Qed.

Lemma csvNumber_other (datum : obj) (n n' : string) :
  n' <> n -> obj_get (csvNumber P datum n') n = obj_get datum n.
Proof. intros H. now apply csvNumber_keeps_other. Qed.

(** The publish-state step of the row function leaves the other fields. *)
Lemma publish_step_other (slug : string) (importAsDrafts : bool) (d : obj)
  (n : string) :
  n <> "publishedAt" ->
  obj_get
    (if hasDraftAndPublish P slug && importAsDrafts
     then obj_set d "publishedAt" VNull
     else if negb (hasDraftAndPublish P slug)
             && defined (obj_get d "publishedAt")
     then obj_delete d "publishedAt" else d) n
  = obj_get d n.
Proof.
  intros Hne.
  destruct (hasDraftAndPublish P slug && importAsDrafts);
    [apply obj_get_set_other; congruence|].
  destruct (negb (hasDraftAndPublish P slug)
            && defined (obj_get d "publishedAt")); [|reflexivity].
  apply obj_get_delete_other. congruence.
Qed.

(** What the four loops of the row function make of the field [n], given
    what each loop makes of it. *)
Lemma parseCsvRow_field (slug : string) (importAsDrafts : bool) (datum : obj)
  (n : string) :
  n <> "publishedAt" ->
  obj_get (parseCsvRow P slug importAsDrafts datum) n
  = obj_get
      (fold_left (csvNumber P) (numberFields P slug)
         (fold_left csvBoolean (booleanFields P slug)
            (fold_left (csvDate P) (dateTimeFields P slug)
               (fold_left (csvRelation P) (relationNames P slug) datum)))) n.
Proof. intros Hne. unfold parseCsvRow. now apply publish_step_other. Qed.

Ltac other_class :=
  let t := fresh "t" in let H := fresh "H" in
  intros t H; unfold mem, relationTypes in *; cbn [existsb] in H;
  repeat rewrite orb_true_iff in H;
  repeat (destruct H as [H|H]);
  try discriminate; apply String.eqb_eq in H; subst t; reflexivity.

Lemma csvBoolean_same (datum : obj) (n : string) :
  obj_get (csvBoolean datum n) n = booleanCell (obj_get datum n).
Proof.
  unfold csvBoolean, booleanCell.
  destruct (defined (obj_get datum n)) eqn:Hd.
  - repeat match goal with
           | |- context [if ?b then _ else _] => destruct b
           end; try reflexivity; apply obj_get_set_same.
  - destruct (obj_get datum n); try discriminate. reflexivity.
Qed.

Lemma csvNumber_same (datum : obj) (n : string) :
  obj_get (csvNumber P datum n) n = numberCell P (obj_get datum n).
Proof.
  unfold csvNumber, numberCell.
  repeat match goal with
         | |- context [if ?b then _ else _] => destruct b
         | |- context [match ?x with Some _ => _ | None => _ end] => destruct x
         end; try reflexivity; apply obj_get_set_same.
Qed.

Lemma csvDate_same (datum : obj) (n : string) :
  obj_get (csvDate P datum n) n = dateCell P (obj_get datum n).
Proof.
  unfold csvDate, dateCell.
  repeat match goal with
         | |- context [if ?b then _ else _] => destruct b
         | |- context [match ?x with Some _ => _ | None => _ end] => destruct x
         end; try reflexivity; apply obj_get_set_same.
Qed.

Lemma csvRelation_decoded (datum : obj) (n : string) :
  obj_get (csvRelation P datum n) n = relationCell P (obj_get datum n).
Proof.
  unfold csvRelation, relationCell.
  repeat match goal with
         | |- context [if ?b then _ else _] => destruct b
         | |- context [match ?x with Some _ => _ | None => _ end] => destruct x
         end; apply obj_get_set_same.
Qed.





(** X15.  In a delimited-text row the cell of a boolean attribute is read by
    a fixed vocabulary: "true", "1" and true give true; "false", "0" and
    false give false; "null" and the empty text give null; anything else,
    and a missing cell, is left as it is. *)
Theorem csv_boolean_vocabulary :
  forall (slug : string) (importAsDrafts : bool) (datum : obj) (n : string),
    wf_schema P ->
    In n (booleanFields P slug) ->
    n <> "publishedAt" ->
    obj_get (parseCsvRow P slug importAsDrafts datum) n
    = (let c := obj_get datum n in
       if is_str c "true" || is_str c "1" || is_bool c true then VBool true
       else if is_str c "false" || is_str c "0" || is_bool c false
       then VBool false
       else if is_str c "null" || is_str c "" then VNull
       else c).
Proof.
  intros slug importAsDrafts datum n Hwf Hin Hpub.
  rewrite parseCsvRow_field by assumption.
  rewrite (fold_left_other (csvNumber P) n (fun d n' => csvNumber_other d n n')).
  2: { eapply type_classes_disjoint; [exact Hwf| |exact Hin]. other_class. }
  rewrite (fold_left_cell csvBoolean n booleanCell (fun d => csvBoolean_same d n)
             (fun d n' => csvBoolean_other d n n')).
  2: { apply class_names_NoDup. exact Hwf. }
  2: { exact Hin. }
  rewrite (fold_left_other (csvDate P) n (fun d n' => csvDate_other d n n')).
  2: { eapply type_classes_disjoint; [exact Hwf| |exact Hin]. other_class. }
  rewrite (fold_left_other (csvRelation P) n (fun d n' => csvRelation_other' d n n')).
  2: { eapply type_classes_disjoint; [exact Hwf| |exact Hin]. other_class. }
  reflexivity.
Qed.

(** X16.  In a delimited-text row the text in the cell of a number attribute
    (integer, biginteger, float, decimal) becomes the number [Number] gives
    for it, integer or not, or null when [Number] gives NaN; "null" and the
    empty text give null; a missing cell stays missing. *)
Theorem csv_number_coercion :
  forall (slug : string) (importAsDrafts : bool) (datum : obj) (n : string),
    wf_schema P ->
    In n (numberFields P slug) ->
    n <> "publishedAt" ->
    (obj_get datum n = VUndef \/ exists text, obj_get datum n = VStr text) ->
    obj_get (parseCsvRow P slug importAsDrafts datum) n
    = (let c := obj_get datum n in
       if defined c && negb (is_str c "") && negb (is_str c "null")
       then match toNumber P c with
            | Some k => VNum k
            | None => VNull
            end
       else if is_str c "null" || is_str c "" then VNull
       else c).
Proof.
  intros slug importAsDrafts datum n Hwf Hin Hpub _.
  rewrite parseCsvRow_field by assumption.
  rewrite (fold_left_cell (csvNumber P) n (numberCell P)
             (fun d => csvNumber_same d n)
             (fun d n' => csvNumber_other d n n')).
  2: { apply class_names_NoDup. exact Hwf. }
  2: { exact Hin. }
  rewrite (fold_left_other csvBoolean n (fun d n' => csvBoolean_other d n n')).
  2: { eapply type_classes_disjoint; [exact Hwf| |exact Hin]. other_class. }
  rewrite (fold_left_other (csvDate P) n (fun d n' => csvDate_other d n n')).
  2: { eapply type_classes_disjoint; [exact Hwf| |exact Hin]. other_class. }
  rewrite (fold_left_other (csvRelation P) n (fun d n' => csvRelation_other' d n n')).
  2: { eapply type_classes_disjoint; [exact Hwf| |exact Hin]. other_class. }
  reflexivity.
Qed.

(** X17.  In a delimited-text row the cell of a datetime, date or time
    attribute is re-encoded to the canonical timestamp when it parses as a
    date and left untouched when it does not; "null" and the empty text
    give null. *)
Theorem csv_datetime_canonical :
  forall (slug : string) (importAsDrafts : bool) (datum : obj) (n : string),
    wf_schema P ->
    In n (dateTimeFields P slug) ->
    n <> "publishedAt" ->
    obj_get (parseCsvRow P slug importAsDrafts datum) n
    = (let c := obj_get datum n in
       if truthy c && negb (is_str c "null") && negb (is_str c "")
       then match parseDate P c with
            | Some iso => VStr iso
            | None => c
            end
       else if is_str c "null" || is_str c "" then VNull
       else c).
Proof.
  intros slug importAsDrafts datum n Hwf Hin Hpub.
  rewrite parseCsvRow_field by assumption.
  rewrite (fold_left_other (csvNumber P) n (fun d n' => csvNumber_other d n n')).
  2: { eapply type_classes_disjoint; [exact Hwf| |exact Hin]. other_class. }
  rewrite (fold_left_other csvBoolean n (fun d n' => csvBoolean_other d n n')).
  2: { eapply type_classes_disjoint; [exact Hwf| |exact Hin]. other_class. }
  rewrite (fold_left_cell (csvDate P) n (dateCell P) (fun d => csvDate_same d n)
             (fun d n' => csvDate_other d n n')).
  2: { apply class_names_NoDup. exact Hwf. }
  2: { exact Hin. }
  rewrite (fold_left_other (csvRelation P) n (fun d n' => csvRelation_other' d n n')).
  2: { eapply type_classes_disjoint; [exact Hwf| |exact Hin]. other_class. }
  reflexivity.
Qed.

(** X18.  In a delimited-text row the cell of a relation, component, media
    or dynamic-zone attribute that holds well-formed JSON is replaced by the
    decoded value. *)
Theorem csv_relation_cell_decoded :
  forall (slug : string) (importAsDrafts : bool) (datum : obj) (n : string)
         (v : value),
    wf_schema P ->
    In n (relationNames P slug) ->
    n <> "publishedAt" ->
    truthy (obj_get datum n) = true ->
    is_str (obj_get datum n) "null" = false ->
    is_str (obj_get datum n) "undefined" = false ->
    JSON_parse P (obj_get datum n) = Some v ->
    obj_get (parseCsvRow P slug importAsDrafts datum) n = v.
Proof.
  intros slug importAsDrafts datum n v Hwf Hin Hpub Ht Hnull Hundef Hparse.
  rewrite parseCsvRow_field by assumption.
  rewrite (fold_left_other (csvNumber P) n (fun d n' => csvNumber_other d n n')).
  2: { eapply (type_classes_disjoint slug relationTypes);
         [exact Hwf| |exact Hin]. other_class. }
  rewrite (fold_left_other csvBoolean n (fun d n' => csvBoolean_other d n n')).
  2: { eapply (type_classes_disjoint slug relationTypes);
         [exact Hwf| |exact Hin]. other_class. }
  rewrite (fold_left_other (csvDate P) n (fun d n' => csvDate_other d n n')).
  2: { eapply (type_classes_disjoint slug relationTypes);
         [exact Hwf| |exact Hin]. other_class. }
  rewrite (fold_left_cell (csvRelation P) n (relationCell P)
             (fun d => csvRelation_decoded d n) (fun d n' => csvRelation_other' d n n')).
  2: { apply class_names_NoDup. exact Hwf. }
  2: { exact Hin. }
  unfold relationCell. rewrite Ht, Hnull, Hundef, Hparse.
  assert (He : is_str (obj_get datum n) "" = false).
  { destruct (obj_get datum n); try reflexivity. cbn in Ht |- *.
    now apply negb_true_iff in Ht. }
  rewrite He. reflexivity.
Qed.

(** X19.  The row function leaves alone every column that is no relational,
    date, boolean or number attribute of the model and is not the
    publish-state field. *)
Theorem csv_other_columns_untouched :
  forall (slug : string) (importAsDrafts : bool) (datum : obj) (n : string),
    ~ In n (relationNames P slug) ->
    ~ In n (dateTimeFields P slug) ->
    ~ In n (booleanFields P slug) ->
    ~ In n (numberFields P slug) ->
    n <> "publishedAt" ->
    obj_get (parseCsvRow P slug importAsDrafts datum) n = obj_get datum n.
Proof.
  intros slug importAsDrafts datum n Hr Hd Hb Hn Hpub.
  rewrite parseCsvRow_field by assumption.
  rewrite (fold_left_other (csvNumber P) n (fun d n' => csvNumber_other d n n')) by assumption.
  rewrite (fold_left_other csvBoolean n (fun d n' => csvBoolean_other d n n')) by assumption.
  rewrite (fold_left_other (csvDate P) n (fun d n' => csvDate_other d n n')) by assumption.
  now rewrite (fold_left_other (csvRelation P) n (fun d n' => csvRelation_other' d n n')).
Qed.

End CsvMore.

Section JsonMore.

Variable P : Platform.

(** X20.  The structured-export parser, on an array: for a model that
    supports draft/publish and draft mode on, every item comes back as an
    object with a null publish-state and its other fields; with draft mode
    off the array comes back as decoded; for a model without draft/publish
    every item comes back as an object without the publish-state field and
    with its other fields, unless an item is null, which fails the whole
    parse. *)
Theorem parseJson_normalises_each_item :
  forall (dataRaw : value) (slug : string) (importAsDrafts : option bool)
         (l : list value),
    JSON_parse P dataRaw = Some (VArr l) ->
    (hasDraftAndPublish P slug = true -> dflt importAsDrafts = true ->
     exists l',
       parseJson P dataRaw slug importAsDrafts = Ok (VArr l') /\
       Forall2 same_fields_but_publish l l' /\
       Forall draft_value l') /\
    (hasDraftAndPublish P slug = true -> dflt importAsDrafts = false ->
     parseJson P dataRaw slug importAsDrafts = Ok (VArr l)) /\
    (hasDraftAndPublish P slug = false ->
     (Forall (fun item => nullish item = false) l ->
      exists l',
        parseJson P dataRaw slug importAsDrafts = Ok (VArr l') /\
        Forall2 same_fields_but_publish l l' /\
        Forall (fun y => exists o, y = VObj o /\ unpublishable o) l') /\
     (Exists (fun item => nullish item = true) l ->
      exists m, parseJson P dataRaw slug importAsDrafts = Err m)).
Proof.
  intros dataRaw slug importAsDrafts l Hparse.
  unfold parseJson. rewrite Hparse. clear Hparse. split; [|split].
  - intros Hdp Hd. rewrite Hdp, Hd. cbn [andb]. eexists.
    split; [reflexivity|]. split.
    + clear. induction l as [|x l IH]; cbn [map]; constructor; [|exact IH].
      eexists. split; [reflexivity|].
      intros k Hk. apply obj_get_set_other. congruence.
    + apply Forall_forall. intros y Hin. apply in_map_iff in Hin.
      destruct Hin as [x [<- _]]. cbn. apply obj_get_set_same.
  - intros Hdp Hd. rewrite Hdp, Hd. reflexivity.
  - intros Hdp. rewrite Hdp. cbn [andb negb]. split.
    + intros Hall. induction Hall as [|x l0 Hx Hall IH].
      * exists []. repeat split; constructor.
      * destruct IH as (l' & E & HF & HU).
        cbn [mapOutcome]. unfold restWithoutPublishedAt at 1. rewrite Hx.
        destruct (mapOutcome restWithoutPublishedAt l0) as [ys|m|];
          cbn [outcome_map] in E; inversion E; subst.
        eexists. split; [reflexivity|]. split; constructor; auto.
        -- eexists. split; [reflexivity|].
           intros k Hk. apply obj_get_delete_other. congruence.
        -- eexists. split; [reflexivity|]. apply obj_has_delete_same.
    + intros Hex. exists typeErrorMsg.
      induction Hex as [x l0 Hx|x l0 Hex IH].
      * cbn [mapOutcome]. unfold restWithoutPublishedAt at 1. rewrite Hx.
        reflexivity.
      * cbn [mapOutcome]. unfold restWithoutPublishedAt at 1.
        destruct (nullish x); [reflexivity|].
        destruct (mapOutcome restWithoutPublishedAt l0) as [ys|m|];
          cbn [outcome_map] in IH |- *; congruence.
Qed.

End JsonMore.

Section PostgresMore.

Variable P : Platform.

Lemma transformPostgres_record (hasDP importAsDrafts : bool) (item y : value) :
  transformPostgres P hasDP importAsDrafts item = Ok y ->
  postgres_record P hasDP item y.
Proof.
  unfold transformPostgres. destruct (nullish item); [discriminate|].
  intros H.
  assert (Hv : truthy (js_or (prop item "version") (VStr "main")) = true).
  { unfold js_or. destruct (truthy (prop item "version")) eqn:E; auto. }
  assert (Hc : forall c, prop item "configuration" = VStr c ->
                         match prop item "configuration" with
                         | VStr c0 => VStr c0
                         | c0 => JSON_stringify P c0
                         end = VStr c)
    by (intros c ->; reflexivity).
  destruct (prop item "published_at") eqn:Epub; cbn [defined] in H;
    repeat match type of H with
           | context [if ?b then _ else _] => destruct b
           | context [parseDate P ?v] => destruct (parseDate P v)
           end;
    try discriminate; inversion H; subst; clear H;
    (eexists; split; [reflexivity|]);
    cbn; repeat split; auto; try discriminate.
Qed.

Lemma postgres_rows (data : value) :
  (if isArraySafe data then toArray data else [data]) = toArray data.
Proof. destruct data; reflexivity. Qed.

Lemma transformPostgres_ok (hasDP importAsDrafts : bool) (item : value) :
  nullish item = false ->
  stringifiable (prop item "name") = true ->
  stringifiable (prop item "published_at") = true ->
  exists y, transformPostgres P hasDP importAsDrafts item = Ok y.
Proof.
  intros Hn Hname Hdate. unfold transformPostgres. rewrite Hn, Hname.
  cbn [negb].
  destruct hasDP; [|eexists; reflexivity].
  destruct importAsDrafts; [eexists; reflexivity|].
  destruct (prop item "published_at") eqn:Epub; cbn [defined];
    try rewrite Hdate; cbn [stringifiable negb];
    try match goal with
        | |- context [parseDate P ?v] => destruct (parseDate P v)
        end; eexists; reflexivity.
Qed.

Lemma postgres_rows_ok (hasDP importAsDrafts : bool) (l : list value) :
  Forall (fun item => nullish item = false) l ->
  Forall (fun item => stringifiable (prop item "name") = true /\
                      stringifiable (prop item "published_at") = true) l ->
  exists ys,
    mapOutcome (transformPostgres P hasDP importAsDrafts) l = Ok ys /\
    Forall2 (postgres_record P hasDP) l ys.
Proof.
  intros Hall. induction Hall as [|x l Hx Hall IH]; intros Hprint.
  - exists []. split; [reflexivity|constructor].
  - inversion Hprint as [|? ? [Hname Hdate] Hrest]; subst.
    destruct (IH Hrest) as (ys & E & HF). cbn [mapOutcome].
    destruct (transformPostgres_ok hasDP importAsDrafts x Hx Hname Hdate)
      as [y Ef].
    rewrite Ef, E. exists (y :: ys). split; [reflexivity|].
    constructor; [|exact HF].
    eapply transformPostgres_record. exact Ef.
Qed.

Lemma transformPostgres_finishes (hasDP importAsDrafts : bool) (x : value) :
  transformPostgres P hasDP importAsDrafts x <> OutOfFuel.
Proof.
  unfold transformPostgres.
  repeat match goal with
         | |- context [if ?b then _ else _] => destruct b
         | |- context [match parseDate P ?v with _ => _ end] =>
             destruct (parseDate P v)
         | |- context [match prop ?i "published_at" with _ => _ end] =>
             destruct (prop i "published_at")
         end; discriminate.
Qed.

Lemma postgres_rows_err (hasDP importAsDrafts : bool) (l : list value) :
  Exists (fun item => nullish item = true) l ->
  exists m, mapOutcome (transformPostgres P hasDP importAsDrafts) l = Err m.
Proof.
  intros Hex. induction Hex as [x l Hx|x l Hex IH]; cbn [mapOutcome].
  - unfold transformPostgres. rewrite Hx. eexists. reflexivity.
  - pose proof (transformPostgres_finishes hasDP importAsDrafts x) as Hfin.
    destruct (transformPostgres P hasDP importAsDrafts x) as [y|m|].
    + destruct IH as [m ->]. eexists. reflexivity.
    + eexists. reflexivity.
    + exfalso. now apply Hfin.
Qed.

Lemma nullish_rows (l : list value) :
  Forall (fun item => nullish item = false) l \/
  Exists (fun item => nullish item = true) l.
Proof.
  induction l as [|x l [IH|IH]].
  - left. constructor.
  - destruct (nullish x) eqn:E; [right; now left|left; now constructor].
  - right. now right.
Qed.

(** X21.  The foreign-dump parser, when every row is an object (or any
    value but null and undefined) whose name and publish date can be
    printed, delivers one record per row, in order; a record has the fields
    name, configuration and version, and the publish-state field at most;
    the name is the row's, a text configuration is the row's, the version is
    never empty, no [id] is taken over, and for a model without
    draft/publish there is no publish-state field. *)
Theorem postgres_delivers_one_record_per_row :
  forall (dataRaw : value) (slug : string) (importAsDrafts : option bool)
         (data : value),
    JSON_parse P dataRaw = Some data ->
    Forall (fun item => nullish item = false) (toArray data) ->
    Forall (fun item => stringifiable (prop item "name") = true /\
                        stringifiable (prop item "published_at") = true)
      (toArray data) ->
    exists ys,
      parsePostgresJson P dataRaw slug importAsDrafts = Ok (VArr ys) /\
      Forall2 (postgres_record P (hasDraftAndPublish P slug))
        (toArray data) ys.
Proof.
  intros dataRaw slug importAsDrafts data Hparse Hall Hprint.
  unfold parsePostgresJson. rewrite Hparse, postgres_rows.
  destruct (postgres_rows_ok (hasDraftAndPublish P slug)
              (dflt importAsDrafts) _ Hall Hprint) as (ys & E & HF).
  rewrite E. exists ys. split; [reflexivity|exact HF].
Qed.

(** X22.  The foreign-dump parser fails as a whole: text that is no JSON,
    or one row that is null, fails the parse of every row, and the error
    always carries the prefix of the parser. *)
Theorem postgres_fails_as_a_whole :
  forall (dataRaw : value) (slug : string) (importAsDrafts : option bool),
    (JSON_parse P dataRaw = None ->
     exists m0,
       parsePostgresJson P dataRaw slug importAsDrafts
       = Err ("Failed to parse PostgreSQL JSON: " ++ m0)) /\
    (forall data,
        JSON_parse P dataRaw = Some data ->
        Exists (fun item => nullish item = true) (toArray data) ->
        exists m0,
          parsePostgresJson P dataRaw slug importAsDrafts
          = Err ("Failed to parse PostgreSQL JSON: " ++ m0)) /\
    (forall m,
        parsePostgresJson P dataRaw slug importAsDrafts = Err m ->
        exists m0, m = "Failed to parse PostgreSQL JSON: " ++ m0).
Proof.
  intros dataRaw slug importAsDrafts.
  unfold parsePostgresJson.
  destruct (JSON_parse P dataRaw) as [data|].
  - rewrite postgres_rows.
    split; [intros; discriminate|]. split.
    + intros data' Heq Hex. inversion Heq; subst.
      destruct (postgres_rows_err (hasDraftAndPublish P slug)
                  (dflt importAsDrafts) _ Hex) as [m ->].
      cbn [outcome_map]. eexists. reflexivity.
    + intros m Hm.
      destruct (mapOutcome
                  (transformPostgres P (hasDraftAndPublish P slug)
                     (dflt importAsDrafts)) (toArray data)) as [ys|m1|];
        cbn [outcome_map] in Hm; inversion Hm; subst.
      eexists. reflexivity.
  - split; [intros; eexists; reflexivity|]. split; [intros; discriminate|].
    intros m Hm. inversion Hm; subst. eexists. reflexivity.
Qed.

End PostgresMore.

Section ControllerMore.

Variable DB : Store.
Variable P : Platform.
Variable importDataV2 :
  value -> string -> User -> option string -> bool -> World DB ->
  option (outcome (list Failure) * World DB).

Lemma importData_jso_drafts :
  forall (data : value) (slug : string) (user : User)
         (idField : option string) (importAsDrafts : option bool)
         (w : World DB) r w',
    hasDraftAndPublish P slug = true ->
    Forall draft_value (toArray data) ->
    importData P data slug "jso" user idField importAsDrafts w
    = Some (r, w') ->
    extends (top_writes draft) w w'.
Proof.
  intros data slug user idField importAsDrafts w r w' Hdp HF H.
  unfold importData in H. cbn [String.eqb Ascii.eqb Bool.eqb] in H.
  rewrite Hdp in H.
  destruct (String.eqb slug (mediaSlug P)).
  - unfold importMedia in H.
    destruct (mediaLoop user (toArray data) w) as [processed w0] eqn:E.
    inversion H; subst.
    eapply mediaLoop_extends; [apply top_writes_reads_free|exact E].
  - destruct (records_of (toArray data)) as [records|] eqn:Hrec;
      [|discriminate].
    assert (HR : Forall draft records)
      by (eapply records_of_Forall; [exact HF|exact Hrec]).
    unfold importOtherSlug in H.
    destruct (importLoop P slug user idField true records w)
      as [r0 w0] eqn:E.
    inversion H; subst.
    eapply importLoop_extends; [|exact E].
    intros d w1 d' r1 w1' Hin Hrun.
    eapply importRecord_draft; [|exact Hrun].
    rewrite Forall_forall in HR. now apply HR.
Qed.

Lemma mapOutcome_finishes (f : value -> outcome value) (l : list value) :
  (forall x, f x <> OutOfFuel) -> mapOutcome f l <> OutOfFuel.
Proof.
  intros Hf. induction l as [|x l IH]; cbn [mapOutcome]; [discriminate|].
  pose proof (Hf x) as Hx. destruct (f x) as [y|m|]; try discriminate;
    [|congruence].
  destruct (mapOutcome f l); cbn; congruence.
Qed.

(** The parsers are no recursion of the embedding: they return or raise. *)
Lemma parseInputData_finishes (format : string) (dataRaw : value)
  (slug : string) (d : option bool) :
  parseInputData P format dataRaw slug d <> OutOfFuel.
Proof.
  unfold parseInputData.
  destruct (inputFormatToParser format) as [[| | | |n]|]; try discriminate;
    [| | | |unfold callInherited;
            repeat match goal with
                   | |- context [if ?b then _ else _] => destruct b
                   end; try discriminate; destruct dataRaw; discriminate].
  - unfold parseCsv. destruct (csvtojson P dataRaw) as [rows|];
      [|discriminate].
    destruct (existsb (csvRowRaises P slug) rows); discriminate.
  - unfold parseJso.
    destruct (negb (isObjectSafe dataRaw) && negb (isArraySafe dataRaw));
      discriminate.
  - unfold parseJson. destruct (JSON_parse P dataRaw) as [data|];
      [|discriminate].
    assert (Hrest : forall l,
               mapOutcome restWithoutPublishedAt l <> OutOfFuel).
    { intros l. apply mapOutcome_finishes. intros x.
      unfold restWithoutPublishedAt. destruct (nullish x); discriminate. }
    repeat match goal with
           | |- context [if ?b then _ else _] => destruct b
           end; try discriminate;
      destruct data; try discriminate;
      try (specialize (Hrest l);
           destruct (mapOutcome restWithoutPublishedAt l); cbn; congruence);
      repeat match goal with
             | |- context [if ?b then _ else _] => destruct b
             end; discriminate.
  - unfold parsePostgresJson.
    destruct (JSON_parse P dataRaw) as [data|]; [|discriminate].
    match goal with
    | |- context [mapOutcome ?f ?l] =>
        pose proof (mapOutcome_finishes f l) as H;
        destruct (mapOutcome f l); cbn; try discriminate
    end.
    exfalso. apply H; [|reflexivity].
    intros x. apply transformPostgres_finishes.
Qed.

(** X27.  Once the input is parsed, [importData] returns a failure list:
    the error of a record never fails the import.  When [importData] fails,
    it is the parser that failed, and nothing was searched or written. *)
Theorem importData_fails_only_on_parse :
  wf_schema P ->
  forall (dataRaw : value) (slug format : string) (user : User)
         (idField : option string) (importAsDrafts : option bool)
         (w : World DB) r w',
    importData P dataRaw slug format user idField importAsDrafts w
    = Some (r, w') ->
    (exists failures, r = Ok failures) \/
    (exists m,
        r = Err m /\ w' = w /\ format <> "jso" /\
        parseInputData P format dataRaw slug
          (Some (if hasDraftAndPublish P slug then dflt importAsDrafts
                 else false)) = Err m).
Proof.
  intros Hwf dataRaw slug format user idField importAsDrafts w r w' H.
  unfold importData in H.
  destruct (String.eqb_spec format "jso") as [Hjso|Hjso].
  - left. destruct (String.eqb slug (mediaSlug P)).
    + destruct (importMedia_run DB user (toArray dataRaw) w)
        as (failures & w0 & E & _).
      rewrite E in H. inversion H; subst. eauto.
    + destruct (records_of (toArray dataRaw)) as [records|]; [|discriminate].
      unfold importOtherSlug in H.
      destruct (importLoop_attempts DB P Hwf slug user idField
                  (hasDraftAndPublish P slug) records w)
        as (processed & E & _).
      rewrite E in H. inversion H; subst. cbn. eauto.
  - match type of H with
    | context [parseInputData P format dataRaw slug ?d] =>
        destruct (parseInputData P format dataRaw slug d)
          as [data|m|] eqn:Hparse
    end.
    + left. destruct (String.eqb slug (mediaSlug P)).
      * destruct (importMedia_run DB user (toArray data) w)
          as (failures & w0 & E & _).
        rewrite E in H. inversion H; subst. eauto.
      * destruct (records_of (toArray data)) as [records|]; [|discriminate].
        unfold importOtherSlug in H.
        destruct (importLoop_attempts DB P Hwf slug user idField
                    (hasDraftAndPublish P slug) records w)
          as (processed & E & _).
        rewrite E in H. inversion H; subst. cbn. eauto.
    + right. inversion H; subst. exists m. auto.
    + exfalso. eapply parseInputData_finishes. exact Hparse.
Qed.


(** X23.  Through the controller, a request whose file type is postgres or
    csv, for a model that supports draft/publish, with the draft option on
    or omitted, has every record written unpublished, whatever format the
    request names; the versioned import is never entered.  For postgres the
    controller parses first and enters [importData] with the pre-decoded
    format, and the records stay drafts. *)
Theorem controller_enforces_drafts :
  forall (user : User) (body : Body) (w : World DB) r w',
    hasDraftAndPublish P (b_slug body) = true ->
    dflt (b_importAsDrafts body) = true ->
    b_fileType body = Some "postgres" \/ b_fileType body = Some "csv" ->
    controller P importDataV2 user body w = Some (r, w') ->
    extends (top_writes draft) w w'.
Proof.
  intros user body w r w' Hdp Hd Hft H.
  unfold controller in H. rewrite Hd in H.
  destruct Hft as [Hft|Hft]; rewrite Hft in H;
    cbn [is_some_str String.eqb Ascii.eqb Bool.eqb] in H.
  - destruct (parseInputData P "postgres" (b_data body) (b_slug body)
                (Some true)) as [fileContent|m|] eqn:Hparse;
      try (inversion H; subst; apply extends_refl).
    assert (HF : Forall draft_value (toArray fileContent)).
    { assert (Hin : In "postgres" ["csv"; "json"; "postgres"])
        by (cbn; tauto).
      exact (parsers_deliver_drafts P "postgres" _ _ _ Hdp Hin Hparse). }
    assert (Hv : is_num (prop fileContent "version") 2 = false).
    { unfold parseInputData in Hparse. cbn in Hparse.
      unfold parsePostgresJson in Hparse.
      destruct (JSON_parse P (b_data body)); [|discriminate].
      match type of Hparse with
      | context [mapOutcome ?f ?l] => destruct (mapOutcome f l)
      end; cbn in Hparse; inversion Hparse; subst. reflexivity. }
    rewrite Hv in H.
    destruct (sampleLog fileContent);
      [inversion H; subst; apply extends_refl|].
    eapply importData_jso_drafts; [exact Hdp|exact HF|exact H].
  - destruct (parseInputData P "csv" (b_data body) (b_slug body)
                (Some true)) as [fileContent|m|] eqn:Hparse;
      try (inversion H; subst; apply extends_refl).
    assert (Hv : is_num (prop fileContent "version") 2 = false).
    { unfold parseInputData in Hparse. cbn in Hparse.
      unfold parseCsv in Hparse.
      destruct (csvtojson P (b_data body)) as [rows|]; [|discriminate].
      destruct (existsb (csvRowRaises P (b_slug body)) rows);
        inversion Hparse; subst. reflexivity. }
    rewrite Hv in H.
    destruct (sampleLog fileContent);
      [inversion H; subst; apply extends_refl|].
    assert (Hin : In "csv" ["csv"; "json"; "postgres"]) by (cbn; tauto).
    exact (importData_drafts DB P _ _ _ _ _ (Some true) _ _ _ Hdp Hin
             eq_refl H).
Qed.

(** X24.  Through the controller, pre-decoded data that is neither an object
    nor an array is refused with the error of the pre-decoded parser before
    anything is searched or written. *)
Theorem controller_refuses_scalar_jso :
  forall (user : User) (slug : string) (dataRaw : value)
         (idField : option string) (importAsDrafts : option bool)
         (w : World DB),
    isObjectSafe dataRaw = false ->
    isArraySafe dataRaw = false ->
    controller P importDataV2 user
      {| b_slug := slug; b_data := dataRaw; b_format := "jso";
         b_fileType := None; b_idField := idField;
         b_importAsDrafts := importAsDrafts |} w
    = Some (Err "To import JSO, data must be an array or an object", w).
Proof.
  intros user slug dataRaw idField importAsDrafts w Ho Ha.
  unfold controller. cbn [b_fileType is_some_str b_format b_data b_slug].
  unfold parseInputData. cbn [inputFormatToParser String.eqb Ascii.eqb Bool.eqb].
  unfold parseJso. rewrite Ho, Ha. reflexivity.
Qed.

End ControllerMore.

(** ** The default of the draft option *)

Section DefaultDrafts.

Variable DB : Store.
Variable P : Platform.
Variable importDataV2 :
  value -> string -> User -> option string -> bool -> World DB ->
  option (outcome (list Failure) * World DB).

(** Through the controller, with draft mode on or omitted and a model that
    supports draft/publish, the records of the import loop are written as
    drafts when the file type is postgres or csv, and when no file type is
    given, the format is csv, json or postgres and the decoded content is no
    version 2 envelope. *)
Lemma controller_drafts :
  forall (user : User) (body : Body) (w : World DB) r w',
    hasDraftAndPublish P (b_slug body) = true ->
    dflt (b_importAsDrafts body) = true ->
    (b_fileType body = Some "postgres" \/ b_fileType body = Some "csv" \/
     (b_fileType body = None /\
      In (b_format body) ["csv"; "json"; "postgres"] /\
      forall fileContent,
        parseInputData P (b_format body) (b_data body) (b_slug body)
          (Some true) = Ok fileContent ->
        is_num (prop fileContent "version") 2 = false)) ->
    controller P importDataV2 user body w = Some (r, w') ->
    extends (top_writes draft) w w'.
Proof.
  intros user body w r w' Hdp Hd Hft H.
  unfold controller in H. rewrite Hd in H.
  assert (Hgo : forall actualFormat,
    In actualFormat ["csv"; "json"; "postgres"] ->
    (forall fileContent,
        parseInputData P actualFormat (b_data body) (b_slug body)
          (Some true) = Ok fileContent ->
        is_num (prop fileContent "version") 2 = false) ->
    match parseInputData P actualFormat (b_data body) (b_slug body)
            (Some true) with
    | Err m => Some (Err m, w)
    | OutOfFuel => Some (OutOfFuel, w)
    | Ok fileContent =>
        match sampleLog fileContent with
        | Some m => Some (Err m, w)
        | None =>
            if is_num (prop fileContent "version") 2 then
              importDataV2 fileContent (b_slug body) user (b_idField body)
                true w
            else if String.eqb actualFormat "postgres" then
              importData P fileContent (b_slug body) "jso" user
                (b_idField body) (Some true) w
            else
              importData P (b_data body) (b_slug body) actualFormat user
                (b_idField body) (Some true) w
        end
    end = Some (r, w') ->
    extends (top_writes draft) w w').
  { intros actualFormat Hin Hver Hrun.
    destruct (parseInputData P actualFormat (b_data body) (b_slug body)
                (Some true)) as [fileContent|m|] eqn:Hparse;
      try (inversion Hrun; subst; apply extends_refl).
    rewrite (Hver fileContent eq_refl) in Hrun.
    destruct (sampleLog fileContent);
      [inversion Hrun; subst; apply extends_refl|].
    destruct (String.eqb actualFormat "postgres").
    - eapply importData_jso_drafts; [exact Hdp| |exact Hrun].
      exact (parsers_deliver_drafts P actualFormat _ _ _ Hdp Hin Hparse).
    - exact (importData_drafts DB P _ _ _ _ _ (Some true) _ _ _ Hdp Hin
               eq_refl Hrun). }
  destruct Hft as [Hft|[Hft|(Hft & Hin & Hver)]]; rewrite Hft in H;
    cbn [is_some_str String.eqb Ascii.eqb Bool.eqb] in H.
  - apply (Hgo "postgres"); [cbn; tauto| |exact H].
    intros fileContent Hparse.
    unfold parseInputData in Hparse. cbn in Hparse.
    unfold parsePostgresJson in Hparse.
    destruct (JSON_parse P (b_data body)); [|discriminate].
    match type of Hparse with
    | context [mapOutcome ?f ?l] => destruct (mapOutcome f l)
    end; cbn in Hparse; inversion Hparse; subst. reflexivity.
  - apply (Hgo "csv"); [cbn; tauto| |exact H].
    intros fileContent Hparse.
    unfold parseInputData in Hparse. cbn in Hparse.
    unfold parseCsv in Hparse.
    destruct (csvtojson P (b_data body)) as [rows|]; [|discriminate].
    destruct (existsb (csvRowRaises P (b_slug body)) rows);
      inversion Hparse; subst. reflexivity.
  - apply (Hgo (b_format body)); assumption.
Qed.

(** C9, as amended.  A call that omits [importAsDrafts] runs as the call
    that passes [true], at the controller, at [importData], at
    [parseInputData] and at every parser.  So an import with unspecified
    draft mode into a model that supports draft/publish writes every record
    of the input unpublished when it enters [importData] in the csv, json or
    postgres format, and when it enters the controller with the file type
    postgres or csv, or with no file type, one of these three formats and
    content that is no version 2 envelope. *)
Theorem importAsDrafts_defaults_to_true :
  forall (dataRaw : value) (slug format : string) (user : User)
         (idField : option string) (fileType : option string)
         (w : World DB),
    let request := {| b_slug := slug; b_data := dataRaw; b_format := format;
                      b_fileType := fileType; b_idField := idField;
                      b_importAsDrafts := None |} in
    parseInputData P format dataRaw slug None
    = parseInputData P format dataRaw slug (Some true) /\
    parseCsv P dataRaw slug None = parseCsv P dataRaw slug (Some true) /\
    parseJson P dataRaw slug None = parseJson P dataRaw slug (Some true) /\
    parsePostgresJson P dataRaw slug None
    = parsePostgresJson P dataRaw slug (Some true) /\
    importData P dataRaw slug format user idField None w
    = importData P dataRaw slug format user idField (Some true) w /\
    controller P importDataV2 user request w
    = controller P importDataV2 user
        {| b_slug := slug; b_data := dataRaw; b_format := format;
           b_fileType := fileType; b_idField := idField;
           b_importAsDrafts := Some true |} w /\
    (forall r w',
        hasDraftAndPublish P slug = true ->
        In format ["csv"; "json"; "postgres"] ->
        importData P dataRaw slug format user idField None w = Some (r, w') ->
        extends (top_writes draft) w w') /\
    (forall r w',
        hasDraftAndPublish P slug = true ->
        (fileType = Some "postgres" \/ fileType = Some "csv" \/
         (fileType = None /\
          In format ["csv"; "json"; "postgres"] /\
          forall fileContent,
            parseInputData P format dataRaw slug None = Ok fileContent ->
            is_num (prop fileContent "version") 2 = false)) ->
        controller P importDataV2 user request w = Some (r, w') ->
        extends (top_writes draft) w w').
Proof.
  intros dataRaw slug format user idField fileType w request.
  repeat split; try reflexivity.
  - intros r w' Hdp Hfmt H.
    exact (importData_drafts DB P dataRaw slug format user idField None
             w r w' Hdp Hfmt eq_refl H).
  - intros r w' Hdp Hft H.
    exact (controller_drafts user request w r w' Hdp eq_refl Hft H).
Qed.

End DefaultDrafts.

Section EndpointMore.

Variable P : Platform.

(** X25.  The model-attributes endpoint always offers [id] first; after it
    come, in schema order, exactly the attributes of the model that are no
    relation, component or dynamic zone and are not named createdAt,
    updatedAt, publishedAt or locale; the identifying field it reports is
    the one configured for the model, or [id], and is never empty. *)
Theorem endpoint_offers_scalar_attributes :
  forall (configured : string -> value) (slug : string),
    let resp := getModelAttributesEndpoint P configured slug in
    hd "" (attribute_names resp) = "id" /\
    tl (attribute_names resp)
    = map name (filter filterAttribute (allAttributes P slug)) /\
    (forall n,
        In n (tl (attribute_names resp)) <->
        exists a,
          In a (allAttributes P slug) /\ name a = n /\
          mem (type a) ["relation"; "component"; "dynamiczone"] = false /\
          mem n ["createdAt"; "updatedAt"; "publishedAt"; "locale"] = false) /\
    truthy (data_idField resp) = true /\
    (truthy (configured slug) = true -> data_idField resp = configured slug) /\
    (truthy (configured slug) = false -> data_idField resp = VStr "id").
Proof.
  intros configured slug resp. subst resp.
  unfold getModelAttributesEndpoint. cbn [attribute_names data_idField hd tl].
  split; [reflexivity|]. split; [reflexivity|]. split; [|split; [|split]].
  - intros n. rewrite in_map_iff. split.
    + intros [a [Hn Hin]]. apply filter_In in Hin. destruct Hin as [Hin Hf].
      unfold filterAttribute in Hf. cbn [forallb] in Hf.
      rewrite !andb_true_iff in Hf. destruct Hf as (Ht & Hnm & _).
      unfold filterType in Ht. unfold filterName in Hnm.
      apply negb_true_iff in Ht. apply negb_true_iff in Hnm.
      exists a. subst n. auto.
    + intros [a (Hin & Hn & Ht & Hnm)]. exists a. split; [exact Hn|].
      apply filter_In. split; [exact Hin|].
      unfold filterAttribute, filterType, filterName. cbn [forallb].
      rewrite Ht, Hn, Hnm. reflexivity.
  - destruct (truthy (configured slug)) eqn:E; [exact E|reflexivity].
  - intros ->. reflexivity.
  - intros ->. reflexivity.
Qed.

(** X26.  With the response of the endpoint, the editor always preselects
    the identifying field the endpoint reports, the configured one or [id];
    its fallbacks (an [id] among the attributes, the first attribute, the
    field selected before) are never taken. *)
Theorem editor_preselects_reported_id_field :
  forall (configured : string -> value) (slug : string) (current : value),
    editorIdField current (getModelAttributesEndpoint P configured slug)
    = (if truthy (configured slug) then configured slug else VStr "id").
Proof.
  intros configured slug current.
  unfold editorIdField, getModelAttributesEndpoint.
  cbn [attribute_names data_idField].
  destruct (truthy (configured slug)) eqn:E; [rewrite E|]; reflexivity.
Qed.

End EndpointMore.

(** ** Concrete runs *)

Module Runs.
Import Sample.

Lemma sample_wf : wf_schema platform.
Proof.
  intros slug m H. cbn in H. unfold models in H.
  repeat match type of H with
         | context [String.eqb slug ?s] => destruct (String.eqb slug s)
         end; inversion H; subst; cbn;
    repeat (constructor; [cbn; intuition discriminate|]); constructor.
Qed.

(** The upsert by an ordinary identifying field: the record names the
    author 1, who exists; the author is updated by that identifier and
    nothing is created. *)
Example upsert_collection_run :
  updateOrCreateCollectionType 0 "author"
    [("id", VNum 1); ("name", VStr "m")] "id" seeded
  = ([("id", VNum 1); ("name", VStr "m")],
     Ok (VObj [("name", VStr "m"); ("id", VNum 1)]),
     {| store := ({| rows := [("author", [("name", VStr "m"); ("id", VNum 1)])];
                     next := 2 |} : St mem_store);
        trace := [CUpdate 0 "author" (VNum 1) [("id", VNum 1); ("name", VStr "m")];
                  CFindOne "author" [("id", VNum 1)]] |}).
Proof. reflexivity. Qed.

(** C1 at work: the identifying field is "constructor" and the record's
    value for it is empty; the one entry the store holds is found by the
    empty filter and overwritten, and nothing is created. *)
Lemma inherited_field_witness :
  exists data' r w',
    updateOrCreate platform 1 0 admin "seo" Sample2.unnamed
      (Some "constructor") Sample2.with_page = (data', r, w') /\
    trace w' = [CUpdate 0 "seo" (VNum 1) Sample2.unnamed; CFindOne "seo" []] /\
    count_creates (trace w') = 0%nat /\
    r = Ok (VObj [("name", VStr "x"); ("id", VNum 1); ("constructor", VStr "")]).
Proof.
  do 3 eexists. split; [reflexivity|].
  assert (Hkind : kind seo <> "singleType") by discriminate.
  destruct (proj2 (inherited_identifying_field_updates mem_store platform
                     0 0 admin "seo" seo Sample2.unnamed "constructor"
                     Sample2.with_page eq_refl Hkind eq_refl eq_refl eq_refl
                     _ _ _ eq_refl)
              (VObj [("name", VStr "old"); ("id", VNum 1)])
              (store Sample2.with_page) eq_refl eq_refl eq_refl)
    as (Ht & Hc & Hr & _).
  split; [exact Ht|]. split; [exact Hc|]. exact Hr.
Defined.



Example three_records_second_fails :
  fst (importOtherSlug platform three "author" admin None false true empty)
  = Ok [{| error := "name must be defined";
           data := VObj [("title", VStr "b"); ("friend", VNull)] |}]
  /\ count_creates
       (trace (snd (importOtherSlug platform three "author" admin None false
                      true empty))) = 3.
Proof. split; reflexivity. Qed.

(** C3 as stated fails: with the pre-decoded format a published record is
    written as it came, and in the json format a record nested in a relation
    keeps its publish date, although draft mode is on and the model supports
    draft/publish. *)
Lemma drafts_counterexample :
  hasDraftAndPublish platform "article" = true /\
  (exists r w' d,
      importData platform published "article" "jso" admin None (Some true)
        empty = Some (r, w') /\
      In (CCreate 0 "article" d) (trace w') /\
      obj_get d "publishedAt" = VStr "2020-01-01") /\
  (exists r w' d,
      importData platform (VStr "nested") "article" "json" admin None
        (Some true) empty = Some (r, w') /\
      In (CCreate 1 "article" d) (trace w') /\
      obj_get d "publishedAt" = VStr "2020-01-01").
Proof.
  split; [reflexivity|]. split.
  - do 3 eexists. split; [reflexivity|]. split; [left; reflexivity|].
    reflexivity.
  - do 3 eexists. split; [reflexivity|]. split; [right; left; reflexivity|].
    reflexivity.
Qed.

(** C3 as amended, at work. *)
Lemma drafts_witness :
  exists r w',
    hasDraftAndPublish platform "article" = true /\
    In "json" ["csv"; "json"; "postgres"] /\
    importData platform (VStr "nested") "article" "json" admin None
      (Some true) empty = Some (r, w') /\
    extends (top_writes draft) empty w' /\
    exists d, In (CCreate 0 "article" d) (trace w') /\
              obj_get d "publishedAt" = VNull.
Proof.
  do 2 eexists.
  assert (Hne : In "json" ["csv"; "json"; "postgres"]) by (cbn; tauto).
  split; [reflexivity|]. split; [exact Hne|]. split; [reflexivity|].
  split.
  - exact (drafts_are_written_unpublished mem_store platform (VStr "nested")
             "article" "json" admin None empty _ _ eq_refl Hne eq_refl).
  - eexists. split; [left; reflexivity|reflexivity].
Defined.

(** C4 as stated fails: an author nested in the relation of an imported
    author is created with the publish-state field it came with, although
    the author model has no draft/publish support. *)
Lemma publish_state_counterexample :
  hasDraftAndPublish platform "author" = false /\
  exists r w' d,
    importData platform (VStr "friend") "author" "json" admin None None empty
    = Some (r, w') /\
    In (CCreate 1 "author" d) (trace w') /\
    obj_has d "publishedAt" = true /\
    obj_get d "publishedAt" = VStr "2020-01-01".
Proof.
  split; [reflexivity|]. do 3 eexists. split; [reflexivity|].
  split; [right; left; reflexivity|]. split; reflexivity.
Qed.

(** C4 as amended, at work. *)
Lemma publish_state_witness :
  exists r w',
    hasDraftAndPublish platform "author" = false /\
    ~ In "publishedAt" (relationNames platform "author") /\
    Forall (fun datum => json_field "publishedAt" datum = true) three /\
    importOtherSlug platform three "author" admin None
      (hasDraftAndPublish platform "author") true empty = (r, w') /\
    extends (top_writes unpublishable) empty w' /\
    In (CCreate 0 "author" [("title", VStr "b"); ("friend", VNull)])
      (trace w').
Proof.
  do 2 eexists.
  assert (Hrel : ~ In "publishedAt" (relationNames platform "author"))
    by (cbn; intuition discriminate).
  assert (HF : Forall (fun datum => json_field "publishedAt" datum = true)
                 three)
    by (repeat constructor).
  split; [reflexivity|]. split; [exact Hrel|]. split; [exact HF|].
  split; [reflexivity|]. split.
  - exact (publish_state_absent_without_draft_support mem_store platform
             three "author" admin None true empty _ _ eq_refl Hrel HF
             eq_refl).
  - right; left; reflexivity.
Defined.

(** C5 as stated fails: [createdBy] is a relation-type attribute, and an
    array given for it resolves to the acting user's identifier, no array. *)
Lemma relation_shape_counterexample :
  type createdBy = "relation" /\
  isArraySafe (VArr [VNum 1; VNum 2]) = true /\
  updateOrCreateRelation nested admin createdBy (VArr [VNum 1; VNum 2]) empty
  = (VArr [VNum 1; VNum 2], Ok (VNum 7), empty) /\
  isArraySafe (VNum 7) = false.
Proof. repeat split. Qed.

(** C5 as amended, at work. *)
Lemma relation_shape_witness :
  type editors = "relation" /\
  mem (name editors) auditFields = false /\
  exists left,
    updateOrCreateRelation nested admin editors
      (VArr [VNum 1; VStr "x"; VNum 2]) empty
    = (left, Ok (VArr [VNum 1; VNum 2]), empty).
Proof.
  split; [reflexivity|]. split; [reflexivity|].
  refine (proj1 (relation_result_mirrors_input mem_store nested admin editors
                   (VArr [VNum 1; VStr "x"; VNum 2]) empty eq_refl eq_refl)
            [VNum 1; VNum 2] empty _).
  apply Resolved_num. apply Resolved_skip; [reflexivity|reflexivity|].
  apply Resolved_num. apply Resolved_nil.
Defined.

(** C6 as stated fails: a null [createdBy] resolves to null, not to the
    acting user's identifier. *)
Lemma audit_counterexample :
  mem (name createdBy) auditFields = true /\
  snd (fst (updateOrCreateRelation nested admin createdBy VNull empty))
  = Ok VNull /\
  Ok VNull <> Ok (user_id admin).
Proof. repeat split. discriminate. Qed.

(** C6 as amended, at work. *)
Lemma audit_witness :
  mem (name createdBy) auditFields = true /\
  updateOrCreateRelation nested admin createdBy (VNum 99) empty
  = (VNum 99, Ok (VNum 7), empty).
Proof.
  split; [reflexivity|].
  exact (audit_fields_take_acting_user mem_store nested admin createdBy
           (VNum 99) empty eq_refl).
Defined.


(** A format that names nothing is refused before anything is done. *)
Example unsupported_format_run :
  importData platform (VStr "<a/>") "article" "xml" admin None None empty
  = Some (Err "Data input format xml is not supported.", empty).
Proof. reflexivity. Qed.

(** C8 at work: the format "constructor" is none of the recognised formats;
    the import is not refused, and the published record reaches the store. *)
Lemma inherited_format_witness :
  isObjectSafe published || isArraySafe published = true /\
  ~ In "constructor" InputFormats /\
  parseInputData platform "constructor" published "article" None
  = Ok published /\
  importData platform published "article" "constructor" admin None None empty
  = Some (Ok [],
          {| store :=
               ({| rows := [("article",
                             [("name", VStr "a");
                              ("publishedAt", VStr "2020-01-01");
                              ("author", VNull); ("editors", VNull);
                              ("related", VNull); ("createdBy", VNull);
                              ("seo", VNull); ("id", VNum 1)])];
                   next := 2 |} : St mem_store);
             trace := [CCreate 0 "article"
                         [("name", VStr "a");
                          ("publishedAt", VStr "2020-01-01");
                          ("author", VNull); ("editors", VNull);
                          ("related", VNull); ("createdBy", VNull);
                          ("seo", VNull)]] |}).
Proof.
  destruct (inherited_format_name_is_accepted mem_store platform published
              "article" admin None None empty eq_refl) as (Hno & Hp & Hrun).
  split; [reflexivity|]. split; [exact Hno|]. split; [exact Hp|].
  rewrite Hrun. reflexivity.
Defined.

(** C9 as stated fails: the option is omitted and the model supports
    draft/publish, yet the controller has a published record of the
    pre-decoded format written as published, and in the json format a record
    nested in a relation keeps its publish date. *)
Lemma default_drafts_counterexample :
  hasDraftAndPublish platform "article" = true /\
  (exists r w' d,
      controller platform noV2 admin
        {| b_slug := "article"; b_data := published; b_format := "jso";
           b_fileType := None; b_idField := None; b_importAsDrafts := None |}
        empty = Some (r, w') /\
      In (CCreate 0 "article" d) (trace w') /\
      obj_get d "publishedAt" = VStr "2020-01-01") /\
  (exists r w' d,
      controller platform noV2 admin
        {| b_slug := "article"; b_data := VStr "nested"; b_format := "json";
           b_fileType := None; b_idField := None; b_importAsDrafts := None |}
        empty = Some (r, w') /\
      In (CCreate 1 "article" d) (trace w') /\
      obj_get d "publishedAt" = VStr "2020-01-01").
Proof.
  split; [reflexivity|]. split.
  - do 3 eexists. split; [reflexivity|]. split; [left; reflexivity|].
    reflexivity.
  - do 3 eexists. split; [reflexivity|]. split; [right; left; reflexivity|].
    reflexivity.
Qed.

(** C9 as amended, at work: a delimited-text file sent without the option is
    imported as a draft. *)
Lemma default_drafts_witness :
  exists r w',
    hasDraftAndPublish platform "article" = true /\
    controller platform noV2 admin
      {| b_slug := "article"; b_data := VStr "name,author"; b_format := "csv";
         b_fileType := Some "csv"; b_idField := None;
         b_importAsDrafts := None |}
      empty = Some (r, w') /\
    extends (top_writes draft) empty w' /\
    exists d, In (CCreate 0 "article" d) (trace w') /\
              obj_get d "publishedAt" = VNull.
Proof.
  do 2 eexists. split; [reflexivity|]. split; [reflexivity|]. split.
  - exact (proj2 (proj2 (proj2 (proj2 (proj2 (proj2 (proj2
             (importAsDrafts_defaults_to_true mem_store platform noV2
                (VStr "name,author") "article" "csv" admin None (Some "csv")
                empty)))))))
             _ _ eq_refl (or_intror (or_introl eq_refl)) eq_refl).
  - eexists. split; [left; reflexivity|reflexivity].
Defined.


End Runs.

(** ** Concrete runs of the further properties *)

Module MoreRuns.
Import Sample.

Lemma sample2_wf : wf_schema Sample2.platform.
Proof.
  intros slug m H. cbn in H. unfold Sample2.models in H.
  repeat match type of H with
         | context [String.eqb slug ?s] => destruct (String.eqb slug s)
         end; inversion H; subst; cbn;
    repeat (constructor; [cbn; intuition discriminate|]); constructor.
Qed.

(** X1 at work: the home page exists and is updated by its own id. *)
Lemma upsert_single_type_witness :
  exists data' r w',
    updateOrCreateSingleType 0 "homepage"
      [("id", VNum 77); ("name", VStr "new")] Sample2.with_home
    = (data', r, w') /\
    data' = [("name", VStr "new")] /\
    trace w' = [CUpdate 0 "homepage" (VNum 1) [("name", VStr "new")];
                CFindMany "homepage"].
Proof.
  do 3 eexists. split; [reflexivity|].
  destruct (upsert_single_type mem_store 0 "homepage"
              [("id", VNum 77); ("name", VStr "new")] Sample2.with_home
              _ _ _ eq_refl) as (Hd & _ & _ & Hfound).
  split; [exact Hd|].
  destruct (Hfound _ _ eq_refl) as [Hup _].
  exact (proj1 (Hup eq_refl)).
Defined.


(** X3 at work: a component that is not repeatable, given two references. *)
Lemma component_result_witness :
  type Sample2.part_attr = "component" /\
  mem (name Sample2.part_attr) auditFields = false /\
  nullish (VArr [VNum 4; VNum 5]) = false /\
  exists left,
    updateOrCreateRelation Sample2.nested admin Sample2.part_attr
      (VArr [VNum 4; VNum 5]) empty
    = (left, Ok (VNum 4), empty).
Proof.
  split; [reflexivity|]. split; [reflexivity|]. split; [reflexivity|].
  refine (proj1 (component_result_follows_repeatable mem_store Sample2.nested
                   admin Sample2.part_attr (VArr [VNum 4; VNum 5]) empty
                   eq_refl eq_refl eq_refl) [VNum 4] empty _).
  apply Resolved_num. apply Resolved_nil.
Defined.

(** X4 at work. *)
Lemma first_entry_witness :
  ((type Sample2.cover = "component" /\ repeatable Sample2.cover = false) \/
   (type Sample2.cover = "media" /\ multiple Sample2.cover = false)) /\
  snd (updateOrCreateRelation Sample2.nested admin Sample2.cover
         (VArr [VStr "a.png"; VStr "b.png"]) empty)
  = snd (updateOrCreateRelation Sample2.nested admin Sample2.cover
           (VArr [VStr "a.png"]) empty).
Proof.
  assert (H : (type Sample2.cover = "component"
               /\ repeatable Sample2.cover = false) \/
              (type Sample2.cover = "media"
               /\ multiple Sample2.cover = false))
    by (right; split; reflexivity).
  split; [exact H|].
  exact (proj2 (single_valued_attribute_uses_first_entry mem_store
                  Sample2.nested admin Sample2.cover (VStr "a.png")
                  [VStr "b.png"] empty H)).
Defined.

(** X5 at work. *)
Lemma bare_references_witness :
  type editors = "relation" /\
  mem (name editors) auditFields = false /\
  updateOrCreateRelation nested admin editors (VNum 0) empty
  = (VNum 0, Ok VNull, empty).
Proof.
  split; [reflexivity|]. split; [reflexivity|].
  exact (proj2 (bare_references_resolve_without_store mem_store nested admin
                  editors empty eq_refl eq_refl) 0%Z).
Defined.

(** X6 at work. *)
Lemma unsupported_type_witness :
  mem (type Sample2.rating) relationTypes = false /\
  updateOrCreateRelation Sample2.nested admin Sample2.rating (VNum 3) empty
  = (VNum 3, Err "Could not update or create relation of type rating.",
     empty).
Proof.
  split; [reflexivity|].
  exact (proj1 (unsupported_relation_type_is_named mem_store Sample2.nested
                  Sample2.platform admin Sample2.rating (VNum 3) empty
                  eq_refl)).
Defined.


(** X8 at work: a zone of two parts. *)
Lemma dynamic_zone_witness :
  exists left v w',
    type Sample2.blocks = "dynamiczone" /\
    mem (name Sample2.blocks) auditFields = false /\
    updateOrCreateRelation Sample2.nested admin Sample2.blocks
      (VArr Sample2.zone) empty = (left, Ok v, w') /\
    exists es comps,
      left = VArr es /\ v = VArr comps /\ List.length comps = 2%nat /\
      Forall2 tagged_as es comps.
Proof.
  do 3 eexists.
  split; [reflexivity|]. split; [reflexivity|]. split; [reflexivity|].
  destruct (dynamic_zone_keeps_order_and_tags mem_store Sample2.nested admin
              Sample2.blocks Sample2.zone empty _ _ _ eq_refl eq_refl
              eq_refl)
    as (es & comps & H1 & H2 & H3 & H4 & _).
  exists es, comps. auto.
Defined.

(** X11 at work: a published article keeps its publish date. *)
Lemma publish_state_kept_witness :
  exists d' r w',
    ~ In "publishedAt" (relationNames platform "article") /\
    importRecord platform "article" admin None true
      [("name", VStr "a"); ("publishedAt", VStr "2020-01-01")] empty
    = (d', r, w') /\
    obj_get d' "publishedAt" = VStr "2020-01-01".
Proof.
  do 3 eexists.
  assert (Hrel : ~ In "publishedAt" (relationNames platform "article"))
    by (cbn; intuition discriminate).
  split; [exact Hrel|]. split; [reflexivity|].
  exact (proj1 (publish_state_is_kept_with_draft_support mem_store platform
                  "article" admin None
                  [("name", VStr "a"); ("publishedAt", VStr "2020-01-01")]
                  empty _ _ _ Hrel eq_refl)).
Defined.

(** X12 at work. *)
Lemma unknown_model_witness :
  getModel platform "ghost" = None /\
  exists failures,
    importOtherSlug platform three "ghost" admin None
      (hasDraftAndPublish platform "ghost") true empty = (Ok failures, empty)
    /\ List.length (map data failures) = 3%nat.
Proof.
  split; [reflexivity|].
  destruct (unknown_model_fails_every_record mem_store platform three "ghost"
              admin None true empty eq_refl) as [failures [E F]].
  exists failures. split; [exact E|]. rewrite F. reflexivity.
Defined.


(** X14 at work. *)
Lemma draft_option_witness :
  hasDraftAndPublish platform "author" = false /\
  importData platform (VStr "friend") "author" "json" admin None (Some true)
    empty
  = importData platform (VStr "friend") "author" "json" admin None
      (Some false) empty.
Proof.
  split; [reflexivity|].
  exact (draft_option_ignored_without_draft_support mem_store platform
           (VStr "friend") "author" "json" admin None (Some true)
           (Some false) empty eq_refl).
Defined.

(** X15 at work: the text "1" in a boolean column. *)
Lemma csv_boolean_witness :
  wf_schema Sample2.platform /\
  In "active" (booleanFields Sample2.platform "event") /\
  "active" <> "publishedAt" /\
  obj_get (parseCsvRow Sample2.platform "event" false Sample2.row) "active"
  = VBool true.
Proof.
  assert (Hin : In "active" (booleanFields Sample2.platform "event"))
    by (cbn; auto).
  assert (Hne : "active" <> "publishedAt") by discriminate.
  split; [exact sample2_wf|]. split; [exact Hin|]. split; [exact Hne|].
  exact (csv_boolean_vocabulary Sample2.platform "event" false Sample2.row
           "active" sample2_wf Hin Hne).
Defined.

(** X16 at work: the texts "42" and "1.5" in a number column. *)
Lemma csv_number_witness :
  wf_schema Sample2.platform /\
  In "seats" (numberFields Sample2.platform "event") /\
  "seats" <> "publishedAt" /\
  obj_get (parseCsvRow Sample2.platform "event" false Sample2.row) "seats"
  = VNum 42 /\
  obj_get (parseCsvRow Sample2.platform "event" false Sample2.half_row) "seats"
  = VNum (Real "1.5").
Proof.
  assert (Hin : In "seats" (numberFields Sample2.platform "event"))
    by (cbn; auto).
  assert (Hne : "seats" <> "publishedAt") by discriminate.
  split; [exact sample2_wf|]. split; [exact Hin|]. split; [exact Hne|].
  split.
  - exact (csv_number_coercion Sample2.platform "event" false Sample2.row
             "seats" sample2_wf Hin Hne
             (or_intror (ex_intro _ "42" eq_refl))).
  - exact (csv_number_coercion Sample2.platform "event" false
             Sample2.half_row "seats" sample2_wf Hin Hne
             (or_intror (ex_intro _ "1.5" eq_refl))).
Defined.

(** X17 at work: a date in a datetime column. *)
Lemma csv_datetime_witness :
  wf_schema Sample2.platform /\
  In "starts" (dateTimeFields Sample2.platform "event") /\
  "starts" <> "publishedAt" /\
  obj_get (parseCsvRow Sample2.platform "event" false Sample2.row) "starts"
  = VStr "2020-01-01T00:00:00.000Z".
Proof.
  assert (Hin : In "starts" (dateTimeFields Sample2.platform "event"))
    by (cbn; auto).
  assert (Hne : "starts" <> "publishedAt") by discriminate.
  split; [exact sample2_wf|]. split; [exact Hin|]. split; [exact Hne|].
  exact (csv_datetime_canonical Sample2.platform "event" false Sample2.row
           "starts" sample2_wf Hin Hne).
Defined.

(** X18 at work: a JSON array in a relation column. *)
Lemma csv_decoded_witness :
  wf_schema Sample2.platform /\
  In "tags" (relationNames Sample2.platform "event") /\
  "tags" <> "publishedAt" /\
  truthy (obj_get Sample2.row "tags") = true /\
  is_str (obj_get Sample2.row "tags") "null" = false /\
  is_str (obj_get Sample2.row "tags") "undefined" = false /\
  JSON_parse Sample2.platform (obj_get Sample2.row "tags")
  = Some (VArr [VNum 1; VNum 2]) /\
  obj_get (parseCsvRow Sample2.platform "event" false Sample2.row) "tags"
  = VArr [VNum 1; VNum 2].
Proof.
  assert (Hin : In "tags" (relationNames Sample2.platform "event"))
    by (cbn; auto 10).
  assert (Hne : "tags" <> "publishedAt") by discriminate.
  split; [exact sample2_wf|]. split; [exact Hin|]. split; [exact Hne|].
  split; [reflexivity|]. split; [reflexivity|]. split; [reflexivity|].
  split; [reflexivity|].
  exact (csv_relation_cell_decoded Sample2.platform "event" false Sample2.row
           "tags" (VArr [VNum 1; VNum 2]) sample2_wf Hin Hne eq_refl eq_refl
           eq_refl eq_refl).
Defined.

(** X19 at work: a column that is no attribute keeps even the text "null". *)
Lemma csv_untouched_witness :
  ~ In "note" (relationNames Sample2.platform "event") /\
  ~ In "note" (dateTimeFields Sample2.platform "event") /\
  ~ In "note" (booleanFields Sample2.platform "event") /\
  ~ In "note" (numberFields Sample2.platform "event") /\
  "note" <> "publishedAt" /\
  obj_get (parseCsvRow Sample2.platform "event" false Sample2.row) "note"
  = VStr "null".
Proof.
  assert (H1 : ~ In "note" (relationNames Sample2.platform "event"))
    by (cbn; intuition discriminate).
  assert (H2 : ~ In "note" (dateTimeFields Sample2.platform "event"))
    by (cbn; intuition discriminate).
  assert (H3 : ~ In "note" (booleanFields Sample2.platform "event"))
    by (cbn; intuition discriminate).
  assert (H4 : ~ In "note" (numberFields Sample2.platform "event"))
    by (cbn; intuition discriminate).
  assert (H5 : "note" <> "publishedAt") by discriminate.
  repeat (split; [assumption|]).
  exact (csv_other_columns_untouched Sample2.platform "event" false
           Sample2.row "note" H1 H2 H3 H4 H5).
Defined.

(** X20 at work: an object and a number in a JSON array, drafts requested. *)
Lemma parseJson_witness :
  JSON_parse Sample2.platform (VStr "items") = Some Sample2.items /\
  hasDraftAndPublish Sample2.platform "event" = true /\
  exists l',
    parseJson Sample2.platform (VStr "items") "event" None = Ok (VArr l') /\
    Forall2 same_fields_but_publish [VObj [("name", VStr "a");
                                           ("publishedAt", VStr "2020-01-01")];
                                     VNum 3] l' /\
    Forall draft_value l'.
Proof.
  split; [reflexivity|]. split; [reflexivity|].
  exact (proj1 (parseJson_normalises_each_item Sample2.platform
                  (VStr "items") "event" None _ eq_refl) eq_refl eq_refl).
Defined.

(** X21 at work: two rows of a dump; the id of the first is not taken. *)
Lemma postgres_witness :
  JSON_parse Sample2.platform (VStr "rows") = Some Sample2.rows /\
  Forall (fun item => nullish item = false) (toArray Sample2.rows) /\
  Forall (fun item => stringifiable (prop item "name") = true /\
                      stringifiable (prop item "published_at") = true)
    (toArray Sample2.rows) /\
  exists ys,
    parsePostgresJson Sample2.platform (VStr "rows") "part" None
    = Ok (VArr ys) /\
    Forall2 (postgres_record Sample2.platform
               (hasDraftAndPublish Sample2.platform "part"))
      (toArray Sample2.rows) ys.
Proof.
  assert (HF : Forall (fun item => nullish item = false)
                 (toArray Sample2.rows))
    by (repeat constructor).
  assert (HP : Forall (fun item => stringifiable (prop item "name") = true /\
                                   stringifiable (prop item "published_at")
                                   = true)
                 (toArray Sample2.rows))
    by (repeat constructor).
  split; [reflexivity|]. split; [exact HF|]. split; [exact HP|].
  exact (postgres_delivers_one_record_per_row Sample2.platform (VStr "rows")
           "part" None Sample2.rows eq_refl HF HP).
Defined.

(** X23 at work: a dump imported through the controller, drafts omitted. *)
Lemma controller_drafts_witness :
  exists r w',
    hasDraftAndPublish Sample2.platform "event" = true /\
    controller Sample2.platform noV2 admin
      {| b_slug := "event"; b_data := VStr "rows"; b_format := "json";
         b_fileType := Some "postgres"; b_idField := Some "name";
         b_importAsDrafts := None |} empty = Some (r, w') /\
    extends (top_writes draft) empty w' /\
    count_creates (trace w') = 2%nat.
Proof.
  do 2 eexists. split; [reflexivity|]. split; [reflexivity|]. split.
  - exact (controller_enforces_drafts mem_store Sample2.platform noV2 admin
             {| b_slug := "event"; b_data := VStr "rows"; b_format := "json";
                b_fileType := Some "postgres"; b_idField := Some "name";
                b_importAsDrafts := None |} empty _ _ eq_refl eq_refl
             (or_introl eq_refl) eq_refl).
  - reflexivity.
Defined.

(** X24 at work. *)
Lemma controller_scalar_witness :
  isObjectSafe (VNum 5) = false /\
  isArraySafe (VNum 5) = false /\
  controller platform noV2 admin
    {| b_slug := "article"; b_data := VNum 5; b_format := "jso";
       b_fileType := None; b_idField := None; b_importAsDrafts := None |}
    empty
  = Some (Err "To import JSO, data must be an array or an object", empty).
Proof.
  split; [reflexivity|]. split; [reflexivity|].
  exact (controller_refuses_scalar_jso mem_store platform noV2 admin "article"
           (VNum 5) None None empty eq_refl eq_refl).
Defined.

(** X27 at work: the nested article is imported, nothing fails. *)
Lemma importData_result_witness :
  exists r w',
    wf_schema platform /\
    importData platform (VStr "nested") "article" "json" admin None None empty
    = Some (r, w') /\
    ((exists failures, r = Ok failures) \/
     (exists m,
         r = Err m /\ w' = empty /\ "json" <> "jso" /\
         parseInputData platform "json" (VStr "nested") "article"
           (Some (if hasDraftAndPublish platform "article" then dflt None
                  else false)) = Err m)).
Proof.
  do 2 eexists. split; [exact Runs.sample_wf|]. split; [reflexivity|].
  exact (importData_fails_only_on_parse mem_store platform Runs.sample_wf
           (VStr "nested") "article" "json" admin None None empty _ _
           eq_refl).
Defined.

End MoreRuns.
